(** * routey: parameter extraction and schema derivation

    A shallow embedding of the parts of [github.com/zhamlin/routey] that
    turn a handler's input struct into parameter descriptions, request
    extractors, JSON schemas and OpenAPI parameters, together with the
    properties proved about them.

    The types the code inspects through [reflect] are modelled by an
    explicit universe ([Reflect.rtype]) and a table of the declared types
    ([Reflect.decls]).  The methods of a program's types are given by
    method tables, one per interface, so an interface assertion in the
    source is a lookup in a table.  A function that follows the type
    graph takes a fuel argument, since a Go type may refer to itself
    through a pointer; [None] is the answer when the fuel ran out. *)

From Stdlib Require Import ZArith Lia Ascii.
From Stdlib Require Import Floats.SpecFloat.
From stdpp Require Import base option list strings gmap.

Set Warnings "-register-all".

Local Open Scope string_scope.
Local Open Scope list_scope.
Local Open Scope Z_scope.

(** ** Outcomes of a Go call: a normal return or a run-time panic *)

Inductive outcome (A : Type) : Type :=
| Ret (a : A)
| Panic (msg : string).
Arguments Ret {A} a.
Arguments Panic {A} msg.

Definition obind {A B} (x : outcome A) (k : A -> outcome B) : outcome B :=
  match x with
  | Ret a => k a
  | Panic m => Panic m
  end.

(** ** package reflect *)

Module Reflect.

Inductive intkind := K0 | K8 | K16 | K32 | K64.
Inductive floatkind := F32 | F64.

(** [reflect.Type].  A declared (named or literal struct) type is a key
    into the declaration table, which is what lets a struct refer to
    itself behind a pointer, a slice or a map. *)
Inductive rtype :=
  | TBool
  | TString
  | TInt (k : intkind)
  | TUint (k : intkind)
  | TFloat (k : floatkind)
  | TInterface
  | TUnsupported (kind : string)
  | TSlice (elem : rtype)
  | TArray (len : nat) (elem : rtype)
  | TPtr (elem : rtype)
  | TMap (key elem : rtype)
  | TDefined (id : string).

#[export] Instance intkind_eq_dec : EqDecision intkind.
Proof. solve_decision. Defined.
#[export] Instance floatkind_eq_dec : EqDecision floatkind.
Proof. solve_decision. Defined.
#[export] Instance rtype_eq_dec : EqDecision rtype.
Proof. solve_decision. Defined.

(** [reflect.StructTag] as the list of its key/value pairs. *)
Definition StructTag := list (string * string).

Fixpoint Tag_Get (tag : StructTag) (key : string) : string :=
  match tag with
  | [] => ""
  | (k, v) :: rest => if String.eqb k key then v else Tag_Get rest key
  end.

Record StructField := mkField {
    Name : string;
    Typ : rtype;
    Tag : StructTag;
    Anonymous : bool;
  }.

#[export] Instance StructField_eq_dec : EqDecision StructField.
Proof. solve_decision. Defined.

(** What a declared type is declared as: a struct with its fields, or
    another type literal ([type Celsius float64]). *)
Inductive underlying :=
  | UStruct (fields : list StructField)
  | ULiteral (t : rtype).

Record decl := mkDecl {
    decl_Name : string;
    decl_Underlying : underlying;
  }.

(** The declared types of a program, by their identity. *)
Definition decls := gmap string decl.

(** [reflect.Kind] *)
Inductive Kind :=
  | kBool | kInt (k : intkind) | kUint (k : intkind) | kFloat (k : floatkind)
  | kString | kInterface | kSlice | kArray | kPointer | kMap | kStruct
  | kOther (name : string).

#[export] Instance Kind_eq_dec : EqDecision Kind.
Proof. solve_decision. Defined.

Definition literal_Kind (t : rtype) : Kind :=
  match t with
  | TBool => kBool
  | TString => kString
  | TInt k => kInt k
  | TUint k => kUint k
  | TFloat k => kFloat k
  | TInterface => kInterface
  | TUnsupported kind => kOther kind
  | TSlice _ => kSlice
  | TArray _ _ => kArray
  | TPtr _ => kPointer
  | TMap _ _ => kMap
  | TDefined _ => kOther "invalid"
  end.

(** [typ.Kind()] *)
Definition Kind_of (ds : decls) (typ : rtype) : Kind :=
  match typ with
  | TDefined id =>
      match ds !! id with
      | Some d =>
          match decl_Underlying d with
          | UStruct _ => kStruct
          | ULiteral t => literal_Kind t
          end
      | None => kOther "invalid"
      end
  | _ => literal_Kind typ
  end.

(** The fields of a struct type, [typ.Field(0) .. typ.Field(NumField()-1)]. *)
Definition Fields (ds : decls) (typ : rtype) : list StructField :=
  match typ with
  | TDefined id =>
      match ds !! id with
      | Some (mkDecl _ (UStruct fs)) => fs
      | _ => []
      end
  | _ => []
  end.

(** [typ.Elem()] and [typ.Key()] *)
Definition literal_Elem (t : rtype) : rtype :=
  match t with
  | TSlice e | TArray _ e | TPtr e | TMap _ e => e
  | _ => t
  end.

Definition Elem (ds : decls) (typ : rtype) : rtype :=
  match typ with
  | TDefined id =>
      match ds !! id with
      | Some (mkDecl _ (ULiteral t)) => literal_Elem t
      | _ => typ
      end
  | _ => literal_Elem typ
  end.

Definition Key (ds : decls) (typ : rtype) : rtype :=
  match typ with
  | TMap k _ => k
  | TDefined id =>
      match ds !! id with
      | Some (mkDecl _ (ULiteral (TMap k _))) => k
      | _ => typ
      end
  | _ => typ
  end.

(** Looking a method up in a table that is keyed by the dynamic type of
    the interface value.  A pointer to a pointer and a pointer to an
    interface have no methods. *)
Definition method {A} (table : rtype -> option A) (dyn : rtype) : option A :=
  match dyn with
  | TPtr (TPtr _) | TPtr TInterface => None
  | _ => table dyn
  end.

(** [typ.Name()] *)
Definition Name_of (ds : decls) (typ : rtype) : string :=
  match typ with
  | TDefined id =>
      match ds !! id with
      | Some d => decl_Name d
      | None => ""
      end
  | TBool => "bool"
  | TString => "string"
  | TInt K0 => "int" | TInt K8 => "int8" | TInt K16 => "int16"
  | TInt K32 => "int32" | TInt K64 => "int64"
  | TUint K0 => "uint" | TUint K8 => "uint8" | TUint K16 => "uint16"
  | TUint K32 => "uint32" | TUint K64 => "uint64"
  | TFloat F32 => "float32" | TFloat F64 => "float64"
  | _ => ""
  end.

End Reflect.
Export Reflect.

(** ** Errors *)

(** The package-level error variables that the code compares against with
    [errors.Is]. *)
Inductive sentinel :=
| ErrInvalidParamType
| ErrNonStructArg
| ErrNoParser
| ErrParamFailedToExtract
| ErrExtactType
| ErrJSONDecode
| ErrSchemaLoad
| ErrSchemaNotFound
| ErrUnknowType
| errInvalidMapKey
| ErrInvalidStyle
| ErrInvalidLocation
| errInvalidLocForStyle
| errInvalidTypeForLocation
| strconv_ErrSyntax
| strconv_ErrRange.

#[export] Instance sentinel_eq_dec : EqDecision sentinel.
Proof. solve_decision. Defined.

(** [param.InvalidParamError] *)
Record InvalidParamError := mkInvalidParamError {
  ipe_Struct : rtype;
  ipe_Field : StructField;
  ipe_ParamType : option rtype;
  ipe_Message : string;
  ipe_Err : string;
  ipe_UnderlineAll : bool;
}.

(** [extractor.UnknownFieldTypeError] *)
Record UnknownFieldTypeError := mkUnknownFieldTypeError {
  uft_Field : string;
  uft_Type : rtype;
  uft_Struct : option rtype;
  uft_RelatedFound : list rtype;
}.

(** [jsonschema.ValidationError] (without the original error it keeps). *)
Inductive ValidationError :=
| mkValidationError (Causes : list ValidationError) (Message Location : string).

(** A non-nil [error].  [Errorf1 format e] and [Errorf2 format e1 e2] are
    the results of [fmt.Errorf] with one and with two [%w] verbs, [Join]
    that of [errors.Join], [ErrorText] an error made by code outside the
    repository.  The last two wrap their cause, which [Unwrap] returns. *)
Inductive err :=
| Sentinel (s : sentinel)
| NumError (Func Num : string) (Err : sentinel)
| ErrorText (msg : string)
| Errorf1 (format : string) (e : err)
| Errorf2 (format : string) (e1 e2 : err)
| Join (es : list err)
| InvalidParam (p : InvalidParamError)
| UnknownFieldType (u : UnknownFieldTypeError)
| Validation (v : ValidationError)
| InvalidParamStyle (cause : err)
| HandlerError (cause : err).

(** A Go [error] value; [None] is [nil]. *)
Definition error := option err.

(** [errors.Is(e, target)] for a sentinel target. *)
Fixpoint err_Is (e : err) (target : sentinel) : bool :=
  match e with
  | Sentinel s => bool_decide (s = target)
  | NumError _ _ s => bool_decide (s = target)
  | ErrorText _ => false
  | Errorf1 _ e' => err_Is e' target
  | Errorf2 _ e1 e2 => err_Is e1 target || err_Is e2 target
  | Join es => existsb (fun e' => err_Is e' target) es
  | InvalidParam _ => false
  | UnknownFieldType _ => false
  | Validation _ => false
  | InvalidParamStyle c => err_Is c target
  | HandlerError c => err_Is c target
  end.

Definition errors_Is (e : error) (target : sentinel) : bool :=
  match e with
  | None => false
  | Some e' => err_Is e' target
  end.

(** [errors.As(e, &want)] with [want] a [*param.InvalidParamError]. *)
Fixpoint err_As_InvalidParam (e : err) : option InvalidParamError :=
  match e with
  | InvalidParam p => Some p
  | Errorf1 _ e' => err_As_InvalidParam e'
  | Errorf2 _ e1 e2 =>
      match err_As_InvalidParam e1 with
      | Some p => Some p
      | None => err_As_InvalidParam e2
      end
  | Join es =>
      (fix first (l : list err) : option InvalidParamError :=
         match l with
         | [] => None
         | x :: l' =>
             match err_As_InvalidParam x with
             | Some p => Some p
             | None => first l'
             end
         end) es
  | InvalidParamStyle c => err_As_InvalidParam c
  | HandlerError c => err_As_InvalidParam c
  | _ => None
  end.

(** ** package strconv (Go standard library), base 10 *)

Module Strconv.

Definition syntaxError (fn str : string) : err := NumError fn str strconv_ErrSyntax.
Definition rangeError (fn str : string) : err := NumError fn str strconv_ErrRange.

Definition IntSize : Z := 64.
Definition maxUint64 : Z := 2 ^ 64 - 1.

(** The digit loop of [strconv.ParseUint] for base 10: [n] is the value
    read so far, kept as a 64-bit unsigned number. *)
Fixpoint uintLoop (s0 : string) (maxVal : Z) (n : Z) (s : string) : Z * error :=
  match s with
  | EmptyString => (n, None)
  | String.String c rest =>
      let b := Z.of_nat (Ascii.nat_of_ascii c) in
      if (48 <=? b) && (b <=? 57) then
        let d := b - 48 in
        if n >=? maxUint64 / 10 + 1 then (maxVal, Some (rangeError "ParseUint" s0))
        else
          let n10 := (n * 10) mod 2 ^ 64 in
          let n1 := (n10 + d) mod 2 ^ 64 in
          if (n1 <? n10) || (n1 >? maxVal) then (maxVal, Some (rangeError "ParseUint" s0))
          else uintLoop s0 maxVal n1 rest
      else (0, Some (syntaxError "ParseUint" s0))
  end.

Definition bits (bitSize : Z) : Z := if bitSize =? 0 then IntSize else bitSize.

(** [strconv.ParseUint(s, 10, bitSize)] *)
Definition ParseUint (s : string) (bitSize : Z) : Z * error :=
  match s with
  | EmptyString => (0, Some (syntaxError "ParseUint" s))
  | _ => uintLoop s (2 ^ bits bitSize - 1) 0 s
  end.

(** [strconv.ParseInt(s, 10, bitSize)] *)
Definition ParseInt (s : string) (bitSize : Z) : Z * error :=
  match s with
  | EmptyString => (0, Some (syntaxError "ParseInt" s))
  | String.String c rest =>
      let s0 := s in
      let neg := Ascii.eqb c "-"%char in
      let s' := if Ascii.eqb c "+"%char || Ascii.eqb c "-"%char then rest else s in
      let '(un, e) := ParseUint s' bitSize in
      match e with
      | Some (NumError _ _ strconv_ErrSyntax) => (0, Some (syntaxError "ParseInt" s0))
      | _ =>
          let cutoff := 2 ^ (bits bitSize - 1) in
          if negb neg && (un >=? cutoff) then (cutoff - 1, Some (rangeError "ParseInt" s0))
          else if neg && (un >? cutoff) then (- cutoff, Some (rangeError "ParseInt" s0))
          else (if neg then - un else un, None)
      end
  end.

(** [strconv.ParseBool] *)
Definition ParseBool (str : string) : bool * error :=
  if bool_decide (str ∈ ["1"; "t"; "T"; "TRUE"; "true"; "True"]) then (true, None)
  else if bool_decide (str ∈ ["0"; "f"; "F"; "FALSE"; "false"; "False"]) then (false, None)
  else (false, Some (syntaxError "ParseBool" str)).

End Strconv.

(** ** Go values *)

(** The values the parsers and extractors write.  A value of a declared
    type is the list of the fields that have been assigned (an absent
    field holds its zero value); [VZero] is the zero value of a type
    whose values the model never looks into (nil pointers, maps, slices,
    interfaces). *)
Inductive gvalue :=
| VZero (t : rtype)
| VBool (b : bool)
| VInt (k : intkind) (z : Z)
| VUint (k : intkind) (z : Z)
| VFloat (k : floatkind) (f : spec_float)
| VString (s : string)
| VObj (id : string) (fields : list (string * gvalue))
| VHandle (t : rtype) (what : string).

(** [reflect.New(t).Elem()]: the zero value of [t]. *)
Definition zero (t : rtype) : gvalue :=
  match t with
  | TBool => VBool false
  | TString => VString ""
  | TInt k => VInt k 0
  | TUint k => VUint k 0
  | TFloat k => VFloat k (S754_zero false)
  | TDefined id => VObj id []
  | _ => VZero t
  end.

(** The dynamic type of a value. *)
Definition typeof (v : gvalue) : rtype :=
  match v with
  | VZero t => t
  | VBool _ => TBool
  | VInt k _ => TInt k
  | VUint k _ => TUint k
  | VFloat k _ => TFloat k
  | VString _ => TString
  | VObj id _ => TDefined id
  | VHandle t _ => t
  end.

Fixpoint assoc_get {A} (k : string) (l : list (string * A)) : option A :=
  match l with
  | [] => None
  | (k', a) :: l' => if String.eqb k' k then Some a else assoc_get k l'
  end.

Fixpoint assoc_set {A} (k : string) (a : A) (l : list (string * A)) : list (string * A) :=
  match l with
  | [] => [(k, a)]
  | (k', a') :: l' => if String.eqb k' k then (k, a) :: l' else (k', a') :: assoc_set k a l'
  end.

(** Reading and writing the field [f] of a struct value. *)
Definition getField (v : gvalue) (f : StructField) : gvalue :=
  match v with
  | VObj _ fs => default (zero (Typ f)) (assoc_get (Name f) fs)
  | _ => zero (Typ f)
  end.

Definition setField (v : gvalue) (f : StructField) (x : gvalue) : gvalue :=
  match v with
  | VObj id fs => VObj id (assoc_set (Name f) x fs)
  | _ => v
  end.

Definition bitSize (k : intkind) : Z :=
  match k with K0 => 0 | K8 => 8 | K16 => 16 | K32 => 32 | K64 => 64 end.

(** Conversion of an [int64] to the signed integer type of kind [k]
    ([int8(i)], ...): the low bits, read as a two's complement number. *)
Definition to_int (k : intkind) (i : Z) : Z :=
  let w := Strconv.bits (bitSize k) in
  (i + 2 ^ (w - 1)) mod 2 ^ w - 2 ^ (w - 1).

(** Conversion of a [uint64] to the unsigned integer type of kind [k]. *)
Definition to_uint (k : intkind) (i : Z) : Z :=
  i mod 2 ^ Strconv.bits (bitSize k).

(** ** package param: parsers *)

Module Param.

(** [type Parser func(value any, params []string) error].  [value] is a
    pointer; the model passes the value it points to and returns the
    value it points to afterwards. *)
Definition Parser := gvalue -> list string -> outcome (gvalue * error).

Definition index_panic : string := "index out of range [0] with length 0".

Module Parsers.
(** The loop of [Parsers.Parse], with [err] the variable of that name. *)
Fixpoint loop (err : error) (p : list Parser) (value : gvalue) (params : list string)
  : outcome (gvalue * error) :=
  match p with
  | [] => Ret (value, err)
  | pi :: rest =>
      match pi value params with
      | Panic m => Panic m
      | Ret (value', err') =>
          if negb (errors_Is err' ErrInvalidParamType) then Ret (value', err')
          else loop err' rest value' params
      end
  end.

Definition Parse (p : list Parser) : Parser := loop None p.
End Parsers.

Section StandardLibrary.
(** [strconv.ParseFloat(s, bitSize)], taken as given. *)
Variable strconv_ParseFloat : string -> Z -> spec_float * error.
(** The [UnmarshalText] method of the types that implement
    [encoding.TextUnmarshaler], by the type the pointer points to. *)
Variable UnmarshalText : rtype -> option (string -> gvalue -> outcome (gvalue * error)).

Definition ParseInt : Parser := fun value params =>
  match params with
  | [] => Panic index_panic
  | param :: _ =>
      match value with
      | VInt k _ =>
          let '(i, err) := Strconv.ParseInt param (bitSize k) in
          Ret (VInt k (to_int k i), err)
      | _ => Ret (value, Some (Sentinel ErrInvalidParamType))
      end
  end.

Definition ParseUint : Parser := fun value params =>
  match params with
  | [] => Panic index_panic
  | param :: _ =>
      match value with
      | VUint k _ =>
          let '(i, err) := Strconv.ParseUint param (bitSize k) in
          Ret (VUint k (to_uint k i), err)
      | _ => Ret (value, Some (Sentinel ErrInvalidParamType))
      end
  end.

Definition ParseFloat : Parser := fun value params =>
  match params with
  | [] => Panic index_panic
  | param :: _ =>
      match value with
      | VFloat F32 _ =>
          let '(i, err) := strconv_ParseFloat param 32 in Ret (VFloat F32 i, err)
      | VFloat F64 _ =>
          let '(i, err) := strconv_ParseFloat param 64 in Ret (VFloat F64 i, err)
      | _ => Ret (value, Some (Sentinel ErrInvalidParamType))
      end
  end.

Definition ParseTextUnmarshaller : Parser := fun value params =>
  match UnmarshalText (typeof value) with
  | Some unmarshal =>
      match params with
      | [] => Panic index_panic
      | param :: _ => unmarshal param value
      end
  | None => Ret (value, Some (Sentinel ErrInvalidParamType))
  end.

Definition ParseBool : Parser := fun value params =>
  match value with
  | VBool _ =>
      match params with
      | [] => Panic index_panic
      | param :: _ => let '(b, err) := Strconv.ParseBool param in Ret (VBool b, err)
      end
  | _ => Ret (value, Some (Sentinel ErrInvalidParamType))
  end.

Definition ParseString : Parser := fun value params =>
  match value with
  | VString _ =>
      match params with
      | [] => Panic index_panic
      | param :: _ => Ret (VString param, None)
      end
  | _ => Ret (value, Some (Sentinel ErrInvalidParamType))
  end.

(** The six built-in parsers, in the order the router chains them. *)
Definition builtin : list Parser :=
  [ParseTextUnmarshaller; ParseInt; ParseUint; ParseFloat; ParseString; ParseBool].
End StandardLibrary.

(** Calling a value of type [Parser] that may be [nil]. *)
Definition call (parser : option Parser) : Parser := fun value params =>
  match parser with
  | Some f => f value params
  | None => Panic "invalid memory address or nil pointer dereference"
  end.

(** [type Opts struct]; [PathValue] is [o.Pather.Param]. *)
Module Opts.
Record t (Request : Type) := mk {
    Name : string;
    Default : string;
    Parser : option Param.Parser;
    PathValue : string -> Request -> string;
  }.
Arguments mk {Request}.
Arguments Name {Request}.
Arguments Default {Request}.
Arguments Parser {Request}.
Arguments PathValue {Request}.

Definition Parse {Request} (o : t Request) (value : gvalue) (params : list string)
  : outcome (gvalue * error) :=
  if bool_decide (length params = 0%nat) && negb (String.eqb (Default o) "") then
    call (Parser o) value [Default o]
  else if bool_decide (length params = 0%nat) then
    Ret (value, None)
  else
    call (Parser o) value params.
End Opts.

(** *** The type walker *)

Module Info.
Record t := mk {
    Name : string;
    Source : string;
    Default : string;
    Typ : rtype;
    Field : StructField;
    Struct : rtype;
    ParentFields : list StructField;
  }.
End Info.

Definition Namer := string -> string -> string.

Definition ErrUnparsableDefault : string := "default value cannot be parsed".

Section Walker.
Variable ds : decls.
(** Method tables, by the dynamic type of the interface value:
    [Source] of the types that have it, the dynamic type of what
    [Inner] returns on a zero value ([None] for a nil interface), and
    [CanParse] of the types that implement [CustomParser]. *)
Variable sourcer : rtype -> option string.
Variable inner : rtype -> option (option rtype).
Variable CustomParser :
  rtype -> option (option Parser -> StructField -> gvalue -> outcome (gvalue * error)).
(** The [Error] method of an error value; how diagnostics are rendered
    is not modelled. *)
Variable Error : err -> string.

Definition GetSourceAndType (typ : rtype) : string * option rtype * bool :=
  match method sourcer (TPtr typ) with
  | None => ("", None, false)
  | Some source =>
      let gotType :=
        match method inner (TPtr typ) with
        | Some (Some t) => t
        | _ => typ
        end in
      (source, Some gotType, true)
  end.

Definition NameFromField (f : StructField) (namer : Namer) (source : string) : string :=
  let name := Tag_Get (Tag f) "name" in
  if String.eqb name "" then namer (Name f) source else name.

Definition canParseType (parser : option Parser) (value : gvalue) (field : StructField)
  : outcome (gvalue * error) :=
  obind (call parser value [""]) (fun '(value, e) =>
    if negb (errors_Is e ErrInvalidParamType) then Ret (value, None)
    else
      match method CustomParser (TPtr (Typ field)) with
      | Some CanParse => CanParse parser field value
      | None =>
          match method CustomParser (Typ field) with
          | Some CanParse => CanParse parser field value
          | None => Ret (value, Some (Sentinel ErrInvalidParamType))
          end
      end).

(** The three functions of the walker call each other; [infoFromValue]
    is the one that is passed down, as [rec]. *)
Section Rec.
Variable rec : rtype -> option (outcome (list Info.t + err)).

Definition getParamsFromStruct (field : StructField) (namer : Namer)
    (parser : option Parser) : option (outcome (list Info.t + err)) :=
  match parser with
  | None => Some (Ret (inr (Sentinel ErrNoParser)))
  | Some _ =>
      if negb (bool_decide (Kind_of ds (Typ field) = kStruct)) then Some (Ret (inl []))
      else
        match rec (Typ field) with
        | None => None
        | Some (Panic m) => Some (Panic m)
        | Some (Ret (inr e)) => Some (Ret (inr e))
        | Some (Ret (inl infos)) =>
            Some (Ret (inl (map (fun info =>
              Info.mk (Info.Name info) (Info.Source info) (Info.Default info)
                (Info.Typ info) (Info.Field info) (Info.Struct info)
                (Info.ParentFields info ++ [field])) infos)))
        end
  end.

Definition infoFromField (structType : rtype) (field : StructField) (namer : Namer)
    (parser : option Parser) : option (outcome (list Info.t + err)) :=
  match GetSourceAndType (Typ field) with
  | (source, Some typ, true) =>
      let value := zero typ in
      match canParseType parser value field with
      | Panic m => Some (Panic m)
      | Ret (value, Some e) =>
          match err_As_InvalidParam e with
          | Some want => Some (Ret (inr (InvalidParam want)))
          | None =>
              Some (Ret (inr (InvalidParam
                (mkInvalidParamError structType field (Some typ) "" "" false))))
          end
      | Ret (value, None) =>
          let defaultValue := Tag_Get (Tag field) "default" in
          let checked :=
            if negb (String.eqb defaultValue "") then
              match call parser value [defaultValue] with
              | Panic m => Panic m
              | Ret (_, Some e) =>
                  Ret (Some (InvalidParam
                    (mkInvalidParamError structType field (Some typ)
                       (ErrUnparsableDefault +:+ ": " +:+ defaultValue) (Error e) false)))
              | Ret (_, None) => Ret None
              end
            else Ret None in
          match checked with
          | Panic m => Some (Panic m)
          | Ret (Some e) => Some (Ret (inr e))
          | Ret None =>
              let name := NameFromField field namer source in
              Some (Ret (inl
                [Info.mk name source defaultValue typ field structType []]))
          end
      end
  | _ => getParamsFromStruct field namer parser
  end.

Fixpoint fieldLoop (structType : rtype) (namer : Namer) (parser : option Parser)
    (fields : list StructField) (params : list Info.t)
    : option (outcome (list Info.t + err)) :=
  match fields with
  | [] => Some (Ret (inl params))
  | field :: rest =>
      match infoFromField structType field namer parser with
      | None => None
      | Some (Panic m) => Some (Panic m)
      | Some (Ret (inr e)) => Some (Ret (inr e))
      | Some (Ret (inl info)) => fieldLoop structType namer parser rest (params ++ info)
      end
  end.

Definition infoFromValue_body (structType : rtype) (namer : Namer)
    (parser : option Parser) : option (outcome (list Info.t + err)) :=
  if negb (bool_decide (Kind_of ds structType = kStruct)) then
    Some (Ret (inr (Errorf1 "%w: got: %q" (Sentinel ErrNonStructArg))))
  else fieldLoop structType namer parser (Fields ds structType) [].
End Rec.

(** [infoFromValue]; [None] when the fuel does not cover the nesting
    depth of [value]. *)
Fixpoint infoFromValue (fuel : nat) (value : rtype) (namer : Namer)
    (parser : option Parser) : option (outcome (list Info.t + err)) :=
  match fuel with
  | O => None
  | S fuel' =>
      infoFromValue_body (fun t => infoFromValue fuel' t namer parser) value namer parser
  end.

Definition InfoFromStruct (fuel : nat) (T : rtype) (namer : Namer)
    (parser : option Parser) : option (outcome (list Info.t + err)) :=
  infoFromValue fuel T namer parser.
End Walker.

End Param.

(** ** package extractor *)

Module Extractor.

(** What the extractors read of a [*http.Request]: the decoded query
    string ([r.URL.Query()]) and the body. *)
Record Request := mkRequest {
    URL_Query : gmap string (list string);
    Body : option string;
    ContentLength : Z;
  }.

(** [GetAndSetQueryValues]: the query values of the request, which the
    source caches in the request's context after the first call. *)
Definition GetAndSetQueryValues (r : Request) : gmap string (list string) :=
  URL_Query r.

Definition Opts := Param.Opts.t Request.

(** The field [Value T] of [Path[T]] and [Query[T]]. *)
Definition Value (T : rtype) : StructField := mkField "Value" T [] false.

(** [func (p *Path[T]) Extract] *)
Definition Path_Extract (T : rtype) (r : Request) (opts : Opts) (p : gvalue)
  : outcome (gvalue * error) :=
  let value := Param.Opts.PathValue opts (Param.Opts.Name opts) r in
  obind (Param.Opts.Parse opts (getField p (Value T)) [value]) (fun '(v, e) =>
    let p := setField p (Value T) v in
    match e with
    | Some e' => Ret (p, Some (Errorf2 "%w: %w" (Sentinel ErrParamFailedToExtract) e'))
    | None => Ret (p, None)
    end).

(** [func (q *Query[T]) Extract] *)
Definition Query_Extract (T : rtype) (r : Request) (opts : Opts) (q : gvalue)
  : outcome (gvalue * error) :=
  let values := GetAndSetQueryValues r in
  obind (Param.Opts.Parse opts (getField q (Value T))
           (default [] (values !! Param.Opts.Name opts))) (fun '(v, e) =>
    let q := setField q (Value T) v in
    match e with
    | Some e' => Ret (q, Some (Errorf2 "%w: %w" (Sentinel ErrParamFailedToExtract) e'))
    | None => Ret (q, None)
    end).

Definition Path_Source : string := "path".
Definition Query_Source : string := "query".
Definition JSON_Source : string := "body".

Definition httpReqType : rtype := TPtr (TDefined "http.Request").
Definition httpRespType : rtype := TDefined "http.ResponseWriter".

(** [type extractorFn func(http.ResponseWriter, *http.Request, unsafe.Pointer) error]:
    the pointer is to the struct being filled, passed and returned here
    as a value. *)
Definition extractorFn := Request -> gvalue -> outcome (gvalue * error).

Record extractorForOpts := mkOpts {
    Namer : Param.Namer;
    Parser : option Param.Parser;
    Pather : string -> Request -> string;
    CollectAllErrors : bool;
  }.

(** *** The generic types [Path[T]], [Query[T]] and [JSON[T]]

    A program instantiates them at the types it needs; [insts] tells
    which declared types are such instances.  The method tables of the
    instances are read off the methods the source gives the three
    types. *)
Inductive generic := GPath | GQuery | GJSON.

Definition instances := gmap string (generic * rtype).

(** The field [V T] of [JSON[T]]. *)
Definition V (T : rtype) : StructField := mkField "V" T [] false.

(** The declaration of an instance: [struct { Value T }] or [struct { V T }]. *)
Definition instance_decl (name : string) (g : generic) (T : rtype) : decl :=
  match g with
  | GPath | GQuery => mkDecl name (UStruct [Value T])
  | GJSON => mkDecl name (UStruct [V T])
  end.

Definition instance_of (insts : instances) (dyn : rtype) : option (generic * rtype) :=
  match dyn with
  | TPtr (TDefined id) | TDefined id => insts !! id
  | _ => None
  end.

(** [Source] *)
Definition sourcer_of (insts : instances) (dyn : rtype) : option string :=
  match instance_of insts dyn with
  | Some (GPath, _) => Some Path_Source
  | Some (GQuery, _) => Some Query_Source
  | Some (GJSON, _) => Some JSON_Source
  | None => None
  end.

(** [Inner] returns the field [Value] (or [V]) as an [any]: on a zero
    value its dynamic type is [T], or none when [T] is an interface. *)
Definition inner_of (ds : decls) (insts : instances) (dyn : rtype) : option (option rtype) :=
  match instance_of insts dyn with
  | Some (_, T) => Some (if bool_decide (Kind_of ds T = kInterface) then None else Some T)
  | None => None
  end.

(** [func (v JSON[T]) CanParse] *)
Definition JSON_CanParse (p : option Param.Parser) (source : StructField) (value : gvalue)
  : outcome (gvalue * error) := Ret (value, None).

Definition CustomParser_of (insts : instances) (dyn : rtype)
  : option (option Param.Parser -> StructField -> gvalue -> outcome (gvalue * error)) :=
  match instance_of insts dyn with
  | Some (GJSON, _) => Some JSON_CanParse
  | _ => None
  end.

Section JSON.
(** [json.NewDecoder(r.Body).Decode(&dest)], taken as given. *)
Variable json_Decode : string -> gvalue -> gvalue * error.

Definition decodeBodyJSON (r : Request) (dest : gvalue) : gvalue * error :=
  match Body r with
  | Some body =>
      if 0 <? ContentLength r then
        let '(v, e) := json_Decode body dest in
        match e with
        | Some e' => (v, Some (Errorf2 "type: %T: %w: %w" (Sentinel ErrJSONDecode) e'))
        | None => (v, None)
        end
      else (dest, None)
  | None => (dest, None)
  end.

(** [func (v *JSON[T]) Extract] *)
Definition JSON_Extract (T : rtype) (r : Request) (v : gvalue) : outcome (gvalue * error) :=
  let '(x, e) := decodeBodyJSON r (getField v (V T)) in
  Ret (setField v (V T) x, e).

Definition Extractor_of (insts : instances) (dyn : rtype)
  : option (Request -> gvalue -> outcome (gvalue * error)) :=
  match dyn with
  | TPtr (TDefined id) =>
      match insts !! id with
      | Some (GJSON, T) => Some (JSON_Extract T)
      | _ => None
      end
  | _ => None
  end.
End JSON.

Definition ParamExtractor_of (insts : instances) (dyn : rtype)
  : option (string * (Request -> Opts -> gvalue -> outcome (gvalue * error))) :=
  match dyn with
  | TPtr (TDefined id) =>
      match insts !! id with
      | Some (GPath, T) => Some (Path_Source, Path_Extract T)
      | Some (GQuery, T) => Some (Query_Source, Query_Extract T)
      | _ => None
      end
  | _ => None
  end.

(** The loop of the function [extractorFor] returns. *)
Fixpoint runAll (collect : bool) (fns : list extractorFn) (allErrors : list err)
    (r : Request) (args : gvalue) : outcome (gvalue * error) :=
  match fns with
  | [] => Ret (args, match allErrors with [] => None | _ => Some (Join allErrors) end)
  | fn :: rest =>
      match fn r args with
      | Panic m => Panic m
      | Ret (args', Some e) =>
          if negb collect then Ret (args', Some e)
          else runAll collect rest (allErrors ++ [e]) r args'
      | Ret (args', None) => runAll collect rest allErrors r args'
      end
  end.

Section Compile.
Variable ds : decls.
(** Method tables, by the type of the pointer to the field: the
    [Extract] of the types that implement [Extractor], and the
    [Source] and [Extract] of those that implement [ParamExtractor]. *)
Variable Extractor_of : rtype -> option (Request -> gvalue -> outcome (gvalue * error)).
Variable ParamExtractor_of :
  rtype -> option (string * (Request -> Opts -> gvalue -> outcome (gvalue * error))).
(** The functions registered with [Register], by type. *)
Variable extractors : rtype -> option (Request -> outcome (gvalue * error)).

Definition extractExtractor (field : StructField) (opts : extractorForOpts)
  : option extractorFn :=
  match method Extractor_of (TPtr (Typ field)) with
  | None => None
  | Some Extract => Some (fun r argBase =>
      obind (Extract r (getField argBase field)) (fun '(v, e) =>
        Ret (setField argBase field v, e)))
  end.

Definition extractParamExtractor (field : StructField) (opts : extractorForOpts)
  : option extractorFn :=
  match method ParamExtractor_of (TPtr (Typ field)) with
  | None => None
  | Some (source, Extract) =>
      let name := Param.NameFromField field (Namer opts) source in
      Some (fun r argBase =>
        obind (Extract r (Param.Opts.mk name "" (Parser opts) (Pather opts))
                 (getField argBase field)) (fun '(v, e) =>
          Ret (setField argBase field v, e)))
  end.

Definition extractHTTPRequest (field : StructField) (opts : extractorForOpts)
  : option extractorFn :=
  if negb (bool_decide (Typ field = httpReqType)) then None
  else Some (fun r argBase => Ret (setField argBase field (VHandle httpReqType "r"), None)).

Definition extractHTTPResponse (field : StructField) (opts : extractorForOpts)
  : option extractorFn :=
  if negb (bool_decide (Typ field = httpRespType)) then None
  else Some (fun r argBase => Ret (setField argBase field (VHandle httpRespType "w"), None)).

Definition extractFromExtractors (field : StructField) (opts : extractorForOpts)
  : option extractorFn :=
  match extractors (Typ field) with
  | Some ExtractType => Some (fun r argBase =>
      obind (ExtractType r) (fun '(t, e) =>
        match e with
        | None => Ret (setField argBase field t, None)
        | Some e' => Ret (argBase, Some (Errorf2 "%w: %w" (Sentinel ErrExtactType) e'))
        end))
  | None => None
  end.

Fixpoint firstOf (fns : list (StructField -> extractorForOpts -> option extractorFn))
    (field : StructField) (opts : extractorForOpts) : option extractorFn :=
  match fns with
  | [] => None
  | extractor :: rest =>
      match extractor field opts with
      | Some fn => Some fn
      | None => firstOf rest field opts
      end
  end.

Section Rec.
(** [extractorFor], passed down; [None] when the fuel ran out. *)
Variable rec : rtype -> extractorForOpts -> option (extractorFn + err).

Definition extractFromStructOfExtractors (field : StructField) (opts : extractorForOpts)
  : option (option extractorFn * error) :=
  if negb (bool_decide (Kind_of ds (Typ field) = kStruct)) then Some (None, None)
  else
    match rec (Typ field) opts with
    | None => None
    | Some (inr e) => Some (None, Some e)
    | Some (inl fn) => Some (Some (fun r args =>
        obind (fn r (getField args field)) (fun '(v, e) =>
          Ret (setField args field v, e))), None)
    end.

Definition extractorFromField (field : StructField) (opts : extractorForOpts)
  : option (extractorFn + err) :=
  match firstOf [extractHTTPRequest; extractHTTPResponse; extractExtractor;
                 extractParamExtractor; extractFromExtractors] field opts with
  | Some fn => Some (inl fn)
  | None =>
      match extractFromStructOfExtractors field opts with
      | None => None
      | Some (Some f, _) => Some (inl f)
      | Some (None, Some e) => Some (inr e)
      | Some (None, None) =>
          Some (inr (UnknownFieldType
            (mkUnknownFieldTypeError (Name field) (Typ field) None [])))
      end
  end.

Definition findRelatedExtractors (f : StructField) (opts : extractorForOpts)
  : option (list rtype) :=
  let typ := Typ f in
  let fp := mkField (Name f) (TPtr typ) (Tag f) (Anonymous f) in
  match extractorFromField fp opts with
  | None => None
  | Some found =>
      let related := match found with inl _ => [TPtr typ] | inr _ => [] end in
      if bool_decide (Kind_of ds typ = kPointer) then
        let fe := mkField (Name f) (Elem ds typ) (Tag f) (Anonymous f) in
        match extractorFromField fe opts with
        | None => None
        | Some (inl _) => Some (related ++ [Elem ds typ])
        | Some (inr _) => Some related
        end
      else Some related
  end.

Definition extractorFromFieldWithRelated (field : StructField) (opts : extractorForOpts)
  : option (extractorFn + err) :=
  match extractorFromField field opts with
  | Some (inr (UnknownFieldType want)) =>
      match findRelatedExtractors field opts with
      | None => None
      | Some related =>
          Some (inr (UnknownFieldType
            (mkUnknownFieldTypeError (uft_Field want) (uft_Type want) (uft_Struct want)
               related)))
      end
  | x => x
  end.

Fixpoint compileFields (argType : rtype) (opts : extractorForOpts)
    (fields : list StructField) (fns : list extractorFn)
    : option (list extractorFn + err) :=
  match fields with
  | [] => Some (inl fns)
  | f :: rest =>
      match extractorFromFieldWithRelated f opts with
      | None => None
      | Some (inr (UnknownFieldType want)) =>
          Some (inr (UnknownFieldType
            (mkUnknownFieldTypeError (uft_Field want) (uft_Type want)
               (match uft_Struct want with None => Some argType | s => s end)
               (uft_RelatedFound want))))
      | Some (inr e) => Some (inr e)
      | Some (inl fn) => compileFields argType opts rest (fns ++ [fn])
      end
  end.

Definition extractorFor_body (argType : rtype) (opts : extractorForOpts)
  : option (extractorFn + err) :=
  if negb (bool_decide (Kind_of ds argType = kStruct)) then
    Some (inr (Errorf1 "type: %s: %w" (Sentinel ErrNonStructArg)))
  else
    match compileFields argType opts (Fields ds argType) [] with
    | None => None
    | Some (inr e) => Some (inr e)
    | Some (inl fns) => Some (inl (runAll (CollectAllErrors opts) fns []))
    end.
End Rec.

Fixpoint extractorFor (fuel : nat) (argType : rtype) (opts : extractorForOpts)
  : option (extractorFn + err) :=
  match fuel with
  | O => None
  | S fuel' => extractorFor_body (extractorFor fuel') argType opts
  end.
End Compile.

End Extractor.

(** ** package jsonschema: the schema synthesizer *)

Module Jsonschema.

(** [openapi.RefOrSpec[T]] *)
Inductive RefOrSpec (A : Type) :=
  | Ref (ref : string)
  | Spec (spec : A).
Arguments Ref {A} ref.
Arguments Spec {A} spec.

(** The fields of [openapi.Schema] the synthesizer reads or writes.
    [Type_] is a pointer to a list of type names: copies of a schema
    share the list, so it lives in a store and the schema holds its
    address.  [Keywords] stands for the validation keywords that only
    hand-written schemas set. *)
Inductive OSchema := mkOSchema {
    Type_ : option nat;
    Format : string;
    Minimum : option Z;
    Default : option string;
    Description : string;
    Properties : option (list (string * RefOrSpec OSchema));
    Required : list string;
    Items : option (RefOrSpec OSchema);
    AdditionalProperties : option (RefOrSpec OSchema);
    Keywords : list (string * string);
  }.

Record Schema := mkSchema {
    Schema_ : OSchema;
    refPath : string;
    noRef : bool;
    name : string;
  }.

Definition set_Type (t : option nat) (o : OSchema) : OSchema :=
  mkOSchema t (Format o) (Minimum o) (Default o) (Description o) (Properties o)
    (Required o) (Items o) (AdditionalProperties o) (Keywords o).
Definition set_Format (f : string) (o : OSchema) : OSchema :=
  mkOSchema (Type_ o) f (Minimum o) (Default o) (Description o) (Properties o)
    (Required o) (Items o) (AdditionalProperties o) (Keywords o).
Definition set_Minimum (m : option Z) (o : OSchema) : OSchema :=
  mkOSchema (Type_ o) (Format o) m (Default o) (Description o) (Properties o)
    (Required o) (Items o) (AdditionalProperties o) (Keywords o).
Definition set_Default (d : option string) (o : OSchema) : OSchema :=
  mkOSchema (Type_ o) (Format o) (Minimum o) d (Description o) (Properties o)
    (Required o) (Items o) (AdditionalProperties o) (Keywords o).
Definition set_Description (d : string) (o : OSchema) : OSchema :=
  mkOSchema (Type_ o) (Format o) (Minimum o) (Default o) d (Properties o)
    (Required o) (Items o) (AdditionalProperties o) (Keywords o).
Definition set_Properties (p : option (list (string * RefOrSpec OSchema))) (o : OSchema)
  : OSchema :=
  mkOSchema (Type_ o) (Format o) (Minimum o) (Default o) (Description o) p
    (Required o) (Items o) (AdditionalProperties o) (Keywords o).
Definition set_Required (r : list string) (o : OSchema) : OSchema :=
  mkOSchema (Type_ o) (Format o) (Minimum o) (Default o) (Description o) (Properties o)
    r (Items o) (AdditionalProperties o) (Keywords o).
Definition set_Items (i : option (RefOrSpec OSchema)) (o : OSchema) : OSchema :=
  mkOSchema (Type_ o) (Format o) (Minimum o) (Default o) (Description o) (Properties o)
    (Required o) i (AdditionalProperties o) (Keywords o).
Definition set_AdditionalProperties (a : option (RefOrSpec OSchema)) (o : OSchema)
  : OSchema :=
  mkOSchema (Type_ o) (Format o) (Minimum o) (Default o) (Description o) (Properties o)
    (Required o) (Items o) a (Keywords o).

Definition on_Schema (f : OSchema -> OSchema) (s : Schema) : Schema :=
  mkSchema (f (Schema_ s)) (refPath s) (noRef s) (name s).
Definition set_name (n : string) (s : Schema) : Schema :=
  mkSchema (Schema_ s) (refPath s) (noRef s) n.
Definition set_noRef (b : bool) (s : Schema) : Schema :=
  mkSchema (Schema_ s) (refPath s) b (name s).

(** [New] *)
Definition New : Schema :=
  mkSchema (mkOSchema None "" None None "" None [] None None []) "" false "".

(** The type names and formats of [github.com/sv-tools/openapi]. *)
Definition StringType := "string".
Definition NumberType := "number".
Definition IntegerType := "integer".
Definition ObjectType := "object".
Definition ArrayType := "array".
Definition BooleanType := "boolean".
Definition NullType := "null".
Definition Int32Format := "int32".
Definition Int64Format := "int64".
Definition FloatFormat := "float".
Definition DoubleFormat := "double".

(** What a [Schemer] shares between its copies and with the schemas it
    hands out: the map [types] and the type lists behind the [Type_]
    pointers. *)
Record store := mkStore {
    types : list (rtype * Schema);
    heap : list (list string);
  }.

Fixpoint types_get (typ : rtype) (m : list (rtype * Schema)) : option Schema :=
  match m with
  | [] => None
  | (t, s) :: m' => if bool_decide (t = typ) then Some s else types_get typ m'
  end.

Fixpoint types_set (typ : rtype) (s : Schema) (m : list (rtype * Schema))
  : list (rtype * Schema) :=
  match m with
  | [] => [(typ, s)]
  | (t, s') :: m' =>
      if bool_decide (t = typ) then (typ, s) :: m' else (t, s') :: types_set typ s m'
  end.

Definition types_delete (typ : rtype) (m : list (rtype * Schema)) : list (rtype * Schema) :=
  filter (fun '(t, _) => t <> typ) m.

Definition empty_store : store := mkStore [] [].

(** A computation of the synthesizer: it reads and writes the store,
    may panic, and yields [None] when the fuel ran out. *)
Definition M (A : Type) : Type := store -> option (outcome (A * store)).

Definition ret {A} (a : A) : M A := fun st => Some (Ret (a, st)).
Definition bind {A B} (m : M A) (k : A -> M B) : M B := fun st =>
  match m st with
  | None => None
  | Some (Panic msg) => Some (Panic msg)
  | Some (Ret (a, st')) => k a st'
  end.
Definition panic {A} (msg : string) : M A := fun _ => Some (Panic msg).
Definition get_types : M (list (rtype * Schema)) := fun st => Some (Ret (types st, st)).
Definition put_types (m : list (rtype * Schema)) : M unit := fun st =>
  Some (Ret (tt, mkStore m (heap st))).

Notation "'do' x <- c1 ; c2" := (bind c1 (fun x => c2))
  (at level 10, x pattern, c1 at level 100, c2 at level 200).

(** [openapi.NewSingleOrArray(v)]: a pointer to a fresh list. *)
Definition NewSingleOrArray (v : string) : M (option nat) := fun st =>
  Some (Ret (Some (length (heap st)), mkStore (types st) (heap st ++ [[v]]))).

(** The method [Add] of [*SingleOrArray]: appends through the pointer. *)
Definition Type_Add (t : option nat) (v : string) : M unit := fun st =>
  match t with
  | None => Some (Panic "invalid memory address or nil pointer dereference")
  | Some l =>
      Some (Ret (tt, mkStore (types st) (alter (fun ts => ts ++ [v]) l (heap st))))
  end.

(** [GetType] and [hasType], reading the store [h]. *)
Definition GetType (h : list (list string)) (s : Schema) : list string :=
  match Type_ (Schema_ s) with
  | None => []
  | Some l => default [] (h !! l)
  end.

Definition hasType (h : list (list string)) (s : Schema) : bool :=
  bool_decide (0 < length (GetType h s))%nat.

Definition get_heap : M (list (list string)) := fun st => Some (Ret (heap st, st)).

Definition with_Type (v : string) (s : Schema) : M Schema :=
  do t <- NewSingleOrArray v;
  ret (on_Schema (set_Type t) s).

Definition createBoolSchema : M Schema := with_Type BooleanType New.
Definition createStringSchema : M Schema := with_Type StringType New.

Definition createIntSchema (kind : Kind) : M Schema :=
  do schema <- with_Type IntegerType New;
  ret (match kind with
       | kInt K32 => on_Schema (set_Format Int32Format) schema
       | kInt K64 => on_Schema (set_Format Int64Format) schema
       | _ => schema
       end).

Definition createUintSchema (kind : Kind) : M Schema :=
  let zeroInt := 0 in
  do schema <- with_Type IntegerType New;
  let schema := on_Schema (set_Minimum (Some zeroInt)) schema in
  ret (match kind with
       | kUint K32 => on_Schema (set_Format Int32Format) schema
       | kUint K64 => on_Schema (set_Format Int64Format) schema
       | _ => schema
       end).

Definition createFloatSchema : M Schema :=
  do schema <- with_Type NumberType New;
  ret (on_Schema (set_Format FloatFormat) schema).

Definition loadSchemaOptions (field : StructField) (schema : OSchema) : OSchema :=
  let schema :=
    let v := Tag_Get (Tag field) "default" in
    if negb (String.eqb v "") then set_Default (Some v) schema else schema in
  let v := Tag_Get (Tag field) "doc" in
  if negb (String.eqb v "") then set_Description v schema else schema.

(** [strings.Split(s, ",")[0]] *)
Fixpoint before_comma (s : string) : string :=
  match s with
  | EmptyString => EmptyString
  | String.String c rest =>
      if Ascii.eqb c ","%char then EmptyString else String.String c (before_comma rest)
  end.

Definition JSONFieldName (f : StructField) : string :=
  let jsonTag := Tag_Get (Tag f) "json" in
  if String.eqb jsonTag "-" then ""
  else
    let name := before_comma jsonTag in
    if String.eqb name "" then Name f else name.

(** [maps.Copy(dst, src)] on property maps. *)
Definition maps_Copy (dst src : list (string * RefOrSpec OSchema))
  : list (string * RefOrSpec OSchema) :=
  fold_left (fun d '(k, v) => assoc_set k v d) src dst.

Record Schemer := mkSchemer {
    DefaultStructRequire : bool;
    RefPath : string;
    GetTypeName : rtype -> string;
  }.

Section Synthesizer.
Variable ds : decls.
(** Method tables, by the dynamic type of the interface value:
    [JSONSchema] of the types that supply their schema, and
    [JSONSchemaExtend] of those that extend the derived one.  Both may
    allocate and write type lists.  [noRefer] tells which types have
    the marker method [NoRef]. *)
Variable schemer_of : rtype -> option (list (list string) -> Schema * list (list string)).
Variable schemerExtended_of :
  rtype -> option (Schema -> list (list string) -> Schema * list (list string)).
Variable noRefer : rtype -> bool.
Variable s : Schemer.

(** [getTypeName], the default of [Schemer.GetTypeName]. *)
Definition getTypeName (typ : rtype) : string :=
  if bool_decide (Kind_of ds typ = kPointer) then Name_of ds (Elem ds typ)
  else Name_of ds typ.

Definition NewRef (name : string) : string :=
  if String.eqb name "" then "" else RefPath s +:+ name.

Definition useRefs : bool := negb (String.eqb (RefPath s) "").

Definition refOrSpec (t : rtype) (schema : Schema) (useRef : bool)
  : M (RefOrSpec OSchema) :=
  do m <- get_types;
  ret (match types_get t m with
       | Some fieldSchema =>
           if useRef then Ref (NewRef (name fieldSchema)) else Spec (Schema_ schema)
       | None => Spec (Schema_ schema)
       end).

Definition handleCustomSchemer
    (JSONSchema : list (list string) -> Schema * list (list string)) (typ : rtype)
  : M Schema := fun st =>
  let '(schema, h) := JSONSchema (heap st) in
  let schema :=
    if String.eqb (name schema) "" then set_name (GetTypeName s typ) schema else schema in
  Some (Ret (schema, mkStore (types_set typ schema (types st)) h)).

Definition applyExtensions (typ : rtype) (schema : Schema) : M (Schema * error) :=
  match method schemerExtended_of (TPtr typ) with
  | None => ret (schema, None)
  | Some JSONSchemaExtend => fun st =>
      let '(schema, h) := JSONSchemaExtend schema (heap st) in
      let m :=
        if bool_decide (Kind_of ds typ = kStruct) then types_set typ schema (types st)
        else types st in
      Some (Ret ((schema, None), mkStore m h))
  end.

Definition addObjectRequired (field : StructField) (schema fieldSchema : Schema)
  : M Schema :=
  let fieldName := JSONFieldName field in
  if negb (String.eqb fieldName "") then
    let shouldUseRef := useRefs && negb (noRef fieldSchema) in
    do specOrRef <- refOrSpec (Typ field) fieldSchema shouldUseRef;
    match Properties (Schema_ schema) with
    | None => panic "assignment to entry in nil map"
    | Some props =>
        let schema :=
          on_Schema (set_Properties (Some (assoc_set fieldName specOrRef props))) schema in
        ret (if DefaultStructRequire s
                && negb (bool_decide (Kind_of ds (Typ field) = kPointer))
             then on_Schema (set_Required (Required (Schema_ schema) ++ [fieldName])) schema
             else schema)
    end
  else ret schema.

(** The functions below call [schemaFromType] on the types a type is
    made of; it is passed to them as [rec]. *)
Section Rec.
Variable rec : option rtype -> M (Schema * error).

Definition createArraySchema (typ : rtype) : M (Schema * error) :=
  do schema <- with_Type ArrayType New;
  do (arrayItemSchema, e) <- rec (Some (Elem ds typ));
  match e with
  | Some _ => ret (schema, e)
  | None =>
      do h <- get_heap;
      if hasType h arrayItemSchema then
        do specOrRef <- refOrSpec (Elem ds typ) arrayItemSchema
                          (useRefs && negb (noRef arrayItemSchema));
        ret (on_Schema (set_Items (Some specOrRef)) schema, None)
      else ret (schema, None)
  end.

Definition createPointerSchema (typ : rtype) : M (Schema * error) :=
  do (typeSchema, e) <- rec (Some (Elem ds typ));
  match e with
  | Some _ => ret (typeSchema, e)
  | None =>
      do _ <- Type_Add (Type_ (Schema_ typeSchema)) NullType;
      ret (typeSchema, None)
  end.

Definition createMapSchema (typ : rtype) : M (Schema * error) :=
  if negb (bool_decide (Kind_of ds (Key ds typ) = kString)) then
    ret (New, Some (Sentinel errInvalidMapKey))
  else
    do schema <- with_Type ObjectType New;
    do (mapItemSchema, e) <- rec (Some (Elem ds typ));
    match e with
    | Some _ => ret (schema, e)
    | None =>
        do h <- get_heap;
        if hasType h mapItemSchema then
          ret (on_Schema
                 (set_AdditionalProperties (Some (Spec (Schema_ mapItemSchema))))
                 schema, None)
        else ret (schema, None)
    end.

(** The closure [updateSchema] of [schemaFromStruct]; [schema] is the
    variable it captures. *)
Definition updateSchema (fieldCount : nat) (schema : Schema) (field : StructField)
  : M (Schema * error) :=
  do m <- get_types;
  let hasFieldType := bool_decide (is_Some (types_get (Typ field) m)) in
  do (fieldSchema, e) <- rec (Some (Typ field));
  match e with
  | Some _ => ret (schema, e)
  | None =>
      let fieldSchema := on_Schema (loadSchemaOptions field) fieldSchema in
      if Anonymous field then
        do _ <- (if negb hasFieldType then
                   do m <- get_types; put_types (types_delete (Typ field) m)
                 else ret tt);
        if bool_decide (fieldCount = 1%nat) then ret (fieldSchema, None)
        else
          match Properties (Schema_ schema) with
          | Some dst =>
              ret (on_Schema (set_Properties
                     (Some (maps_Copy dst
                              (default [] (Properties (Schema_ fieldSchema))))))
                     schema, None)
          | None =>
              match default [] (Properties (Schema_ fieldSchema)) with
              | [] => ret (schema, None)
              | _ => panic "assignment to entry in nil map"
              end
          end
      else
        do schema <- addObjectRequired field schema fieldSchema;
        ret (schema, None)
  end.

Fixpoint structLoop (fieldCount : nat) (schema : Schema) (fields : list StructField)
  : M (Schema * error) :=
  match fields with
  | [] => ret (schema, None)
  | field :: rest =>
      do (schema, e) <- updateSchema fieldCount schema field;
      match e with
      | Some _ => ret (schema, e)
      | None => structLoop fieldCount schema rest
      end
  end.

Definition schemaFromStruct (typ : rtype) : M (Schema * error) :=
  do schema <- with_Type ObjectType New;
  let schema := on_Schema (set_Properties (Some [])) schema in
  let fieldCount := length (Fields ds typ) in
  structLoop fieldCount schema (Fields ds typ).

Definition createStructSchema (typ : rtype) : M (Schema * error) :=
  do (structSchema, e) <- schemaFromStruct typ;
  match e with
  | Some _ => ret (structSchema, e)
  | None =>
      let structSchema := set_name (GetTypeName s typ) structSchema in
      let structSchema :=
        if noRefer typ then set_noRef true structSchema else structSchema in
      do m <- get_types;
      do _ <- put_types (types_set typ structSchema m);
      ret (structSchema, None)
  end.

Definition createSchemaByKind (typ : rtype) : M (Schema * error) :=
  let kind := Kind_of ds typ in
  match kind with
  | kBool => do x <- createBoolSchema; ret (x, None)
  | kString => do x <- createStringSchema; ret (x, None)
  | kInt _ => do x <- createIntSchema kind; ret (x, None)
  | kUint _ => do x <- createUintSchema kind; ret (x, None)
  | kFloat _ => do x <- createFloatSchema; ret (x, None)
  | kSlice | kArray => createArraySchema typ
  | kPointer => createPointerSchema typ
  | kMap => createMapSchema typ
  | kStruct => createStructSchema typ
  | kInterface => ret (New, None)
  | kOther _ =>
      ret (New, Some (Errorf1 "type: %s: reflect.kind: %s: %w" (Sentinel ErrUnknowType)))
  end.

Definition schemaFromType_body (typ : option rtype) : M (Schema * error) :=
  match typ with
  | None => ret (New, None)
  | Some typ =>
      do m <- get_types;
      match types_get typ m with
      | Some schema => ret (schema, None)
      | None =>
          match method schemer_of (TPtr typ) with
          | Some v => do x <- handleCustomSchemer v typ; ret (x, None)
          | None =>
              do (schema, e) <- createSchemaByKind typ;
              match e with
              | Some _ => ret (schema, e)
              | None => applyExtensions typ schema
              end
          end
      end
  end.
End Rec.

(** [schemaFromType].  The fuel bounds the depth of the calls; the
    result is [None] when it does not suffice. *)
Fixpoint schemaFromType (fuel : nat) (typ : option rtype) : M (Schema * error) :=
  match fuel with
  | O => fun _ => None
  | S fuel' => schemaFromType_body (schemaFromType fuel') typ
  end.

(** [Get] *)
Definition Get (fuel : nat) (obj : option rtype) : M (Schema * error) :=
  schemaFromType fuel obj.
End Synthesizer.

(** [NewSchemer] *)
Definition NewSchemer (ds : decls) : Schemer :=
  mkSchemer false "/schemas/" (getTypeName ds).

End Jsonschema.

(** ** package openapi3/param *)

Module Openapi3Param.
Import Jsonschema.

Record ParameterT := mkParameter {
  Name : string;
  In : string;
  Required : bool;
  Explode : bool;
  Deprecated : bool;
  AllowReserved : bool;
  Style : string;
  Schema : option (RefOrSpec OSchema);
}.

Definition New : ParameterT := mkParameter "" "" false false false false "" None.

Definition SetSchema (p : ParameterT) (schema : Jsonschema.Schema) : ParameterT :=
  mkParameter (Name p) (In p) (Required p) (Explode p) (Deprecated p) (AllowReserved p)
    (Style p) (Some (Spec (Schema_ schema))).

Definition set_Required (b : bool) (p : ParameterT) : ParameterT :=
  mkParameter (Name p) (In p) b (Explode p) (Deprecated p) (AllowReserved p)
    (Style p) (Schema p).
Definition set_Explode (b : bool) (p : ParameterT) : ParameterT :=
  mkParameter (Name p) (In p) (Required p) b (Deprecated p) (AllowReserved p)
    (Style p) (Schema p).
Definition set_Deprecated (b : bool) (p : ParameterT) : ParameterT :=
  mkParameter (Name p) (In p) (Required p) (Explode p) b (AllowReserved p)
    (Style p) (Schema p).
Definition set_AllowReserved (b : bool) (p : ParameterT) : ParameterT :=
  mkParameter (Name p) (In p) (Required p) (Explode p) (Deprecated p) b
    (Style p) (Schema p).
Definition set_Style (st : string) (p : ParameterT) : ParameterT :=
  mkParameter (Name p) (In p) (Required p) (Explode p) (Deprecated p) (AllowReserved p)
    st (Schema p).
Definition set_Schema_Minimum (m : option Z) (p : ParameterT) : ParameterT :=
  mkParameter (Name p) (In p) (Required p) (Explode p) (Deprecated p) (AllowReserved p)
    (Style p)
    (match Schema p with
     | Some (Spec o) => Some (Spec (set_Minimum m o))
     | x => x
     end).

Definition StyleMatrix := "matrix".
Definition StyleLabel := "label".
Definition StyleForm := "form".
Definition StyleSimple := "simple".
Definition StyleSpaceDelimited := "spaceDelimited".
Definition StylePipeDelimited := "pipeDelimited".
Definition StyleDeepObject := "deepObject".

Definition styles : list string :=
  [StyleMatrix; StyleLabel; StyleForm; StyleSimple; StyleSpaceDelimited;
   StylePipeDelimited; StyleDeepObject].

Definition StyleFromString (str : string) : string * error :=
  if bool_decide (str ∈ styles) then (str, None)
  else ("", Some (Errorf1 "%w: %s" (Sentinel ErrInvalidStyle))).

Definition LocationPath := "path".
Definition LocationQuery := "query".
Definition LocationHeader := "header".
Definition LocationCookie := "cookie".

Definition defaultStyle (loc : string) : string * error :=
  if String.eqb loc LocationHeader then (StyleSimple, None)
  else if String.eqb loc LocationPath then (StyleSimple, None)
  else if String.eqb loc LocationQuery then (StyleForm, None)
  else if String.eqb loc LocationCookie then (StyleForm, None)
  else ("", Some (Sentinel ErrInvalidLocation)).

Inductive DataType := DataTypePrimitive | DataTypeArray | DataTypeObject.

#[export] Instance DataType_eq_dec : EqDecision DataType.
Proof. solve_decision. Defined.

(** [getSchemasDataType]; [None] is the empty [DataType] returned with
    [false]. *)
Fixpoint dataTypeOf (typs : list string) : option DataType :=
  match typs with
  | [] => None
  | typ :: rest =>
      if bool_decide (typ ∈ [IntegerType; NumberType; StringType; BooleanType; NullType])
      then Some DataTypePrimitive
      else if String.eqb typ ObjectType then Some DataTypeObject
      else if String.eqb typ ArrayType then Some DataTypeArray
      else dataTypeOf rest
  end.

Definition getSchemasDataType (h : list (list string)) (schema : Jsonschema.Schema)
  : option DataType := dataTypeOf (GetType h schema).

Record paramValidation := mkValidation {
  types : list DataType;
  in_ : list string;
}.

Definition Validate (p : paramValidation) (loc : string) (typ : option DataType) : error :=
  if negb (bool_decide (loc ∈ in_ p)) then Some (Sentinel errInvalidLocForStyle)
  else if negb (bool_decide (typ ∈ map Some (types p))) then
    Some (Sentinel errInvalidTypeForLocation)
  else None.

Definition all3 : list DataType := [DataTypeArray; DataTypeObject; DataTypePrimitive].

Definition styleValidation (style : string) : option paramValidation :=
  if String.eqb style StyleDeepObject then
    Some (mkValidation [DataTypeObject] [LocationQuery])
  else if String.eqb style StyleSpaceDelimited then
    Some (mkValidation [DataTypeArray; DataTypeObject] [LocationQuery])
  else if String.eqb style StylePipeDelimited then
    Some (mkValidation [DataTypeArray; DataTypeObject] [LocationQuery])
  else if String.eqb style StyleSimple then
    Some (mkValidation all3 [LocationPath; LocationHeader])
  else if String.eqb style StyleForm then
    Some (mkValidation all3 [LocationQuery; LocationCookie])
  else if String.eqb style StyleLabel then
    Some (mkValidation all3 [LocationPath])
  else if String.eqb style StyleMatrix then
    Some (mkValidation all3 [LocationPath])
  else None.

Record tags := mkTags {
  explode : string;
  deprecated : string;
  style : string;
  required : string;
  reserved : string;
  minimum : string;
}.

Definition getTags (tag : StructTag) : tags :=
  mkTags (Tag_Get tag "explode") (Tag_Get tag "deprecated") (Tag_Get tag "style")
    (Tag_Get tag "required") (Tag_Get tag "reserved") (Tag_Get tag "minimum").

(** [parse]: the new contents of [*value] and the error. *)
Definition parse {T} (input : string) (value : T) (fn : string -> T * error) : T * error :=
  if String.eqb input "" then (value, None)
  else
    let '(result, e) := fn input in
    match e with
    | Some _ => (value, e)
    | None => (result, None)
    end.

Definition parseBool (input : string) (value : bool) : bool * error :=
  parse input value Strconv.ParseBool.

Definition parseStyle (input : string) (value : string) : string * error :=
  let '(style, e) := parse input "" StyleFromString in
  match e with
  | Some _ => (value, e)
  | None => (style, None)
  end.

Definition wrap (tag : string) (e : error) : error :=
  match e with
  | Some e' => Some (Errorf1 "failed to parse tag %q: %w" e')
  | None => None
  end.

(** [cmp.Or] on errors: the first that is not nil. *)
Fixpoint cmp_Or (es : list error) : error :=
  match es with
  | [] => None
  | Some e :: _ => Some e
  | None :: rest => cmp_Or rest
  end.

Section FromInfo.
(** [strconv.ParseInt(s, 0, 0)], taken as given. *)
Variable strconv_ParseInt0 : string -> Z * error.

Definition parseInt (input : string) (value : option Z) : option Z * error :=
  let '(v, e) := parse input (default 0 value) strconv_ParseInt0 in
  (match value with Some _ => Some v | None => None end, e).

(** [updateFromTags].  The parameter is a pointer in the source, so the
    writes are visible to the caller: the updated parameter is returned
    with the error. *)
Definition updateFromTags (tags : tags) (p : ParameterT) : ParameterT * error :=
  let p := if negb (String.eqb (minimum tags) "") then set_Schema_Minimum (Some 0) p else p in
  let '(v, e1) := parseBool (explode tags) (Explode p) in
  let p := set_Explode v p in
  let '(v, e2) := parseBool (deprecated tags) (Deprecated p) in
  let p := set_Deprecated v p in
  let '(v, e3) := parseBool (required tags) (Required p) in
  let p := set_Required v p in
  let '(v, e4) := parseBool (reserved tags) (AllowReserved p) in
  let p := set_AllowReserved v p in
  let '(v, e5) := parseStyle (style tags) (Style p) in
  let p := set_Style v p in
  let '(v, e6) :=
    parseInt (minimum tags)
      (match Schema p with Some (Spec o) => Minimum o | _ => None end) in
  let p := set_Schema_Minimum v p in
  (p, cmp_Or [wrap "explode" e1; wrap "deprecated" e2; wrap "required" e3;
              wrap "reserved" e4; wrap "style" e5; wrap "minimum" e6]).

Definition setDefaults (p : ParameterT) (tags : tags) : ParameterT * error :=
  let step1 :=
    if String.eqb (Style p) "" then
      let '(defaultStyle, e) := defaultStyle (In p) in
      match e with
      | Some _ => (p, e)
      | None => (set_Style defaultStyle p, None)
      end
    else (p, None) in
  match step1 with
  | (p, Some e) => (p, Some e)
  | (p, None) =>
      let p :=
        if String.eqb (Style p) StyleForm && String.eqb (explode tags) "" then set_Explode true p
        else p in
      let p := if String.eqb (In p) LocationPath then set_Required true p else p in
      (p, None)
  end.

(** [fromInfoError]: a [routey.HandlerError] around an
    [InvalidParamStyleError] around [e]. *)
Definition fromInfoError (e : err) : err := HandlerError (InvalidParamStyle e).

Variable ds : decls.
Variable schemer_of : rtype -> option (list (list string) -> Jsonschema.Schema * list (list string)).
Variable schemerExtended_of :
  rtype -> option (Jsonschema.Schema -> list (list string) -> Jsonschema.Schema * list (list string)).
Variable noRefer : rtype -> bool.

Definition FromInfo (fuel : nat) (info : Param.Info.t) (schemer : Schemer)
  : M (ParameterT * error) :=
  let p := mkParameter (Param.Info.Name info) (Param.Info.Source info)
             false false false false "" None in
  do (schema, e) <- Get ds schemer_of schemerExtended_of noRefer schemer fuel
                      (Some (Param.Info.Typ info));
  match e with
  | Some e' => ret (p, Some (Errorf1 "failed getting schema: %w" e'))
  | None =>
      let infoHasDefault := negb (String.eqb (Param.Info.Default info) "") in
      let schemaHasDefault := bool_decide (is_Some (Default (Schema_ schema))) in
      let schema :=
        if infoHasDefault && negb schemaHasDefault then
          on_Schema (set_Default (Some (Param.Info.Default info))) schema
        else schema in
      do h <- get_heap;
      let dataType := getSchemasDataType h schema in
      let tags := getTags (Tag (Param.Info.Field info)) in
      let p := SetSchema p schema in
      match updateFromTags tags p with
      | (p, Some e') => ret (p, Some (fromInfoError e'))
      | (p, None) =>
          match setDefaults p tags with
          | (p, Some e') => ret (p, Some e')
          | (p, None) =>
              match styleValidation (Style p) with
              | None => ret (p, Some (fromInfoError (Sentinel ErrInvalidStyle)))
              | Some validationRule =>
                  match Validate validationRule (In p) dataType with
                  | Some e' => ret (p, Some (fromInfoError e'))
                  | None => ret (p, None)
                  end
              end
          end
      end
  end.
End FromInfo.

End Openapi3Param.

(** ** package jsonschema: the validator *)

Module Validator.

(** The validation engine, [github.com/santhosh-tekuri/jsonschema/v6],
    is outside the repository.  Its compiler is modelled by the state the
    repository's code can influence, the loader it was given and the
    resources added to it; its functions are the variables of the section
    below. *)
Section Engine.
(** Decoded JSON, compiled schemas, and the engine's validation errors. *)
Variable doc : Type.
Variable compiled : Type.
Variable engineError : Type.

Definition Loader := string -> doc + err.

Record Compiler := mkCompiler {
  loader : Loader;
  resources : list (string * doc);
}.

(** [jsonschema.UnmarshalJSON], the compiler's [AddResource] on the
    resources, its [Compile], which is given the loader and the resources,
    [json.Unmarshal] and the [Validate] of a compiled schema. *)
Variable UnmarshalJSON : string -> doc + err.
Variable AddResource : string -> doc -> list (string * doc) -> list (string * doc) + err.
Variable Compile : Loader -> list (string * doc) -> string -> compiled + err.
Variable json_Unmarshal : string -> doc + err.
Variable Schema_Validate : compiled -> doc -> option (engineError + err).
(** [convertError] reads the engine's error through its accessors. *)
Variable convertError : engineError -> ValidationError.

Record Validator := mkValidator {
  compiler : Compiler;
  schemas : gmap string compiled;
}.

(** [noopLoader.Load] *)
Definition noopLoader_Load (url : string) : doc + err := inr (Sentinel ErrSchemaLoad).

(** [NewValidator]: a compiler that uses [noopLoader]. *)
Definition NewValidator : Validator :=
  mkValidator (mkCompiler noopLoader_Load []) ∅.

(** [compile] *)
Definition compile (c : Validator) (name : string) : Validator * error :=
  match Compile (loader (compiler c)) (resources (compiler c)) name with
  | inr e => (c, Some (Errorf1 "compile(%s): %w" e))
  | inl s => (mkValidator (compiler c) (<[name := s]> (schemas c)), None)
  end.

(** [Add] *)
Definition Add (c : Validator) (name schema : string) : Validator * error :=
  match UnmarshalJSON schema with
  | inr e => (c, Some (Errorf1 "jsonschema.UnmarshalJSON(%s): %w" e))
  | inl s =>
      match AddResource name s (resources (compiler c)) with
      | inr e => (c, Some (Errorf1 "compiler.AddResource(%s): %w" e))
      | inl res =>
          compile (mkValidator (mkCompiler (loader (compiler c)) res) (schemas c)) name
      end
  end.

(** [Validate] *)
Definition Validate (c : Validator) (name : string) (input : string) : error :=
  match schemas c !! name with
  | None => Some (Sentinel ErrSchemaNotFound)
  | Some s =>
      match json_Unmarshal input with
      | inr e => Some e
      | inl v =>
          match Schema_Validate s v with
          | None => None
          | Some (inl verr) => Some (Validation (convertError verr))
          | Some (inr e) => Some (Errorf1 "validate(%s): %w" e)
          end
      end
  end.

(** A validator after a sequence of calls of [Add], each given by its
    name and its schema text, starting from [c]. *)
Fixpoint addAll (c : Validator) (calls : list (string * string)) : Validator :=
  match calls with
  | [] => c
  | (name, schema) :: rest => addAll (fst (Add c name schema)) rest
  end.

(** The calls of [Add] in [calls], run from [c], that returned no error. *)
Fixpoint succeeded (c : Validator) (calls : list (string * string)) : list string :=
  match calls with
  | [] => []
  | (name, schema) :: rest =>
      let '(c', e) := Add c name schema in
      match e with
      | None => name :: succeeded c' rest
      | Some _ => succeeded c' rest
      end
  end.
End Engine.

Arguments mkCompiler {doc}.
Arguments loader {doc}.
Arguments resources {doc}.
Arguments mkValidator {doc compiled}.
Arguments compiler {doc compiled}.
Arguments schemas {doc compiled}.
Arguments noopLoader_Load {doc}.
Arguments NewValidator {doc compiled}.

(** A small engine to run the validator with: a document is the list of
    the references it contains, the text ["{"] is malformed, a reference
    that starts with [#] is local, and any other must be a resource or is
    asked of the loader. *)
Module Toy.
Definition doc := list string.

Definition UnmarshalJSON (text : string) : doc + err :=
  if String.eqb text "{" then inr (ErrorText "unexpected end of JSON input")
  else if String.eqb text "" then inl []
  else inl [text].

Definition AddResource (name : string) (d : doc) (res : list (string * doc))
  : list (string * doc) + err :=
  match assoc_get name res with
  | Some _ => inr (ErrorText "resource exists")
  | None => inl (res ++ [(name, d)])
  end.

Definition isLocal (ref : string) : bool :=
  match ref with
  | String.String c _ => Ascii.eqb c "#"%char
  | EmptyString => true
  end.

Fixpoint resolve (load : string -> doc + err) (res : list (string * doc)) (refs : list string)
  : option err :=
  match refs with
  | [] => None
  | ref :: rest =>
      if isLocal ref then resolve load res rest
      else
        match assoc_get ref res with
        | Some _ => resolve load res rest
        | None =>
            match load ref with
            | inr e => Some e
            | inl _ => resolve load res rest
            end
        end
  end.

Definition Compile (load : string -> doc + err) (res : list (string * doc)) (name : string)
  : doc + err :=
  match assoc_get name res with
  | None => inr (ErrorText "no such resource")
  | Some d =>
      match resolve load res d with
      | Some e => inr e
      | None => inl d
      end
  end.

(** Compiling [name] needs the document at [url], which is not among the
    resources. *)
Definition needs (res : list (string * doc)) (name url : string) : Prop :=
  exists d, assoc_get name res = Some d /\ url ∈ d /\ isLocal url = false
            /\ assoc_get url res = None.
End Toy.

End Validator.

(** ** Example programs *)

Module Examples.
Import Extractor.

Definition QueryInt : rtype := TDefined "Query[int]".

Definition insts : instances := {[ "Query[int]" := (GQuery, TInt K0) ]}.

(** A namer that lower-cases nothing, standing for a configured [Namer]. *)
Definition namer : Param.Namer := fun name _ => name.

(** No type of these programs implements [encoding.TextUnmarshaler]. *)
Definition noUnmarshalText
  : rtype -> option (string -> gvalue -> outcome (gvalue * error)) := fun _ => None.

(** [type input struct { Field routey.Query[int] `default:"1"` }] *)
Definition Field1 : StructField := mkField "Field" QueryInt [("default", "1")] false.
Definition withDefault : decls :=
  {[ "Query[int]" := instance_decl "Query[int]" GQuery (TInt K0);
     "input" := mkDecl "input" (UStruct [Field1]) ]}.

(** [type input struct { Field routey.Query[int] `default:"1."` }] *)
Definition FieldBad : StructField := mkField "Field" QueryInt [("default", "1.")] false.
Definition badDefault : decls :=
  {[ "Query[int]" := instance_decl "Query[int]" GQuery (TInt K0);
     "input" := mkDecl "input" (UStruct [FieldBad]) ]}.

(** [type Inner struct { Value routey.Query[int] }],
    [type Middle struct { In Inner }], [type Outer struct { Mid Middle }] *)
Definition fValue : StructField := mkField "Value" QueryInt [] false.
Definition fIn : StructField := mkField "In" (TDefined "Inner") [] false.
Definition fMid : StructField := mkField "Mid" (TDefined "Middle") [] false.
Definition nested : decls :=
  {[ "Query[int]" := instance_decl "Query[int]" GQuery (TInt K0);
     "Inner" := mkDecl "Inner" (UStruct [fValue]);
     "Middle" := mkDecl "Middle" (UStruct [fIn]);
     "Outer" := mkDecl "Outer" (UStruct [fMid]) ]}.

(** [type Node struct { Next *Node }] *)
Definition Node : rtype := TDefined "Node".
Definition fNext : StructField := mkField "Next" (TPtr Node) [] false.
Definition linked : decls := {[ "Node" := mkDecl "Node" (UStruct [fNext]) ]}.

(** [type Leaf struct { X string }] *)
Definition leaf : decls :=
  {[ "Leaf" := mkDecl "Leaf" (UStruct [mkField "X" TString [] false]) ]}.

(** A request [GET /], without a query string. *)
Definition GET_root : Request := mkRequest ∅ None 0.

(** The options [Handler] compiles the extractor with, for a router whose
    parser is [ParseInt]. *)
Definition opts : extractorForOpts :=
  mkOpts namer (Some Param.ParseInt) (fun _ _ => "") false.

Definition noExtractor : rtype -> option (Request -> gvalue -> outcome (gvalue * error)) :=
  fun _ => None.
Definition noRegistered : rtype -> option (Request -> outcome (gvalue * error)) :=
  fun _ => None.

(** No type of these programs supplies or extends its schema. *)
Definition noSchemer
  : rtype -> option (list (list string) -> Jsonschema.Schema * list (list string)) :=
  fun _ => None.
Definition noExtend
  : rtype -> option (Jsonschema.Schema -> list (list string)
                     -> Jsonschema.Schema * list (list string)) :=
  fun _ => None.

End Examples.


(** ** package strings (Go standard library), on byte strings *)

Module Strings.

(** [strings.Join(elems, sep)] *)
Fixpoint Join (elems : list string) (sep : string) : string :=
  match elems with
  | [] => ""
  | [e] => e
  | e :: rest => e +:+ sep +:+ Join rest sep
  end.

(** [strings.Split(s, sep)] for a separator of one byte. *)
Fixpoint Split (s : string) (sep : ascii) : list string :=
  match s with
  | EmptyString => [""]
  | String.String c rest =>
      if Ascii.eqb c sep then "" :: Split rest sep
      else
        match Split rest sep with
        | head :: tail => String.String c head :: tail
        | [] => [String.String c ""]
        end
  end.

(** [strings.TrimLeft(s, cutset)] and [strings.TrimRight(s, cutset)] for a
    cutset of one byte. *)
Fixpoint TrimLeft (s : string) (cut : ascii) : string :=
  match s with
  | EmptyString => ""
  | String.String c rest => if Ascii.eqb c cut then TrimLeft rest cut else s
  end.

Fixpoint TrimRight (s : string) (cut : ascii) : string :=
  match s with
  | EmptyString => ""
  | String.String c rest =>
      match TrimRight rest cut with
      | EmptyString => if Ascii.eqb c cut then "" else String.String c ""
      | rest' => String.String c rest'
      end
  end.

End Strings.

(** ** package internal/stringz *)

Module Stringz.

(** [unicode.IsUpper(rune(b))] for a byte [b]: the upper case letters of
    Latin-1. *)
Definition IsUpper (b : ascii) : bool :=
  let n := Z.of_nat (Ascii.nat_of_ascii b) in
  ((65 <=? n) && (n <=? 90)) || ((192 <=? n) && (n <=? 214)) || ((216 <=? n) && (n <=? 222)).

(** The loop of [SplitByCapitals]: [prev] is [s[i-1]], [chunk] is
    [s[start:i]] and [rest] is [s[i:]]. *)
Fixpoint splitLoop (prev : ascii) (chunk : string) (rest : string) : list string :=
  match rest with
  | EmptyString => [chunk]
  | String.String c rest' =>
      if IsUpper c && negb (IsUpper prev) then chunk :: splitLoop c (String.String c "") rest'
      else splitLoop c (chunk +:+ String.String c "") rest'
  end.

Definition SplitByCapitals (s : string) : list string :=
  match s with
  | EmptyString => []
  | String.String c rest => splitLoop c (String.String c "") rest
  end.

(** [PrefixBorder] *)
Definition PrefixBorder (prefix s : string) : string :=
  Strings.Join (map (fun line => prefix +:+ line) (Strings.Split s "010"%char)) (String.String "010"%char "").

(** [calculateMaxWidth], with [len] of a string as a number. *)
Definition calculateMaxWidth (columnName : string) (stringData : list string) (minWidth : Z)
  : Z :=
  let maxWidth :=
    fold_left (fun maxWidth item =>
                 if Z.of_nat (String.length item) >? maxWidth
                 then Z.of_nat (String.length item) else maxWidth)
      stringData (Z.of_nat (String.length columnName)) in
  if maxWidth <? minWidth then minWidth else maxWidth.

End Stringz.

(** ** package param: the default namer *)

Module Namer.
Section ToLower.
(** [strings.ToLower], taken as given. *)
Variable strings_ToLower : string -> string.

(** [NamerCapitals] *)
Definition NamerCapitals (name : string) (_ : string) : string :=
  Strings.Join (map strings_ToLower (Stringz.SplitByCapitals name)) "_".
End ToLower.
End Namer.

(** ** package routey: the router's bookkeeping *)

Module Router.

(** [joinPatterns] *)
Definition joinPatterns (prefix pattern : string) : string :=
  if String.eqb prefix "" then pattern
  else if String.eqb pattern "/" then Strings.TrimRight prefix "/"%char
  else
    let prefix := Strings.TrimRight prefix "/"%char in
    let pattern := Strings.TrimLeft pattern "/"%char in
    if String.eqb pattern "" then prefix
    else prefix +:+ "/" +:+ pattern.

Section Middleware.
(** [http.Handler], as any type of handlers. *)
Variable Handler : Type.

Definition Middleware := Handler -> Handler.

(** [applyMiddleware]: the loop goes through [mw] backwards. *)
Definition applyMiddleware (h : Handler) (mw : list Middleware) : Handler :=
  fold_left (fun h m => m h) (rev mw) h.

(** What [Router.Handle] registers with the mux for a handler. *)
Definition Handle_wrap (global route : list Middleware) (handler : Handler) : Handler :=
  applyMiddleware (applyMiddleware handler route) global.
End Middleware.

(** The fields of [route.Info] the bookkeeping reads, and the parameters
    it carries along. *)
Record Info := mkInfo {
  Method : string;
  FullPattern : string;
  Pattern : string;
  Params : list Param.Info.t;
}.

(** [sharedRoutes]: the routes, the last registered last.  A route is
    referred to by pointer in the source; [Last] and the result of
    [getOrAddRouteInfo] are the last route of the list. *)
Definition sharedRoutes := list Info.

Definition Append (sb : sharedRoutes) (infos : list Info) : sharedRoutes := sb ++ infos.

Definition Last (sb : sharedRoutes) : option Info := last sb.

Definition Pop (sb : sharedRoutes) : sharedRoutes * option Info :=
  match last sb with
  | Some l => (take (length sb - 1) sb, Some l)
  | None => (sb, None)
  end.

(** [getOrAddRouteInfo]: the routes afterwards; the route it returns is
    their last. *)
Definition getOrAddRouteInfo (sb : sharedRoutes) (i : Info) : sharedRoutes :=
  match Last sb with
  | Some l =>
      let needsInfo :=
        negb (String.eqb (Method l) (Method i))
        || negb (String.eqb (FullPattern l) (FullPattern i)) in
      if negb needsInfo then sb else Append sb [i]
  | None => Append sb [i]
  end.

End Router.

(** ** package jsonschema: schemas registered by hand *)

Module SchemerOps.
Import Jsonschema.

(** [type Option func(Schema) Schema], [NoRef] and [Name] *)
Definition Option := Schema -> Schema.
Definition NoRef : Option := fun s => set_noRef true s.
Definition Name (name : string) : Option := fun s => set_name name s.

Section Ops.
Variable s : Schemer.

(** [Has], for an [obj] of type [typ]. *)
Definition Has (typ : rtype) : M bool :=
  do m <- get_types;
  ret (bool_decide (is_Some (types_get typ m))).

(** [Set], for an [obj] of type [typ]. *)
Definition Set_ (typ : rtype) (schema : Schema) (options : list Option) : M Schema :=
  let schema := fold_left (fun schema option => option schema) options schema in
  let schema :=
    if String.eqb (name schema) "" then set_name (GetTypeName s typ) schema else schema in
  do m <- get_types;
  do _ <- put_types (types_set typ schema m);
  ret schema.

(** The loop of [GetSchemaByRef] over the map [types]; the order of the
    list stands for the order in which the map happens to be ranged
    over. *)
Fixpoint findRef (wantRef : string) (m : list (rtype * Schema)) : option Schema :=
  match m with
  | [] => None
  | (_, schema) :: rest =>
      if String.eqb (NewRef s (name schema)) wantRef then Some schema
      else findRef wantRef rest
  end.

Definition GetSchemaByRef (wantRef : string) : M (Schema * bool) :=
  do m <- get_types;
  ret (match findRef wantRef m with
       | Some schema => (schema, true)
       | None => (New, false)
       end).
End Ops.
End SchemerOps.

(** ** package jsonschema: the errors of a validation *)

Module ValidationErrors.

(** The engine's [ValidationError], by what the conversion reads of it:
    the instance location, the text of [BasicOutput().Error] and the
    causes. *)
Inductive EngineError :=
| mkEngineError (InstanceLocation : list string) (ErrorString : string)
    (Causes : list EngineError).

Definition EngineCauses (e : EngineError) : list EngineError :=
  match e with mkEngineError _ _ causes => causes end.

(** [validationErrToErrorDetail] *)
Fixpoint validationErrToErrorDetail (verr : EngineError) : list ValidationError :=
  match verr with
  | mkEngineError loc text causes =>
      (match causes with
       | [] => [mkValidationError [] text ("/" +:+ Strings.Join loc "/")]
       | _ => []
       end)
      ++ (fix each (cs : list EngineError) : list ValidationError :=
            match cs with
            | [] => []
            | c :: cs' => validationErrToErrorDetail c ++ each cs'
            end) causes
  end.

(** [convertError] *)
Definition convertError (e : EngineError) : ValidationError :=
  let causes := validationErrToErrorDetail e in
  match e with
  | mkEngineError loc text _ =>
      if bool_decide (length causes = 0%nat) then
        mkValidationError causes text ("/" +:+ Strings.Join loc "/")
      else mkValidationError causes "" ""
  end.

End ValidationErrors.

(** ** package openapi3: query parameters *)

Module Openapi3Query.
Import Jsonschema.

(** [parseable]; the parser writes to [value], which is returned with
    the answer. *)
Definition parseable (parser : option Param.Parser) (value : gvalue)
  : outcome (gvalue * bool) :=
  obind (Param.call parser value [""]) (fun '(value, e) =>
    Ret (value, negb (errors_Is e ErrInvalidParamType))).

(** [getDefaultValue].  A default of the schema is a string or is not
    set, in which case [fmt.Sprintf] renders the nil; a property that is
    a reference has no [Spec] to read the default from. *)
Definition getDefaultValue (f : StructField) (schema : Schema) : outcome string :=
  let def := Tag_Get (Tag f) "default" in
  if negb (String.eqb def "") then Ret def
  else
    let fieldName := JSONFieldName f in
    match assoc_get fieldName (default [] (Properties (Schema_ schema))) with
    | Some (Spec o) =>
        Ret (match Default o with
             | Some s => s
             | None => "<nil>"
             end)
    | Some (Ref _) => Panic "invalid memory address or nil pointer dereference"
    | None => Ret ""
    end.

Section DeepObject.
Variable ds : decls.
Variable schemer_of : rtype -> option (list (list string) -> Schema * list (list string)).
Variable schemerExtended_of :
  rtype -> option (Schema -> list (list string) -> Schema * list (list string)).
Variable noRefer : rtype -> bool.
(** [f.IsExported()] and the [Error] method of an error value, taken as
    given. *)
Variable IsExported : StructField -> bool.
Variable Error : err -> string.

(** The loop of [validDeepObjectType] over the fields. *)
Fixpoint deepFields (parser : option Param.Parser) (typ : rtype) (schema : Schema)
    (fields : list StructField) : outcome error :=
  match fields with
  | [] => Ret None
  | f :: rest =>
      if negb (IsExported f) then
        Ret (Some (InvalidParam
          (mkInvalidParamError typ f None "" "field is not exported" true)))
      else
        match parseable parser (zero (Typ f)) with
        | Panic m => Panic m
        | Ret (value, false) =>
            Ret (Some (InvalidParam (mkInvalidParamError typ f None "" "" false)))
        | Ret (value, true) =>
            match getDefaultValue f schema with
            | Panic m => Panic m
            | Ret defaultValue =>
                if negb (String.eqb defaultValue "") then
                  match Param.call parser value [defaultValue] with
                  | Panic m => Panic m
                  | Ret (_, Some e) =>
                      Ret (Some (InvalidParam
                        (mkInvalidParamError typ f None
                           (Param.ErrUnparsableDefault +:+ ": " +:+ defaultValue)
                           (Error e) false)))
                  | Ret (_, None) => deepFields parser typ schema rest
                  end
                else deepFields parser typ schema rest
            end
        end
  end.

(** [validDeepObjectType]; the schema comes from a new [Schemer]. *)
Definition validDeepObjectType (fuel : nat) (parser : option Param.Parser) (typ : rtype)
  : option (outcome error) :=
  let typ := if bool_decide (Kind_of ds typ = kPointer) then Elem ds typ else typ in
  if negb (bool_decide (Kind_of ds typ = kStruct)) then
    Some (Ret (Some (Sentinel ErrInvalidParamType)))
  else
    match Get ds schemer_of schemerExtended_of noRefer (NewSchemer ds) fuel (Some typ)
            empty_store with
    | None => None
    | Some (Panic m) => Some (Panic m)
    | Some (Ret ((_, Some e), _)) =>
        Some (Ret (Some (Errorf1 "error getting schema for deepObject(%s): %w" e)))
    | Some (Ret ((schema, None), _)) => Some (deepFields parser typ schema (Fields ds typ))
    end.

End DeepObject.

(** [func (q *Query[T]) parseForm] *)
Definition parseForm (T : rtype) (values : gmap string (list string))
    (opts : Extractor.Opts) (p : Openapi3Param.ParameterT) (q : gvalue)
  : outcome (gvalue * error) :=
  let params := default [] (values !! Param.Opts.Name opts) in
  let params :=
    if negb (Openapi3Param.Explode p) && bool_decide (0 < length params)%nat then
      Strings.Split (hd "" params) ","
    else params in
  obind (Param.Opts.Parse opts (getField q (Extractor.Value T)) params) (fun '(v, e) =>
    let q := setField q (Extractor.Value T) v in
    match e with
    | Some e' => Ret (q, Some (Errorf2 "%w: %w" (Sentinel ErrParamFailedToExtract) e'))
    | None => Ret (q, None)
    end).

End Openapi3Query.

(** ** Example parameters *)

Module ParamExamples.
Import Jsonschema.

(** A field [Limit routey.Query[int]] with the tags [default:"10"] and
    [deprecated:"true"], as the walker describes it. *)
Definition limitInfo : Param.Info.t :=
  Param.Info.mk "limit" "query" "10" (TInt K0)
    (mkField "Limit" (TDefined "Query[int]") [("default", "10"); ("deprecated", "true")] false)
    (TDefined "input") [].

(** The parameter [FromInfo] makes of it, and the store afterwards. *)
Definition limitParam : Openapi3Param.ParameterT :=
  Openapi3Param.mkParameter "limit" "query" false true true false "form"
    (Some (Spec (mkOSchema (Some 0%nat) "" None (Some "10") "" None [] None None []))).

Definition limitStore : store := mkStore [] [["integer"]].

(** The body of a request, described by the walker: a field
    [Body routey.JSON[string]] without tags. *)
Definition bodyInfo : Param.Info.t :=
  Param.Info.mk "body" "body" "" TString
    (mkField "Body" (TDefined "JSON[string]") [] false) (TDefined "input") [].

(** A stand-in for [strconv.ParseInt(s, 0, 0)] where no [minimum] tag is
    read. *)
Definition noParseInt0 : string -> Z * error := fun _ => (0, None).

End ParamExamples.

(** ** Example deep objects *)

Module DeepExamples.

(** [type Page struct { N int }] *)
Definition fN : StructField := mkField "N" (TInt K0) [] false.
Definition page : decls := {[ "Page" := mkDecl "Page" (UStruct [fN]) ]}.

(** [type Stamp struct { Sec string }], which has an [UnmarshalText]
    method, and [type Span struct { From Stamp }]. *)
Definition fFrom : StructField := mkField "From" (TDefined "Stamp") [] false.
Definition span : decls :=
  {[ "Stamp" := mkDecl "Stamp" (UStruct [mkField "Sec" TString [] false]);
     "Span" := mkDecl "Span" (UStruct [fFrom]) ]}.

Definition stampUnmarshalText
  : rtype -> option (string -> gvalue -> outcome (gvalue * error)) :=
  fun t => if bool_decide (t = TDefined "Stamp") then Some (fun _ v => Ret (v, None)) else None.

(** Every field of these structs is exported. *)
Definition exported : StructField -> bool := fun _ => true.

End DeepExamples.

(** ** Notions used in the statements *)

(** Running the parsers of [ps] in order from [value], all of which
    return the sentinel: the value they leave behind. *)
Fixpoint allSentinel (ps : list Param.Parser) (value : gvalue) (params : list string)
  : option gvalue :=
  match ps with
  | [] => Some value
  | p :: rest =>
      match p value params with
      | Ret (value', e) =>
          if errors_Is e ErrInvalidParamType then allSentinel rest value' params else None
      | Panic _ => None
      end
  end.

(** [enclosed ds sourcer T path S]: from the struct type [T], the fields
    [path], each a struct that is not itself a parameter, lead to the
    struct type [S]; [path] starts with the field of [T], the outermost. *)
Inductive enclosed (ds : decls) (sourcer : rtype -> option string)
  : rtype -> list StructField -> rtype -> Prop :=
| enclosed_here T : enclosed ds sourcer T [] T
| enclosed_step T f path S :
  f ∈ Fields ds T ->
  method sourcer (TPtr (Typ f)) = None ->
  Kind_of ds (Typ f) = kStruct ->
  enclosed ds sourcer (Typ f) path S ->
  enclosed ds sourcer T (f :: path) S.

(** What the walker guarantees of an [Info] found while walking [T]: its
    [ParentFields] are the enclosing fields, the innermost first. *)
Definition parentsOK (ds : decls) (sourcer : rtype -> option string) (T : rtype)
    (info : Param.Info.t) : Prop :=
  exists path,
    enclosed ds sourcer T path (Param.Info.Struct info)
    /\ Param.Info.ParentFields info = rev path
    /\ Param.Info.Field info ∈ Fields ds (Param.Info.Struct info).

(** The type name, the format and the minimum of the schema of a
    primitive kind, as the amended C5 lists them. *)
Definition primitiveSchema (k : Kind) : option (string * string * option Z) :=
  match k with
  | kBool => Some ("boolean", "", None)
  | kString => Some ("string", "", None)
  | kInt K32 => Some ("integer", "int32", None)
  | kInt K64 => Some ("integer", "int64", None)
  | kInt _ => Some ("integer", "", None)
  | kUint K32 => Some ("integer", "int32", Some 0)
  | kUint K64 => Some ("integer", "int64", Some 0)
  | kUint _ => Some ("integer", "", Some 0)
  | kFloat _ => Some ("number", "float", None)
  | _ => None
  end.

(** A schema that contains a reference which cannot be resolved locally:
    with the resources [res], compiling [name] succeeds only if the loader
    provides the document at [url]. *)
Definition needsRemote {doc compiled : Type}
    (Compile : Validator.Loader doc -> list (string * doc) -> string -> compiled + err)
    (res : list (string * doc)) (name url : string) : Prop :=
  forall load : Validator.Loader doc,
    (exists e, load url = inr e) -> exists e', Compile load res name = inr e'.

(** Whether [s], read after the byte [prev], has an upper case byte right
    after a byte that is not upper case. *)
Fixpoint breaksAfter (prev : ascii) (s : string) : bool :=
  match s with
  | EmptyString => false
  | String.String c r => (Stringz.IsUpper c && negb (Stringz.IsUpper prev)) || breaksAfter c r
  end.

Definition hasBreak (s : string) : bool :=
  match s with
  | EmptyString => false
  | String.String c r => breaksAfter c r
  end.

(** The last byte of [s], or [d] for the empty string. *)
Fixpoint lastByte (d : ascii) (s : string) : ascii :=
  match s with
  | EmptyString => d
  | String.String c r => lastByte c r
  end.

Definition startsUpper (s : string) : bool :=
  match s with
  | EmptyString => false
  | String.String c _ => Stringz.IsUpper c
  end.

(** Whether the byte [c] occurs in [s]. *)
Fixpoint contains (c : ascii) (s : string) : bool :=
  match s with
  | EmptyString => false
  | String.String a r => Ascii.eqb a c || contains c r
  end.

Definition startsSlash (s : string) : bool :=
  match s with
  | EmptyString => false
  | String.String a _ => Ascii.eqb a "/"
  end.

Fixpoint endsSlash (s : string) : bool :=
  match s with
  | EmptyString => false
  | String.String a EmptyString => Ascii.eqb a "/"
  | String.String _ r => endsSlash r
  end.

(** Whether [s] has two slashes in a row. *)
Fixpoint doubleSlash (s : string) : bool :=
  match s with
  | EmptyString => false
  | String.String a r => (Ascii.eqb a "/" && startsSlash r) || doubleSlash r
  end.

(** The errors an extractor's result stands for: those it joins, or none. *)
Definition errsOf (e : error) : list err :=
  match e with
  | None => []
  | Some (Join es) => es
  | Some x => [x]
  end.

(** The error for a list of errors: none, or their [errors.Join]. *)
Definition joinAll (es : list err) : error :=
  match es with
  | [] => None
  | _ => Some (Join es)
  end.

(** What the walker guarantees of every [Info], at any depth: the source is
    that of the field's type, the default is the field's [default] tag and
    the name is the one [NameFromField] gives. *)
Definition infoOK (sourcer : rtype -> option string) (namer : Param.Namer)
    (info : Param.Info.t) : Prop :=
  method sourcer (TPtr (Typ (Param.Info.Field info))) = Some (Param.Info.Source info)
  /\ Param.Info.Default info = Tag_Get (Tag (Param.Info.Field info)) "default"
  /\ Param.Info.Name info
     = Param.NameFromField (Param.Info.Field info) namer (Param.Info.Source info).

(** [n] pointers to [t]: the type written with [n] stars before [t]. *)
Definition pointers (n : nat) (t : rtype) : rtype := Nat.iter n TPtr t.

(** The names of the properties of a schema. *)
Definition propertyNames (schema : Jsonschema.Schema) : list string :=
  map fst (default [] (Jsonschema.Properties (Jsonschema.Schema_ schema))).

(** What the schema of a struct holds once the fields [done] have been
    added to it: a property for each field that has a JSON name and no
    other property, every required name among the properties, and the
    required names as [DefaultStructRequire] has them. *)
Definition propertiesOK (ds : decls) (s : Jsonschema.Schemer) (done : list StructField)
    (schema : Jsonschema.Schema) : Prop :=
  is_Some (Jsonschema.Properties (Jsonschema.Schema_ schema))
  /\ (forall f, f ∈ done -> Jsonschema.JSONFieldName f <> "" ->
      Jsonschema.JSONFieldName f ∈ propertyNames schema)
  /\ (forall k, k ∈ propertyNames schema ->
      k <> "" /\ exists f, f ∈ done /\ Jsonschema.JSONFieldName f = k)
  /\ (forall n, n ∈ Jsonschema.Required (Jsonschema.Schema_ schema) ->
      n ∈ propertyNames schema)
  /\ (Jsonschema.DefaultStructRequire s = false ->
      Jsonschema.Required (Jsonschema.Schema_ schema) = [])
  /\ (Jsonschema.DefaultStructRequire s = true ->
      forall f, f ∈ done -> Jsonschema.JSONFieldName f <> "" ->
                Kind_of ds (Typ f) <> kPointer ->
                Jsonschema.JSONFieldName f ∈ Jsonschema.Required (Jsonschema.Schema_ schema)).

(** The value a boolean tag stands for: false when the tag is absent. *)
Definition tagBool (tag : string) : bool :=
  if String.eqb tag "" then false else fst (Strconv.ParseBool tag).

(** The fields of a [ValidationError]. *)
Definition ve_Causes (v : ValidationError) : list ValidationError :=
  match v with mkValidationError causes _ _ => causes end.
Definition ve_Message (v : ValidationError) : string :=
  match v with mkValidationError _ message _ => message end.
Definition ve_Location (v : ValidationError) : string :=
  match v with mkValidationError _ _ location => location end.

(** The errors without causes in the tree of an engine error, from left to
    right. *)
Fixpoint leaves (e : ValidationErrors.EngineError) : list ValidationErrors.EngineError :=
  match e with
  | ValidationErrors.mkEngineError loc text causes =>
      match causes with
      | [] => [e]
      | _ =>
          (fix each (cs : list ValidationErrors.EngineError) :=
             match cs with
             | [] => []
             | c :: cs' => leaves c ++ each cs'
             end) causes
      end
  end.

(** The detail [validationErrToErrorDetail] makes of an error without
    causes. *)
Definition leafDetail (e : ValidationErrors.EngineError) : ValidationError :=
  match e with
  | ValidationErrors.mkEngineError loc text _ =>
      mkValidationError [] text ("/" +:+ Strings.Join loc "/")
  end.

(** * Properties *)

(** ** The parser chain *)

Lemma loop_cons_err (e0 e1 : error) p (ps : list Param.Parser) value params :
  Param.Parsers.loop e0 (p :: ps) value params = Param.Parsers.loop e1 (p :: ps) value params.
Proof. reflexivity. Qed.

Lemma loop_app (e0 : error) (before after : list Param.Parser) value params v1 :
  allSentinel before value params = Some v1 ->
  exists e1, Param.Parsers.loop e0 (before ++ after) value params
             = Param.Parsers.loop e1 after v1 params
             /\ (before = [] -> e1 = e0)
             /\ (before <> [] -> errors_Is e1 ErrInvalidParamType = true).
Proof.
  revert e0 value. induction before as [|p before IH]; intros e0 value H; simpl in *.
  - injection H as <-. exists e0. split; [reflexivity|]. split; [auto|congruence].
  - destruct (p value params) as [[v' e]|m] eqn:Hp; [|discriminate].
    destruct (errors_Is e ErrInvalidParamType) eqn:He; [|discriminate].
    simpl. destruct (IH e v' H) as (e1 & Heq & Hnil & Hcons).
    exists e1. split; [exact Heq|]. split; [discriminate|].
    intros _. destruct before; [rewrite Hnil by reflexivity; exact He | apply Hcons; discriminate].
Qed.

Lemma loop_nested (e0 : error) q (qs after : list Param.Parser) value params :
  Param.Parsers.loop e0 (Param.Parsers.Parse (q :: qs) :: after) value params
  = Param.Parsers.loop e0 ((q :: qs) ++ after) value params.
Proof.
  cbn [Param.Parsers.loop]. unfold Param.Parsers.Parse.
  revert e0 q value. induction qs as [|q' qs IH]; intros e0 q value.
  - simpl. destruct (q value params) as [[v e]|m]; [|reflexivity].
    destruct (errors_Is e ErrInvalidParamType) eqn:He; simpl; rewrite ?He; reflexivity.
  - change ((q :: q' :: qs) ++ after) with (q :: ((q' :: qs) ++ after)).
    cbn [Param.Parsers.loop].
    destruct (q value params) as [[v e]|m]; [|reflexivity].
    destruct (errors_Is e ErrInvalidParamType) eqn:He; simpl negb; cbv iota.
    + exact (IH e q' v).
    + simpl. rewrite He. reflexivity.
Qed.

(** C3.  The fallback law of a chain [p1, ..., pn].  (1) When the parsers
    before [p] all return the sentinel and [p] returns a result that is
    not the sentinel (success or an error), [Parse] returns that result,
    whatever parsers follow [p]: they are not run.  (2) When every parser
    of the chain returns the sentinel, [Parse] returns the result of the
    last one, which is the sentinel.  (3) A chain used as an element of
    another chain behaves as its parsers written in its place. *)
Theorem C3_parser_chain_fallback :
  (forall before p after value params v1 v2 e,
      allSentinel before value params = Some v1 ->
      p v1 params = Ret (v2, e) ->
      errors_Is e ErrInvalidParamType = false ->
      Param.Parsers.Parse (before ++ p :: after) value params = Ret (v2, e))
  /\ (forall before p value params v1 v2 e,
      allSentinel before value params = Some v1 ->
      p v1 params = Ret (v2, e) ->
      errors_Is e ErrInvalidParamType = true ->
      Param.Parsers.Parse (before ++ [p]) value params = Ret (v2, e))
  /\ (forall before q qs after value params,
      Param.Parsers.Parse (before ++ Param.Parsers.Parse (q :: qs) :: after) value params
      = Param.Parsers.Parse (before ++ (q :: qs) ++ after) value params).
Proof.
  split; [|split].
  - intros before p after value params v1 v2 e Hb Hp He.
    unfold Param.Parsers.Parse.
    destruct (loop_app None before (p :: after) value params v1 Hb) as (e1 & -> & _).
    simpl. rewrite Hp, He. reflexivity.
  - intros before p value params v1 v2 e Hb Hp He.
    unfold Param.Parsers.Parse.
    destruct (loop_app None before [p] value params v1 Hb) as (e1 & -> & _).
    simpl. rewrite Hp, He. reflexivity.
  - intros before q qs after value params. unfold Param.Parsers.Parse at 1 3.
    revert value. generalize (@None err).
    induction before as [|b before IH]; intros e0 value.
    + apply loop_nested.
    + simpl. destruct (b value params) as [[v e]|m]; [|reflexivity].
      destruct (errors_Is e ErrInvalidParamType); simpl; [apply IH | reflexivity].
Qed.

(** An instance of the fallback law: in the chain [ParseInt, ParseString,
    ParseBool] on a string target, [ParseInt] returns the sentinel,
    [ParseString] succeeds, and [ParseBool] is not run. *)
Lemma C3_parser_chain_fallback_witness :
  Param.Parsers.Parse [Param.ParseInt; Param.ParseString; Param.ParseBool]
    (VString "") ["x"] = Ret (VString "x", None).
Proof.
  apply (proj1 C3_parser_chain_fallback [Param.ParseInt] Param.ParseString [Param.ParseBool]
           (VString "") ["x"] (VString "") (VString "x") None);
    reflexivity.
Defined.

(** The empty chain is the one case outside the law: it returns nil. *)
Lemma Parse_nil value params : Param.Parsers.Parse [] value params = Ret (value, None).
Proof. reflexivity. Qed.

(** ** The built-in parsers and the first raw value *)

(** C10, as stated, fails for [ParseBool]: on a target that is not a
    [*bool] it returns the sentinel without reading the slice, so an empty
    slice does not make it panic. *)
Lemma C10_counterexample_ParseBool_empty :
  Param.ParseBool (VInt K0 0) [] = Ret (VInt K0 0, Some (Sentinel ErrInvalidParamType))
  /\ Param.ParseBool (VInt K0 0) [] <> Panic Param.index_panic.
Proof. split; [reflexivity | discriminate]. Qed.

(** C10, amended.  (1) [ParseInt], [ParseUint] and [ParseFloat] read the
    first raw value before they look at the target: on an empty slice
    they panic, whatever the target.  (2) [ParseBool], [ParseString] and
    [ParseTextUnmarshaller] read it only when the target is of their
    type: on an empty slice they panic for such a target and return the
    sentinel, leaving the target as it is, for any other.  (3) On a slice
    that is not empty the five parsers that call no user code return, and
    [ParseTextUnmarshaller] either returns the sentinel or is the
    target's [UnmarshalText] on the first value.  (4) [Opts.Parse] with an
    empty slice and no default returns nil and leaves the target
    unchanged, and (5) it calls its parser only on a slice that is not
    empty. *)
Theorem C10_first_raw_value :
  forall (parseFloat : string -> Z -> spec_float * error)
         (UnmarshalText : rtype -> option (string -> gvalue -> outcome (gvalue * error))),
  (forall value,
      Param.ParseInt value [] = Panic Param.index_panic
      /\ Param.ParseUint value [] = Panic Param.index_panic
      /\ Param.ParseFloat parseFloat value [] = Panic Param.index_panic)
  /\ (forall value,
      Param.ParseBool value []
      = match value with
        | VBool _ => Panic Param.index_panic
        | _ => Ret (value, Some (Sentinel ErrInvalidParamType))
        end
      /\ Param.ParseString value []
         = match value with
           | VString _ => Panic Param.index_panic
           | _ => Ret (value, Some (Sentinel ErrInvalidParamType))
           end
      /\ Param.ParseTextUnmarshaller UnmarshalText value []
         = match UnmarshalText (typeof value) with
           | Some _ => Panic Param.index_panic
           | None => Ret (value, Some (Sentinel ErrInvalidParamType))
           end)
  /\ (forall value param rest,
      (exists r, Param.ParseInt value (param :: rest) = Ret r)
      /\ (exists r, Param.ParseUint value (param :: rest) = Ret r)
      /\ (exists r, Param.ParseFloat parseFloat value (param :: rest) = Ret r)
      /\ (exists r, Param.ParseBool value (param :: rest) = Ret r)
      /\ (exists r, Param.ParseString value (param :: rest) = Ret r)
      /\ Param.ParseTextUnmarshaller UnmarshalText value (param :: rest)
         = match UnmarshalText (typeof value) with
           | Some unmarshal => unmarshal param value
           | None => Ret (value, Some (Sentinel ErrInvalidParamType))
           end)
  /\ (forall (Request : Type) name parser pathValue value,
      Param.Opts.Parse (@Param.Opts.mk Request name "" parser pathValue) value []
      = Ret (value, None))
  /\ (forall (Request : Type) (o : Param.Opts.t Request) value params,
      Param.Opts.Parse o value params = Ret (value, None)
      \/ exists param rest,
           Param.Opts.Parse o value params
           = Param.call (Param.Opts.Parser o) value (param :: rest)).
Proof.
  intros parseFloat UnmarshalText.
  split; [|split; [|split; [|split]]].
  - intros value. repeat split; reflexivity.
  - intros value. split; [|split].
    + unfold Param.ParseBool. destruct value; reflexivity.
    + unfold Param.ParseString. destruct value; reflexivity.
    + unfold Param.ParseTextUnmarshaller.
      destruct (UnmarshalText (typeof value)); reflexivity.
  - intros value param rest. split; [|split; [|split; [|split; [|split]]]].
    + unfold Param.ParseInt. destruct value; try (eexists; reflexivity).
      destruct (Strconv.ParseInt param (bitSize k)). eexists; reflexivity.
    + unfold Param.ParseUint. destruct value; try (eexists; reflexivity).
      destruct (Strconv.ParseUint param (bitSize k)). eexists; reflexivity.
    + unfold Param.ParseFloat. destruct value; try (eexists; reflexivity).
      destruct k; [destruct (parseFloat param 32) | destruct (parseFloat param 64)];
        eexists; reflexivity.
    + unfold Param.ParseBool. destruct value; try (eexists; reflexivity).
      destruct (Strconv.ParseBool param). eexists; reflexivity.
    + unfold Param.ParseString. destruct value; eexists; reflexivity.
    + unfold Param.ParseTextUnmarshaller.
      destruct (UnmarshalText (typeof value)); reflexivity.
  - intros Request name parser pathValue value. reflexivity.
  - intros Request o value params. unfold Param.Opts.Parse.
    destruct params as [|param rest]; simpl.
    + destruct (String.eqb (Param.Opts.Default o) ""); simpl; [left; reflexivity|].
      right. eexists _, _. reflexivity.
    + right. eexists _, _. reflexivity.
Qed.

(** ** The compiled extractor and the default tag *)

(** [Query[T].Extract] does use the default it is given: with the options
    of the test [TestQueryExtractor_DefaultValue] and a request without a
    query string the value is the parsed default. *)
Lemma Query_Extract_uses_Default :
  Extractor.Query_Extract (TInt K0) Examples.GET_root
    (Param.Opts.mk "query" "1" (Some Param.ParseInt) (fun _ _ => ""))
    (zero Examples.QueryInt)
  = Ret (VObj "Query[int]" [("Value", VInt K0 1)], None).
Proof. vm_compute. reflexivity. Qed.

(** The step [extractParamExtractor] compiles for a field calls [Extract]
    with an empty [Default], whatever the field's tags are. *)
Lemma extractParamExtractor_Default
    (ParamExtractor_of : rtype -> option (string * (Extractor.Request -> Extractor.Opts
                            -> gvalue -> outcome (gvalue * error))))
    field opts source Extract :
  method ParamExtractor_of (TPtr (Typ field)) = Some (source, Extract) ->
  Extractor.extractParamExtractor ParamExtractor_of field opts
  = Some (fun r argBase =>
      obind (Extract r
               (Param.Opts.mk (Param.NameFromField field (Extractor.Namer opts) source) ""
                  (Extractor.Parser opts) (Extractor.Pather opts))
               (getField argBase field))
        (fun '(v, e) => Ret (setField argBase field v, e))).
Proof. intros H. unfold Extractor.extractParamExtractor. rewrite H. reflexivity. Qed.

(** C2, on the code.  For [struct { Field routey.Query[int] `default:"1"` }]
    the extractor compiles, and on [GET /] it returns no error and leaves
    [Field.Value] at 0: the default of the tag is not applied. *)
Theorem C2_default_tag_not_applied :
  exists extractInputs,
    Extractor.extractorFor Examples.withDefault Examples.noExtractor
      (Extractor.ParamExtractor_of Examples.insts) Examples.noRegistered
      2 (TDefined "input") Examples.opts = Some (inl extractInputs)
    /\ extractInputs Examples.GET_root (zero (TDefined "input"))
       = Ret (VObj "input" [("Field", VObj "Query[int]" [("Value", VInt K0 0)])], None).
Proof.
  eexists. split.
  - reflexivity.
  - vm_compute. reflexivity.
Qed.

(** ** The type walker: parent fields *)

Section WalkerParents.
Variable ds : decls.
Variable sourcer : rtype -> option string.
Variable inner : rtype -> option (option rtype).
Variable CustomParser :
  rtype -> option (option Param.Parser -> StructField -> gvalue -> outcome (gvalue * error)).
Variable Error : err -> string.
Variable namer : Param.Namer.
Variable parser : option Param.Parser.

Local Abbreviation parentsOK' := (parentsOK ds sourcer).
Local Abbreviation infoFromField := (Param.infoFromField ds sourcer inner CustomParser Error).
Local Abbreviation fieldLoop := (Param.fieldLoop ds sourcer inner CustomParser Error).
Local Abbreviation infoFromValue := (Param.infoFromValue ds sourcer inner CustomParser Error).

Lemma getParamsFromStruct_parents rec T field infos :
  (forall T' infos', rec T' = Some (Ret (inl infos')) -> Forall (parentsOK' T') infos') ->
  field ∈ Fields ds T ->
  method sourcer (TPtr (Typ field)) = None ->
  Param.getParamsFromStruct ds rec field namer parser = Some (Ret (inl infos)) ->
  Forall (parentsOK' T) infos.
Proof.
  intros Hrec Hin Hsrc. unfold Param.getParamsFromStruct.
  destruct parser; [|discriminate].
  destruct (bool_decide (Kind_of ds (Typ field) = kStruct)) eqn:Hk; simpl.
  - apply bool_decide_eq_true in Hk.
    destruct (rec (Typ field)) as [[[infos'|e]|m]|] eqn:Hr; try discriminate.
    intros [= <-]. specialize (Hrec _ _ Hr).
    apply Forall_map. eapply Forall_impl; [exact Hrec|].
    intros info (path & Hpath & Hparents & Hfield). exists (field :: path). simpl.
    split; [constructor; assumption|]. split; [rewrite Hparents; reflexivity | exact Hfield].
  - intros [= <-]. constructor.
Qed.

Lemma infoFromField_parents rec T field infos :
  (forall T' infos', rec T' = Some (Ret (inl infos')) -> Forall (parentsOK' T') infos') ->
  field ∈ Fields ds T ->
  infoFromField rec T field namer parser = Some (Ret (inl infos)) ->
  Forall (parentsOK' T) infos.
Proof.
  intros Hrec Hin. unfold Param.infoFromField.
  destruct (Param.GetSourceAndType sourcer inner (Typ field)) as [[source [typ|]] [|]] eqn:HG.
  - (* the field is a parameter *)
    destruct (Param.canParseType CustomParser parser (zero typ) field) as [[v [e|]]|m];
      [destruct (err_As_InvalidParam e); discriminate | | discriminate].
    destruct (negb (String.eqb (Tag_Get (Tag field) "default") "")).
    + destruct (Param.call parser v [Tag_Get (Tag field) "default"]) as [[v' [e|]]|m];
        try discriminate.
      intros [= <-]. constructor; [|constructor].
      exists []. simpl. split; [constructor | split; [reflexivity | exact Hin]].
    + intros [= <-]. constructor; [|constructor].
      exists []. simpl. split; [constructor | split; [reflexivity | exact Hin]].
  - unfold Param.GetSourceAndType in HG.
    destruct (method sourcer (TPtr (Typ field))) eqn:Hs; [discriminate|].
    apply getParamsFromStruct_parents; assumption.
  - unfold Param.GetSourceAndType in HG.
    destruct (method sourcer (TPtr (Typ field))) eqn:Hs; [discriminate|].
    apply getParamsFromStruct_parents; assumption.
  - unfold Param.GetSourceAndType in HG.
    destruct (method sourcer (TPtr (Typ field))) eqn:Hs; [discriminate|].
    apply getParamsFromStruct_parents; assumption.
Qed.

Lemma fieldLoop_parents rec T fields params infos :
  (forall T' infos', rec T' = Some (Ret (inl infos')) -> Forall (parentsOK' T') infos') ->
  (forall f, f ∈ fields -> f ∈ Fields ds T) ->
  Forall (parentsOK' T) params ->
  fieldLoop rec T namer parser fields params = Some (Ret (inl infos)) ->
  Forall (parentsOK' T) infos.
Proof.
  intros Hrec. revert params. induction fields as [|f fields IH]; intros params Hsub Hparams.
  - simpl. intros [= <-]. exact Hparams.
  - simpl.
    destruct (infoFromField rec T f namer parser) as [[[info|e]|m]|] eqn:Hf; try discriminate.
    apply IH.
    + intros f' Hf'. apply Hsub. right. exact Hf'.
    + apply Forall_app. split; [exact Hparams|].
      eapply infoFromField_parents; [exact Hrec | | exact Hf]. apply Hsub. left.
Qed.

Lemma infoFromValue_parents fuel T infos :
  infoFromValue fuel T namer parser = Some (Ret (inl infos)) ->
  Forall (parentsOK' T) infos.
Proof.
  revert T infos. induction fuel as [|fuel IH]; intros T infos; [discriminate|].
  simpl. unfold Param.infoFromValue_body.
  destruct (negb (bool_decide (Kind_of ds T = kStruct))); [discriminate|].
  apply fieldLoop_parents; [exact IH | auto | constructor].
Qed.
End WalkerParents.

(** C4, as stated, fails at two levels of nesting: for [Outer] around
    [Middle] around [Inner] the parameter's [ParentFields] are the field
    of [Middle] and then the field of [Outer], the innermost first, and
    not the outermost first. *)
Lemma C4_counterexample_innermost_first :
  exists info,
    Param.InfoFromStruct Examples.nested (Extractor.sourcer_of Examples.insts)
      (Extractor.inner_of Examples.nested Examples.insts)
      (Extractor.CustomParser_of Examples.insts) (fun _ => "")
      3 (TDefined "Outer") Examples.namer (Some Param.ParseInt)
    = Some (Ret (inl [info]))
    /\ Param.Info.ParentFields info = [Examples.fIn; Examples.fMid]
    /\ Param.Info.ParentFields info <> [Examples.fMid; Examples.fIn].
Proof.
  eexists. split; [vm_compute; reflexivity|]. split; [reflexivity | discriminate].
Qed.

(** C4, amended.  For every parameter the walker returns for a struct
    type [T], [ParentFields] lists the enclosing fields innermost first:
    it is the reverse of the path of fields that leads from [T] to the
    struct that has the parameter's field.  So it is empty for a
    parameter of [T] itself and has one entry per level of nesting. *)
Theorem C4_parent_fields_innermost_first :
  forall ds sourcer inner CustomParser Error fuel T namer parser infos info,
    Param.InfoFromStruct ds sourcer inner CustomParser Error fuel T namer parser
    = Some (Ret (inl infos)) ->
    info ∈ infos ->
    exists path,
      enclosed ds sourcer T path (Param.Info.Struct info)
      /\ Param.Info.ParentFields info = rev path
      /\ length (Param.Info.ParentFields info) = length path
      /\ Param.Info.Field info ∈ Fields ds (Param.Info.Struct info).
Proof.
  intros ds sourcer inner CustomParser Error fuel T namer parser infos info H Hin.
  apply infoFromValue_parents in H. rewrite Forall_forall in H.
  destruct (H _ Hin) as (path & H1 & H2 & H3).
  exists path. repeat split; try assumption. rewrite H2. apply length_rev.
Qed.

(** The amended C4 on the nested example. *)
Lemma C4_parent_fields_innermost_first_witness :
  exists path,
    enclosed Examples.nested (Extractor.sourcer_of Examples.insts) (TDefined "Outer") path
      (TDefined "Inner")
    /\ [Examples.fIn; Examples.fMid] = rev path
    /\ length [Examples.fIn; Examples.fMid] = length path
    /\ Examples.fValue ∈ Fields Examples.nested (TDefined "Inner").
Proof.
  apply (C4_parent_fields_innermost_first Examples.nested
           (Extractor.sourcer_of Examples.insts)
           (Extractor.inner_of Examples.nested Examples.insts)
           (Extractor.CustomParser_of Examples.insts) (fun _ => "")
           3 (TDefined "Outer") Examples.namer (Some Param.ParseInt)
           [Param.Info.mk "Value" "query" "" (TInt K0) Examples.fValue (TDefined "Inner")
              [Examples.fIn; Examples.fMid]]
           (Param.Info.mk "Value" "query" "" (TInt K0) Examples.fValue (TDefined "Inner")
              [Examples.fIn; Examples.fMid])).
  - vm_compute. reflexivity.
  - left.
Defined.

(** ** The type walker: defaults are checked when the route is registered *)

Lemma fieldLoop_app ds sourcer inner CustomParser Error rec T namer parser before rest acc pre :
  Param.fieldLoop ds sourcer inner CustomParser Error rec T namer parser before acc
  = Some (Ret (inl pre)) ->
  Param.fieldLoop ds sourcer inner CustomParser Error rec T namer parser (before ++ rest) acc
  = Param.fieldLoop ds sourcer inner CustomParser Error rec T namer parser rest pre.
Proof.
  revert acc. induction before as [|f before IH]; intros acc; simpl.
  - intros [= <-]. reflexivity.
  - destruct (Param.infoFromField ds sourcer inner CustomParser Error rec T f namer parser)
      as [[[info|e]|m]|]; try discriminate.
    apply IH.
Qed.

(** A parameter whose default the parser rejects: [infoFromField] returns
    an [InvalidParamError] that carries the default in its message. *)
Lemma infoFromField_unparsable_default
    ds sourcer inner CustomParser Error rec structType field namer
    (parser : Param.Parser) source typ v0 e0 v1 e :
  method sourcer (TPtr (Typ field)) = Some source ->
  method inner (TPtr (Typ field)) = Some (Some typ) ->
  parser (zero typ) [""] = Ret (v0, e0) ->
  errors_Is e0 ErrInvalidParamType = false ->
  Tag_Get (Tag field) "default" <> "" ->
  parser v0 [Tag_Get (Tag field) "default"] = Ret (v1, Some e) ->
  Param.infoFromField ds sourcer inner CustomParser Error rec structType field namer
    (Some parser)
  = Some (Ret (inr (InvalidParam
      (mkInvalidParamError structType field (Some typ)
         (Param.ErrUnparsableDefault +:+ ": " +:+ Tag_Get (Tag field) "default")
         (Error e) false)))).
Proof.
  intros Hs Hi H0 He0 Hd H1.
  unfold Param.infoFromField, Param.GetSourceAndType. rewrite Hs, Hi.
  unfold Param.canParseType. simpl. rewrite H0. simpl. rewrite He0. simpl.
  apply String.eqb_neq in Hd. rewrite Hd. simpl. rewrite H1. reflexivity.
Qed.

(** When no parser handles the parameter's type, the error has an empty
    message (it is rendered as "cannot determine how to parse param"). *)
Lemma infoFromField_unparsable_type
    ds sourcer inner CustomParser Error rec structType field namer
    (parser : Param.Parser) source typ v0 e0 :
  method sourcer (TPtr (Typ field)) = Some source ->
  method inner (TPtr (Typ field)) = Some (Some typ) ->
  parser (zero typ) [""] = Ret (v0, e0) ->
  errors_Is e0 ErrInvalidParamType = true ->
  method CustomParser (TPtr (Typ field)) = None ->
  method CustomParser (Typ field) = None ->
  Param.infoFromField ds sourcer inner CustomParser Error rec structType field namer
    (Some parser)
  = Some (Ret (inr (InvalidParam
      (mkInvalidParamError structType field (Some typ) "" "" false)))).
Proof.
  intros Hs Hi H0 He0 Hc1 Hc2.
  unfold Param.infoFromField, Param.GetSourceAndType. rewrite Hs, Hi.
  unfold Param.canParseType. cbn [Param.call obind]. rewrite H0. cbn [obind].
  rewrite He0. cbn [negb]. rewrite Hc1, Hc2. reflexivity.
Qed.

(** The error of [strconv.ParseInt] is never the sentinel of the parsers. *)
Lemma ParseInt_error_not_sentinel str size :
  errors_Is (snd (Strconv.ParseInt str size)) ErrInvalidParamType = false.
Proof.
  unfold Strconv.ParseInt. destruct str as [|c rest]; [reflexivity|].
  destruct (Strconv.ParseUint _ size) as [un e].
  destruct e as [[[] | fn num [] | | | | | | | | | ]|];
    repeat match goal with
           | |- context [if ?b then _ else _] => destruct b
           end; reflexivity.
Qed.

(** The chain of the built-in parsers parses an integer target as
    [ParseInt] does, when the integer types have no [UnmarshalText]. *)
Lemma builtin_chain_parses_int parseFloat UnmarshalText k z params :
  UnmarshalText (TInt k) = None ->
  Param.Parsers.Parse (Param.builtin parseFloat UnmarshalText) (VInt k z) params
  = Param.ParseInt (VInt k z) params.
Proof.
  intros Hu. unfold Param.Parsers.Parse, Param.builtin.
  cbn [Param.Parsers.loop]. unfold Param.ParseTextUnmarshaller at 1.
  cbn [typeof]. rewrite Hu. cbn [errors_Is err_Is negb].
  rewrite bool_decide_eq_true_2 by reflexivity. cbn [negb].
  unfold Param.ParseInt. destruct params as [|param rest]; [reflexivity|].
  pose proof (ParseInt_error_not_sentinel param (bitSize k)) as He.
  destruct (Strconv.ParseInt param (bitSize k)) as [i e]. cbn [snd] in He.
  rewrite He. reflexivity.
Qed.

(** C6.  A parameter field of an integer type whose [default] tag
    [strconv.ParseInt] rejects makes [InfoFromStruct] fail, when the route
    is registered, with an [InvalidParamError] whose message is
    "default value cannot be parsed: " followed by the default; the
    message differs from the empty one of the error for a type that
    no parser handles.  The parser is one that parses targets of the
    integer type as [ParseInt] does, such as [ParseInt] itself and the
    chain of the built-in parsers, and the fields before the parameter
    are walked without an error. *)
Theorem C6_unparsable_default_at_registration :
  forall ds sourcer inner CustomParser Error fuel T namer (parser : Param.Parser)
         before field after pre source k d e,
    (forall z params, parser (VInt k z) params = Param.ParseInt (VInt k z) params) ->
    Kind_of ds T = kStruct ->
    Fields ds T = before ++ field :: after ->
    Param.fieldLoop ds sourcer inner CustomParser Error
      (fun t => Param.infoFromValue ds sourcer inner CustomParser Error fuel t namer
                  (Some parser))
      T namer (Some parser) before [] = Some (Ret (inl pre)) ->
    method sourcer (TPtr (Typ field)) = Some source ->
    method inner (TPtr (Typ field)) = Some (Some (TInt k)) ->
    Tag_Get (Tag field) "default" = d ->
    d <> "" ->
    snd (Strconv.ParseInt d (bitSize k)) = Some e ->
    Param.InfoFromStruct ds sourcer inner CustomParser Error (S fuel) T namer (Some parser)
    = Some (Ret (inr (InvalidParam
        (mkInvalidParamError T field (Some (TInt k))
           ("default value cannot be parsed: " +:+ d) (Error e) false))))
    /\ "default value cannot be parsed: " +:+ d <> "".
Proof.
  intros ds sourcer inner CustomParser Error fuel T namer parser before field after pre
         source k d e Hparser Hk Hf Hpre Hs Hi Hd Hne He.
  split; [|discriminate].
  unfold Param.InfoFromStruct. simpl. unfold Param.infoFromValue_body.
  rewrite Hk, bool_decide_eq_true_2 by reflexivity. simpl.
  rewrite Hf, (fieldLoop_app _ _ _ _ _ _ _ _ _ _ _ _ _ Hpre). simpl.
  subst d.
  destruct (Strconv.ParseInt (Tag_Get (Tag field) "default") (bitSize k)) as [i e'] eqn:Hp.
  simpl in He. subst e'.
  rewrite (infoFromField_unparsable_default ds sourcer inner CustomParser Error _ T field
             namer parser source (TInt k) (VInt k (to_int k 0))
             (Some (Strconv.syntaxError "ParseInt" "")) (VInt k (to_int k i)) e);
    try assumption; try reflexivity.
  - cbn [zero]. rewrite Hparser. reflexivity.
  - rewrite Hparser. simpl. rewrite Hp. reflexivity.
Qed.

(** C6 on [struct { Field routey.Query[int] `default:"1."` }], with the
    chain of the built-in parsers. *)
Lemma C6_unparsable_default_at_registration_witness :
  Param.InfoFromStruct Examples.badDefault (Extractor.sourcer_of Examples.insts)
    (Extractor.inner_of Examples.badDefault Examples.insts)
    (Extractor.CustomParser_of Examples.insts) (fun _ => "invalid syntax")
    1 (TDefined "input") Examples.namer
    (Some (Param.Parsers.Parse
             (Param.builtin (fun _ _ => (S754_zero false, None)) Examples.noUnmarshalText)))
  = Some (Ret (inr (InvalidParam
      (mkInvalidParamError (TDefined "input") Examples.FieldBad (Some (TInt K0))
         "default value cannot be parsed: 1." "invalid syntax" false))))
  /\ "default value cannot be parsed: 1." <> "".
Proof.
  apply (C6_unparsable_default_at_registration Examples.badDefault
           (Extractor.sourcer_of Examples.insts)
           (Extractor.inner_of Examples.badDefault Examples.insts)
           (Extractor.CustomParser_of Examples.insts) (fun _ => "invalid syntax")
           0 (TDefined "input") Examples.namer
           (Param.Parsers.Parse
              (Param.builtin (fun _ _ => (S754_zero false, None)) Examples.noUnmarshalText))
           [] Examples.FieldBad [] []
           "query" K0 "1." (NumError "ParseInt" "1." strconv_ErrSyntax)).
  - intros z params. apply builtin_chain_parses_int. reflexivity.
  - vm_compute. reflexivity.
  - vm_compute. reflexivity.
  - reflexivity.
  - vm_compute. reflexivity.
  - vm_compute. reflexivity.
  - reflexivity.
  - discriminate.
  - vm_compute. reflexivity.
Defined.

(** ** The schema synthesizer *)

Import Jsonschema.

(** C5, as stated, fails for the two float kinds: [float32] and [float64]
    get the same format, "float". *)
Lemma C5_counterexample_float_formats :
  exists s32 s64 st32 st64,
    createSchemaByKind ∅ (fun _ => false) (NewSchemer ∅) (fun _ => ret (New, None))
      (TFloat F32) empty_store = Some (Ret ((s32, None), st32))
    /\ createSchemaByKind ∅ (fun _ => false) (NewSchemer ∅) (fun _ => ret (New, None))
         (TFloat F64) empty_store = Some (Ret ((s64, None), st64))
    /\ Format (Schema_ s64) = Format (Schema_ s32)
    /\ Format (Schema_ s64) = "float".
Proof. do 4 eexists. repeat split; reflexivity. Qed.

(** C5, amended.  For a type of a primitive kind the schema has the one
    type name, the format and the minimum of [primitiveSchema], and
    nothing else set: boolean; string; integer, with format int32 or
    int64 for the 32 and 64 bit kinds only; the same with minimum 0 for
    the unsigned kinds; and number with the format "float" for both
    float kinds. *)
Theorem C5_primitive_kinds :
  forall ds s noRefer rec typ st ty fmt mn,
    primitiveSchema (Kind_of ds typ) = Some (ty, fmt, mn) ->
    exists sch st',
      createSchemaByKind ds noRefer s rec typ st = Some (Ret ((sch, None), st'))
      /\ GetType (heap st') sch = [ty]
      /\ sch = mkSchema (mkOSchema (Type_ (Schema_ sch)) fmt mn None "" None [] None None [])
                 "" false ""
      /\ types st' = types st.
Proof.
  intros ds s noRefer rec typ st ty fmt mn H.
  unfold createSchemaByKind.
  assert (Hlk : forall x : list string, (heap st ++ [x]) !! length (heap st) = Some x).
  { intros x. rewrite lookup_app_r by lia. replace (_ - _)%nat with 0%nat by lia. reflexivity. }
  destruct (Kind_of ds typ) as [|k|k|k| | | | | | | |]; simpl in H; try discriminate;
    try destruct k; injection H as <- <- <-;
    (eexists; eexists; split; [reflexivity|]);
    (split; [unfold GetType; simpl; rewrite Hlk; reflexivity | split; reflexivity]).
Qed.

(** The amended C5 on [float64]. *)
Lemma C5_primitive_kinds_witness :
  exists sch st',
    createSchemaByKind ∅ (fun _ => false) (NewSchemer ∅) (fun _ => ret (New, None))
      (TFloat F64) empty_store = Some (Ret ((sch, None), st'))
    /\ GetType (heap st') sch = ["number"]
    /\ sch = mkSchema (mkOSchema (Type_ (Schema_ sch)) "float" None None "" None [] None None [])
               "" false ""
    /\ types st' = types empty_store.
Proof.
  apply (C5_primitive_kinds ∅ (NewSchemer ∅) (fun _ => false) (fun _ => ret (New, None))
           (TFloat F64) empty_store "number" "float" None).
  reflexivity.
Defined.

(** X16 (createPointerSchema, for a pointee with a type list): when the
    schema synthesized for [T] has a type list [tys], the schema
    synthesized for [*T] is that same schema, with ["null"] appended to
    the list its [Type_] points to: its type names are [tys] followed by
    ["null"], and no other field, no other type list and no entry of
    [types] differs.  ([*T] itself has no entry in [types].) *)
Theorem pointer_adds_null :
  forall ds schemer_of schemerExtended_of noRefer s fuel T st sch st' l tys,
    types_get (TPtr T) (types st) = None ->
    schemaFromType ds schemer_of schemerExtended_of noRefer s fuel (Some T) st
    = Some (Ret ((sch, None), st')) ->
    Type_ (Schema_ sch) = Some l ->
    heap st' !! l = Some tys ->
    exists st'',
      schemaFromType ds schemer_of schemerExtended_of noRefer s (Datatypes.S fuel) (Some (TPtr T)) st
      = Some (Ret ((sch, None), st''))
      /\ GetType (heap st') sch = tys
      /\ GetType (heap st'') sch = tys ++ [NullType]
      /\ types st'' = types st'
      /\ (forall l', l' <> l -> heap st'' !! l' = heap st' !! l').
Proof.
  intros ds schemer_of schemerExtended_of noRefer s fuel T st sch st' l tys Hc HT Hl HS.
  exists (mkStore (types st') (alter (fun ts => ts ++ [NullType]) l (heap st'))).
  split; [|split; [|split; [|split]]].
  - cbn [schemaFromType]. unfold schemaFromType_body, bind at 1, get_types.
    rewrite Hc. cbn [method].
    unfold bind at 1. unfold createSchemaByKind. cbn [Kind_of literal_Kind].
    unfold createPointerSchema. cbn [Elem literal_Elem].
    unfold bind at 1. rewrite HT. rewrite Hl.
    unfold bind at 1. cbn [Type_Add]. unfold ret. 
    unfold applyExtensions. cbn [method]. reflexivity.
  - unfold GetType. rewrite Hl, HS. reflexivity.
  - unfold GetType. rewrite Hl. cbn [heap].
    rewrite list_lookup_alter_eq, HS. reflexivity.
  - reflexivity.
  - intros l' Hne. cbn [heap]. apply list_lookup_alter_ne. congruence.
Qed.

(** The same on [*string]. *)
Lemma pointer_adds_null_witness :
  exists st'',
    schemaFromType ∅ Examples.noSchemer Examples.noExtend (fun _ => false) (NewSchemer ∅)
      2 (Some (TPtr TString)) empty_store
    = Some (Ret ((on_Schema (set_Type (Some 0%nat)) New, None), st''))
    /\ GetType [["string"]] (on_Schema (set_Type (Some 0%nat)) New) = ["string"]
    /\ GetType (heap st'') (on_Schema (set_Type (Some 0%nat)) New) = ["string"; "null"]
    /\ types st'' = []
    /\ (forall l', l' <> 0%nat -> heap st'' !! l' = [["string"]] !! l').
Proof.
  apply (pointer_adds_null ∅ Examples.noSchemer Examples.noExtend (fun _ => false)
           (NewSchemer ∅) 1 TString empty_store (on_Schema (set_Type (Some 0%nat)) New)
           (mkStore [] [["string"]]) 0%nat ["string"]);
    reflexivity.
Defined.

(** C7.  When the schema synthesized for [T] has no type list, so that
    its type set is empty, as for an interface type or for a type whose
    [JSONSchema] method returns a schema without a type, the synthesis
    for [*T] returns no schema at all: appending ["null"] goes through
    the nil [Type] pointer and panics.  The claim has the schema of [T]
    with the type set that holds only ["null"] there. *)
Theorem C7_pointer_to_untyped_panics :
  forall ds schemer_of schemerExtended_of noRefer s fuel T st sch st',
    types_get (TPtr T) (types st) = None ->
    schemaFromType ds schemer_of schemerExtended_of noRefer s fuel (Some T) st
    = Some (Ret ((sch, None), st')) ->
    Type_ (Schema_ sch) = None ->
    GetType (heap st') sch = []
    /\ schemaFromType ds schemer_of schemerExtended_of noRefer s (Datatypes.S fuel)
         (Some (TPtr T)) st
       = Some (Panic "invalid memory address or nil pointer dereference").
Proof.
  intros ds schemer_of schemerExtended_of noRefer s fuel T st sch st' Hc HT Hl.
  split.
  - unfold GetType. rewrite Hl. reflexivity.
  - cbn [schemaFromType]. unfold schemaFromType_body, bind at 1, get_types.
    rewrite Hc. cbn [method].
    unfold bind at 1. unfold createSchemaByKind. cbn [Kind_of literal_Kind].
    unfold createPointerSchema. cbn [Elem literal_Elem].
    unfold bind at 1. rewrite HT. rewrite Hl.
    unfold bind at 1. cbn [Type_Add]. reflexivity.
Qed.

(** C7 on [*interface{}], from a new Schemer: the schema of the interface
    type is the empty schema, and that of the pointer to it is a panic. *)
Lemma C7_pointer_to_untyped_panics_witness :
  schemaFromType ∅ Examples.noSchemer Examples.noExtend (fun _ => false) (NewSchemer ∅)
    1 (Some TInterface) empty_store
  = Some (Ret ((New, None), empty_store))
  /\ GetType (heap empty_store) New = []
  /\ schemaFromType ∅ Examples.noSchemer Examples.noExtend (fun _ => false) (NewSchemer ∅)
       2 (Some (TPtr TInterface)) empty_store
     = Some (Panic "invalid memory address or nil pointer dereference").
Proof.
  split; [reflexivity|].
  apply (C7_pointer_to_untyped_panics ∅ Examples.noSchemer Examples.noExtend
           (fun _ => false) (NewSchemer ∅) 1 TInterface empty_store New empty_store);
    reflexivity.
Defined.

(** The list a [Type_] points to is shared: after the schema of a pointer
    to a struct has been synthesized, the schema cached for the struct
    itself reads as nullable too. *)
Lemma pointer_writes_cached_schema :
  exists sch st st',
    schemaFromType Examples.leaf Examples.noSchemer Examples.noExtend (fun _ => false)
      (NewSchemer Examples.leaf) 3 (Some (TPtr (TDefined "Leaf")))
      empty_store = Some (Ret ((sch, None), st))
    /\ schemaFromType Examples.leaf Examples.noSchemer Examples.noExtend (fun _ => false)
         (NewSchemer Examples.leaf) 3 (Some (TDefined "Leaf")) st
       = Some (Ret ((sch, None), st'))
    /\ GetType (heap st') sch = ["object"; "null"].
Proof. do 3 eexists. split; [vm_compute; reflexivity|]. split; vm_compute; reflexivity. Qed.

Lemma bind_None {A B} (m : M A) (k : A -> M B) st : m st = None -> bind m k st = None.
Proof. intros H. unfold bind. rewrite H. reflexivity. Qed.

Section SelfReference.
Variable ds : decls.
Variable schemer_of : rtype -> option (list (list string) -> Schema * list (list string)).
Variable schemerExtended_of :
  rtype -> option (Schema -> list (list string) -> Schema * list (list string)).
Variable noRefer : rtype -> bool.
Variable s : Schemer.
Variables (id name : string) (f : StructField) (rest : list StructField).
Hypothesis Hdecl : ds !! id = Some (mkDecl name (UStruct (f :: rest))).
Hypothesis Hself : Typ f = TPtr (TDefined id).
Hypothesis Hplain : method schemer_of (TPtr (TDefined id)) = None.

Local Abbreviation run := (schemaFromType ds schemer_of schemerExtended_of noRefer s).

Lemma self_reference_both fuel st :
  types_get (TDefined id) (types st) = None ->
  types_get (TPtr (TDefined id)) (types st) = None ->
  run fuel (Some (TDefined id)) st = None /\ run fuel (Some (TPtr (TDefined id))) st = None.
Proof.
  revert st. induction fuel as [|fuel IH]; intros st HT HP; [split; reflexivity|].
  split.
  - cbn [schemaFromType]. unfold schemaFromType_body, bind at 1, get_types.
    rewrite HT, Hplain.
    apply bind_None. unfold createSchemaByKind, Kind_of. rewrite Hdecl. cbn [decl_Underlying].
    unfold createStructSchema. apply bind_None.
    unfold schemaFromStruct, Fields. rewrite Hdecl.
    unfold bind at 1, with_Type, bind at 1, NewSingleOrArray, ret.
    cbn [structLoop]. apply bind_None.
    unfold updateSchema, bind at 1, get_types. cbn [types].
    apply bind_None. rewrite Hself.
    apply (IH (mkStore (types st) (heap st ++ [[ObjectType]]))); assumption.
  - cbn [schemaFromType]. unfold schemaFromType_body, bind at 1, get_types.
    rewrite HP. cbn [method].
    apply bind_None. unfold createSchemaByKind. cbn [Kind_of literal_Kind].
    unfold createPointerSchema. cbn [Elem literal_Elem].
    apply bind_None. apply IH; assumption.
Qed.
End SelfReference.

(** C1, on the code.  A struct type whose first field is a pointer to the
    struct itself, with no schema of its own and not yet in [types]:
    [Get] does not return, whatever the fuel.  The type is entered in
    [types] only after its fields have been gone through, so the walk
    through the field finds neither the type nor the pointer to it there
    and starts over. *)
Theorem C1_self_referential_struct_never_returns :
  forall ds schemer_of schemerExtended_of noRefer s id name f rest fuel st,
    ds !! id = Some (mkDecl name (UStruct (f :: rest))) ->
    Typ f = TPtr (TDefined id) ->
    method schemer_of (TPtr (TDefined id)) = None ->
    types_get (TDefined id) (types st) = None ->
    types_get (TPtr (TDefined id)) (types st) = None ->
    Get ds schemer_of schemerExtended_of noRefer s fuel (Some (TDefined id)) st = None.
Proof.
  intros ds schemer_of schemerExtended_of noRefer s id name f rest fuel st Hd Hs Hp HT HP.
  unfold Get.
  apply (self_reference_both ds schemer_of schemerExtended_of noRefer s id name f rest
           Hd Hs Hp fuel st HT HP).
Qed.

(** C1 on [type Node struct { Next *Node }] and a new [Schemer]. *)
Lemma C1_self_referential_struct_never_returns_witness :
  Get Examples.linked Examples.noSchemer Examples.noExtend (fun _ => false)
    (NewSchemer Examples.linked) 1000 (Some Examples.Node) empty_store = None.
Proof.
  apply (C1_self_referential_struct_never_returns Examples.linked Examples.noSchemer
           Examples.noExtend (fun _ => false) (NewSchemer Examples.linked)
           "Node" "Node" Examples.fNext [] 1000 empty_store);
    reflexivity.
Defined.

(** ** OpenAPI parameters: path parameters are required *)

Import Openapi3Param.

Lemma updateFromTags_In parseInt0 tags p :
  In (fst (updateFromTags parseInt0 tags p)) = In p.
Proof.
  unfold updateFromTags.
  destruct (negb (String.eqb (minimum tags) ""));
    repeat match goal with
           | |- context [let '(_, _) := ?x in _] => destruct x
           end; reflexivity.
Qed.

Lemma setDefaults_path p tags p' :
  setDefaults p tags = (p', None) ->
  In p' = In p /\ (In p = LocationPath -> Required p' = true).
Proof.
  unfold setDefaults.
  assert (Hstep : forall q,
    In q = In p ->
    let q' := if String.eqb (Style q) StyleForm && String.eqb (explode tags) ""
              then set_Explode true q else q in
    In (if String.eqb (In q') LocationPath then set_Required true q' else q') = In p
    /\ (In p = LocationPath ->
        Required (if String.eqb (In q') LocationPath then set_Required true q' else q')
        = true)).
  { intros q Hq. cbv zeta.
    destruct (String.eqb (Style q) StyleForm && String.eqb (explode tags) "");
      cbn [In set_Explode]; rewrite Hq;
      (split; [destruct (String.eqb (In p) LocationPath); cbn; assumption|]);
      intros ->; reflexivity. }
  destruct (String.eqb (Style p) "").
  - destruct (defaultStyle (In p)) as [st [e|]]; [discriminate|].
    intros [= <-]. apply (Hstep (set_Style st p)). reflexivity.
  - intros [= <-]. apply (Hstep p). reflexivity.
Qed.

Lemma setDefaults_path_total p tags :
  In p = LocationPath ->
  exists p', setDefaults p tags = (p', None) /\ In p' = LocationPath /\ Required p' = true.
Proof.
  intros Hp.
  destruct (setDefaults p tags) as [p' e] eqn:H.
  assert (e = None) as ->.
  { unfold setDefaults in H. rewrite Hp in H.
    destruct (String.eqb (Style p) ""); cbn in H; injection H as _ <-; reflexivity. }
  destruct (setDefaults_path _ _ _ H) as [HIn Hreq].
  exists p'. split; [reflexivity|]. split; [congruence | auto].
Qed.

(** C9.  (1) For a parameter in "path", [setDefaults] returns without an
    error and sets [Required], whatever the tags and the other fields of
    the parameter are.  (2) When [FromInfo] returns a parameter without
    an error for an [Info] whose source is "path", the parameter is in
    "path" and has [Required] set, whatever the field's tags (a
    [required] tag included), its type and its default are. *)
Theorem C9_path_parameters_required :
  (forall p tags,
      In p = LocationPath ->
      exists p', setDefaults p tags = (p', None) /\ In p' = LocationPath
                 /\ Required p' = true)
  /\ (forall parseInt0 ds schemer_of schemerExtended_of noRefer fuel info schemer st p st',
      FromInfo parseInt0 ds schemer_of schemerExtended_of noRefer fuel info schemer st
      = Some (Ret ((p, None), st')) ->
      Param.Info.Source info = LocationPath ->
      In p = LocationPath /\ Required p = true).
Proof.
  split; [exact setDefaults_path_total|].
  intros parseInt0 ds schemer_of schemerExtended_of noRefer fuel info schemer st p st' H Hsrc.
  unfold FromInfo, bind at 1 in H.
  destruct (Get ds schemer_of schemerExtended_of noRefer schemer fuel
              (Some (Param.Info.Typ info)) st) as [[[[schema e] st1]|m]|]; try discriminate.
  destruct e; [discriminate|].
  unfold bind, get_heap, ret in H.
  match type of H with
  | context [updateFromTags ?f ?t ?q] =>
      pose proof (updateFromTags_In f t q) as HIn;
      destruct (updateFromTags f t q) as [p1 [e1|]]; [discriminate|]
  end.
  match type of H with
  | context [setDefaults ?q ?t] =>
      destruct (setDefaults q t) as [p2 [e2|]] eqn:Hsd; [discriminate|]
  end.
  apply setDefaults_path in Hsd. destruct Hsd as [HIn2 Hreq].
  destruct (styleValidation (Style p2)) as [rule|]; [|discriminate].
  destruct (Validate rule (In p2) _); [discriminate|].
  injection H as <- <-.
  cbn [fst] in HIn. cbn [In SetSchema] in HIn.
  assert (In p1 = LocationPath) by (rewrite HIn; exact Hsrc).
  split; [congruence | auto].
Qed.

(** C9 on a path parameter of type [int] whose field is tagged
    [required:"false"]. *)
Lemma C9_path_parameters_required_witness :
  In (mkParameter "id" "path" true false false false "simple"
        (Some (Spec (Schema_ (on_Schema (set_Type (Some 0%nat)) Jsonschema.New)))))
  = LocationPath
  /\ Required (mkParameter "id" "path" true false false false "simple"
        (Some (Spec (Schema_ (on_Schema (set_Type (Some 0%nat)) Jsonschema.New)))))
     = true.
Proof.
  apply (proj2 C9_path_parameters_required (fun _ => (0, None)) ∅ Examples.noSchemer
           Examples.noExtend (fun _ => false) 1%nat
           (Param.Info.mk "id" "path" "" (TInt K0)
              (mkField "ID" (TInt K0) [("required", "false")] false) (TDefined "input") [])
           (NewSchemer ∅) empty_store
           (mkParameter "id" "path" true false false false "simple"
              (Some (Spec (Schema_ (on_Schema (set_Type (Some 0%nat)) Jsonschema.New)))))
           (mkStore [] [["integer"]])).
  - vm_compute. reflexivity.
  - reflexivity.
Defined.

(** ** The validator *)

Section ValidatorProperties.
Context {doc compiled engineError : Type}.
Variable UnmarshalJSON : string -> doc + err.
Variable AddResource : string -> doc -> list (string * doc) -> list (string * doc) + err.
Variable Compile : Validator.Loader doc -> list (string * doc) -> string -> compiled + err.
Variable json_Unmarshal : string -> doc + err.
Variable Schema_Validate : compiled -> doc -> option (engineError + err).
Variable convertError : engineError -> ValidationError.

Local Abbreviation Add := (Validator.Add doc compiled UnmarshalJSON AddResource Compile).
Local Abbreviation addAll := (Validator.addAll doc compiled UnmarshalJSON AddResource Compile).
Local Abbreviation succeeded :=
  (Validator.succeeded doc compiled UnmarshalJSON AddResource Compile).
Local Abbreviation Validate :=
  (Validator.Validate doc compiled engineError json_Unmarshal Schema_Validate convertError).

Lemma Add_cases (c : Validator.Validator doc compiled) name schema :
  (exists e, Add c name schema = (c, Some e))
  \/ (exists c' e, Add c name schema = (c', Some e)
                  /\ Validator.schemas c' = Validator.schemas c
                  /\ Validator.loader (Validator.compiler c')
                     = Validator.loader (Validator.compiler c))
  \/ (exists c' s, Add c name schema = (c', None)
                  /\ Validator.schemas c' = <[name := s]> (Validator.schemas c)
                  /\ Validator.loader (Validator.compiler c')
                     = Validator.loader (Validator.compiler c)).
Proof.
  unfold Validator.Add.
  destruct (UnmarshalJSON schema) as [d|e]; [|left; eauto].
  destruct (AddResource name d _) as [res|e]; [|left; eauto].
  unfold Validator.compile. cbn [Validator.compiler Validator.loader Validator.resources].
  destruct (Compile _ res name) as [s|e].
  - right. right. eexists _, _. split; [reflexivity|]. split; reflexivity.
  - right. left. eexists _, _. split; [reflexivity|]. split; reflexivity.
Qed.

Lemma addAll_loader (c : Validator.Validator doc compiled) calls :
  Validator.loader (Validator.compiler (addAll c calls))
  = Validator.loader (Validator.compiler c).
Proof.
  revert c. induction calls as [|[name schema] calls IH]; intros c; [reflexivity|].
  simpl. rewrite IH.
  destruct (Add_cases c name schema) as [[e H]|[(c' & e & H & _ & Hl)|(c' & s & H & _ & Hl)]];
    rewrite H; simpl; auto.
Qed.

Lemma addAll_schemas (c : Validator.Validator doc compiled) calls name :
  Validator.schemas c !! name = None ->
  name ∉ succeeded c calls ->
  Validator.schemas (addAll c calls) !! name = None.
Proof.
  revert c. induction calls as [|[n schema] calls IH]; intros c Hc Hn; [exact Hc|].
  simpl in *.
  destruct (Add_cases c n schema) as [[e H]|[(c' & e & H & Hs & _)|(c' & s & H & Hs & _)]];
    rewrite H in *; simpl in *.
  - apply IH; assumption.
  - apply IH; [rewrite Hs; exact Hc | exact Hn].
  - apply not_elem_of_cons in Hn. destruct Hn as [Hne Hn].
    apply IH; [|exact Hn]. rewrite Hs, lookup_insert_ne by congruence. exact Hc.
Qed.

(** C8.  For a validator made by [NewValidator] and any calls of [Add]:
    (1) [Add] with text that does not decode returns an error and leaves
    the validator as it was; (2) [Add] of a schema with a reference that
    needs a document from outside returns an error and registers
    nothing, because (3) the loader of the validator's compiler returns
    [ErrSchemaLoad] for every address; and (4) [Validate] with a name
    that no call of [Add] returned without an error for returns
    [ErrSchemaNotFound], whatever the input is. *)
Theorem C8_validator_rejects :
  forall calls,
    let c := addAll Validator.NewValidator calls in
    (forall name schema e,
        UnmarshalJSON schema = inr e ->
        exists e', Add c name schema = (c, Some e'))
    /\ (forall name schema d res url,
        UnmarshalJSON schema = inl d ->
        AddResource name d (Validator.resources (Validator.compiler c)) = inl res ->
        needsRemote Compile res name url ->
        exists e', snd (Add c name schema) = Some e'
                   /\ Validator.schemas (fst (Add c name schema)) = Validator.schemas c)
    /\ (forall url,
        Validator.loader (Validator.compiler c) url = inr (Sentinel ErrSchemaLoad))
    /\ (forall name input,
        name ∉ succeeded Validator.NewValidator calls ->
        Validate c name input = Some (Sentinel ErrSchemaNotFound)).
Proof.
  intros calls c.
  assert (Hload : Validator.loader (Validator.compiler c) = Validator.noopLoader_Load).
  { unfold c. rewrite addAll_loader. reflexivity. }
  split; [|split; [|split]].
  - intros name schema e H. unfold Validator.Add. rewrite H. eauto.
  - intros name schema d res url Hd Hres Hneeds.
    unfold Validator.Add. rewrite Hd, Hres. unfold Validator.compile.
    cbn [Validator.compiler Validator.loader Validator.resources Validator.schemas].
    destruct (Hneeds (Validator.loader (Validator.compiler c))) as [e' He'].
    { rewrite Hload. eexists. reflexivity. }
    rewrite He'. simpl. eauto.
  - intros url. rewrite Hload. reflexivity.
  - intros name input Hn. unfold Validator.Validate, c.
    rewrite (addAll_schemas Validator.NewValidator calls name); [reflexivity | | exact Hn].
    apply lookup_empty.
Qed.
End ValidatorProperties.

(** C8 on the small engine: after a schema "a" has been added, text that
    does not decode and a schema that refers to a document on the network
    are both refused, and the name "b" is not found. *)
Lemma C8_validator_rejects_witness :
  let Add := Validator.Add Validator.Toy.doc Validator.Toy.doc Validator.Toy.UnmarshalJSON
               Validator.Toy.AddResource Validator.Toy.Compile in
  let c := fst (Add Validator.NewValidator "a" "") in
  (exists e', Add c "b" "{" = (c, Some e'))
  /\ (exists e', snd (Add c "b" "https://example.com/s") = Some e'
                 /\ Validator.schemas (fst (Add c "b" "https://example.com/s"))
                    = Validator.schemas c)
  /\ Validator.Validate Validator.Toy.doc Validator.Toy.doc Empty_set
       Validator.Toy.UnmarshalJSON (fun _ _ => None)
       (fun e => match e with end) c "b" "1"
     = Some (Sentinel ErrSchemaNotFound).
Proof.
  intros Add c.
  destruct (C8_validator_rejects Validator.Toy.UnmarshalJSON Validator.Toy.AddResource
              Validator.Toy.Compile Validator.Toy.UnmarshalJSON
              (fun _ _ => None) (fun e : Empty_set => match e with end)
              [("a", "")]) as (H1 & H2 & _ & H4).
  split; [|split].
  - apply (H1 "b" "{" (ErrorText "unexpected end of JSON input")). reflexivity.
  - apply (H2 "b" "https://example.com/s" ["https://example.com/s"]
             [("a", []); ("b", ["https://example.com/s"])] "https://example.com/s").
    + reflexivity.
    + vm_compute. reflexivity.
    + intros load [e He]. unfold Validator.Toy.Compile. simpl. rewrite He. eauto.
  - apply H4.
    assert (Hs : Validator.succeeded Validator.Toy.doc Validator.Toy.doc
                   Validator.Toy.UnmarshalJSON Validator.Toy.AddResource
                   Validator.Toy.Compile Validator.NewValidator [("a", "")] = ["a"])
      by (vm_compute; reflexivity).
    rewrite Hs. apply not_elem_of_cons. split; [discriminate | apply not_elem_of_nil].
Defined.

(** ** Splitting a name at its capitals *)

Lemma str_app_cons (c : ascii) (a b : string) :
  String.String c a +:+ b = String.String c (a +:+ b).
Proof. reflexivity. Qed.

Lemma str_app_nil_l (b : string) : "" +:+ b = b.
Proof. reflexivity. Qed.

Lemma str_app_nil_r (s : string) : s +:+ "" = s.
Proof.
  induction s as [|c s IH]; [reflexivity | rewrite str_app_cons; f_equal; exact IH].
Qed.

Lemma str_app_assoc (a b c : string) : (a +:+ b) +:+ c = a +:+ (b +:+ c).
Proof.
  induction a as [|x a IH]; [reflexivity | rewrite !str_app_cons; f_equal; exact IH].
Qed.

Lemma Join_cons_empty (e : string) (l : list string) :
  Strings.Join (e :: l) "" = e +:+ Strings.Join l "".
Proof.
  destruct l as [|x l]; cbn [Strings.Join].
  - now rewrite str_app_nil_r.
  - reflexivity.
Qed.

Lemma splitLoop_Join (rest : string) : forall prev chunk,
  Strings.Join (Stringz.splitLoop prev chunk rest) "" = chunk +:+ rest.
Proof.
  induction rest as [|c rest IH]; intros prev chunk; cbn [Stringz.splitLoop].
  - cbn [Strings.Join]. now rewrite str_app_nil_r.
  - destruct (Stringz.IsUpper c && negb (Stringz.IsUpper prev)).
    + rewrite Join_cons_empty, IH. reflexivity.
    + rewrite IH, str_app_assoc. reflexivity.
Qed.

Lemma breaksAfter_snoc (s : string) : forall p c,
  breaksAfter p (s +:+ String.String c "")
  = breaksAfter p s || (Stringz.IsUpper c && negb (Stringz.IsUpper (lastByte p s))).
Proof.
  induction s as [|a s IH]; intros p c.
  - rewrite str_app_nil_l. simpl. now rewrite orb_false_r.
  - rewrite str_app_cons. simpl. now rewrite IH, orb_assoc.
Qed.

Lemma lastByte_snoc (s : string) : forall p c, lastByte p (s +:+ String.String c "") = c.
Proof.
  induction s as [|a s IH]; intros p c; [reflexivity | rewrite str_app_cons; apply IH].
Qed.

Lemma splitLoop_head (rest : string) : forall prev c0 r,
  exists r' l, Stringz.splitLoop prev (String.String c0 r) rest = String.String c0 r' :: l.
Proof.
  induction rest as [|c rest IH]; intros prev c0 r; cbn [Stringz.splitLoop].
  - eauto.
  - destruct (Stringz.IsUpper c && negb (Stringz.IsUpper prev)); [eauto|].
    apply (IH c c0 (r +:+ String.String c "")).
Qed.

Lemma splitLoop_chunks (rest : string) : forall c0 r,
  breaksAfter c0 r = false ->
  Forall (fun ch => ch <> "" /\ hasBreak ch = false)
    (Stringz.splitLoop (lastByte c0 r) (String.String c0 r) rest)
  /\ Forall (fun ch => startsUpper ch = true)
       (tail (Stringz.splitLoop (lastByte c0 r) (String.String c0 r) rest)).
Proof.
  induction rest as [|c rest IH]; intros c0 r Hb; cbn [Stringz.splitLoop].
  - split; [|constructor].
    constructor; [split; [discriminate | exact Hb] | constructor].
  - destruct (Stringz.IsUpper c && negb (Stringz.IsUpper (lastByte c0 r))) eqn:E.
    + destruct (IH c "" eq_refl) as [H1 H2]. cbn [lastByte] in H1, H2.
      split.
      * constructor; [split; [discriminate | exact Hb] | exact H1].
      * cbn [tail].
        destruct (splitLoop_head rest c c "") as (r' & l & Hl).
        rewrite Hl in H2 |- *. cbn [tail] in H2.
        constructor; [|exact H2].
        simpl. apply andb_true_iff in E. tauto.
    + assert (Hb' : breaksAfter c0 (r +:+ String.String c "") = false)
        by (rewrite breaksAfter_snoc, Hb, E; reflexivity).
      specialize (IH c0 (r +:+ String.String c "") Hb').
      rewrite lastByte_snoc in IH. exact IH.
Qed.

(** X1 (SplitByCapitals): the chunks, put together again, are the name; no
    chunk is empty; no chunk has an upper case byte right after a byte that
    is not upper case; and every chunk but the first starts with an upper
    case byte. *)
Theorem SplitByCapitals_chunks (s : string) :
  Strings.Join (Stringz.SplitByCapitals s) "" = s
  /\ Forall (fun ch => ch <> "" /\ hasBreak ch = false) (Stringz.SplitByCapitals s)
  /\ Forall (fun ch => startsUpper ch = true) (tail (Stringz.SplitByCapitals s)).
Proof.
  destruct s as [|c s]; cbn [Stringz.SplitByCapitals].
  - repeat split; constructor.
  - split; [apply splitLoop_Join|].
    apply (splitLoop_chunks s c "" eq_refl).
Qed.

(** ** Joining route patterns *)

Lemma TrimRight_snoc (p : string) :
  Strings.TrimRight (p +:+ "/") "/" = Strings.TrimRight p "/".
Proof.
  induction p as [|a p IH]; [reflexivity|].
  rewrite str_app_cons. cbn [Strings.TrimRight]. now rewrite IH.
Qed.

Lemma str_app_not_empty (p q : string) : p <> "" -> String.eqb (p +:+ q) "" = false.
Proof. destruct p; [congruence | reflexivity]. Qed.

Lemma str_eqb_empty (p : string) : p <> "" -> String.eqb p "" = false.
Proof. destruct p; [congruence | reflexivity]. Qed.

(** X2 (joinPatterns): under a prefix that is not empty, one more slash at
    the end of the prefix or at the start of the pattern changes nothing. *)
Theorem joinPatterns_extra_slash (prefix pattern : string) :
  prefix <> "" ->
  Router.joinPatterns (prefix +:+ "/") pattern = Router.joinPatterns prefix pattern
  /\ Router.joinPatterns prefix ("/" +:+ pattern) = Router.joinPatterns prefix pattern.
Proof.
  intros Hp. unfold Router.joinPatterns.
  rewrite (str_app_not_empty prefix "/" Hp), (str_eqb_empty prefix Hp), TrimRight_snoc.
  split; [reflexivity|].
  destruct pattern as [|c q]; [reflexivity|].
  change ("/" +:+ String.String c q) with (String.String "/" (String.String c q)).
  assert (H1 : String.eqb (String.String "/" (String.String c q)) "/" = false)
    by reflexivity.
  assert (H2 : Strings.TrimLeft (String.String "/" (String.String c q)) "/"
               = Strings.TrimLeft (String.String c q) "/") by reflexivity.
  rewrite H1, H2.
  destruct (String.eqb (String.String c q) "/") eqn:E; [|reflexivity].
  apply String.eqb_eq in E. rewrite E. reflexivity.
Qed.

Lemma joinPatterns_extra_slash_witness :
  Router.joinPatterns ("/api" +:+ "/") "users" = Router.joinPatterns "/api" "users"
  /\ Router.joinPatterns "/api" ("/" +:+ "users") = Router.joinPatterns "/api" "users".
Proof. apply (joinPatterns_extra_slash "/api" "users"). discriminate. Defined.

Lemma doubleSlash_tail (a : ascii) (s : string) :
  doubleSlash (String.String a s) = false -> doubleSlash s = false.
Proof. cbn [doubleSlash]. intros H. apply orb_false_iff in H. tauto. Qed.

Lemma doubleSlash_TrimLeft (s : string) :
  doubleSlash s = false -> doubleSlash (Strings.TrimLeft s "/") = false.
Proof.
  induction s as [|a s IH]; intros H; cbn [Strings.TrimLeft]; [reflexivity|].
  destruct (Ascii.eqb a "/"); [apply IH, (doubleSlash_tail a), H | exact H].
Qed.

Lemma startsSlash_TrimLeft (s : string) : startsSlash (Strings.TrimLeft s "/") = false.
Proof.
  induction s as [|a s IH]; cbn [Strings.TrimLeft]; [reflexivity|].
  destruct (Ascii.eqb a "/") eqn:E; [exact IH | simpl; exact E].
Qed.

Lemma TrimRight_prefix (s : string) : exists t, s = Strings.TrimRight s "/" +:+ t.
Proof.
  induction s as [|a s [t IH]]; [exists ""; reflexivity|].
  cbn [Strings.TrimRight].
  destruct (Strings.TrimRight s "/") as [|b r] eqn:E.
  - destruct (Ascii.eqb a "/").
    + exists (String.String a s). reflexivity.
    + exists s. reflexivity.
  - exists t. rewrite str_app_cons. f_equal. exact IH.
Qed.

Lemma endsSlash_TrimRight (s : string) : endsSlash (Strings.TrimRight s "/") = false.
Proof.
  induction s as [|a s IH]; [reflexivity|].
  cbn [Strings.TrimRight].
  destruct (Strings.TrimRight s "/") as [|b r] eqn:E.
  - destruct (Ascii.eqb a "/") eqn:Ea; [reflexivity | simpl; exact Ea].
  - exact IH.
Qed.

Lemma startsSlash_app (a b : string) : a <> "" -> startsSlash (a +:+ b) = startsSlash a.
Proof. destruct a; [congruence | reflexivity]. Qed.

Lemma doubleSlash_app_l (a b : string) :
  doubleSlash (a +:+ b) = false -> doubleSlash a = false.
Proof.
  induction a as [|x a IH]; [reflexivity|].
  rewrite str_app_cons. cbn [doubleSlash]. intros H.
  apply orb_false_iff in H. destruct H as [H1 H2].
  rewrite (IH H2), orb_false_r.
  destruct a as [|y a]; [now rewrite andb_false_r|].
  rewrite startsSlash_app in H1 by discriminate. exact H1.
Qed.

Lemma doubleSlash_TrimRight (s : string) :
  doubleSlash s = false -> doubleSlash (Strings.TrimRight s "/") = false.
Proof.
  intros H. destruct (TrimRight_prefix s) as [t Ht].
  rewrite Ht in H. exact (doubleSlash_app_l _ _ H).
Qed.

Lemma doubleSlash_join (a b : string) :
  doubleSlash a = false -> endsSlash a = false ->
  doubleSlash b = false -> startsSlash b = false ->
  doubleSlash (a +:+ "/" +:+ b) = false.
Proof.
  intros Ha Hea Hb Hsb.
  induction a as [|x a IH].
  - rewrite str_app_nil_l. change ("/" +:+ b) with (String.String "/" b).
    cbn [doubleSlash]. now rewrite Hsb, Hb.
  - rewrite str_app_cons. cbn [doubleSlash].
    destruct a as [|y a].
    + rewrite str_app_nil_l in *. simpl in Hea.
      rewrite Hea. cbn [andb orb]. apply IH; reflexivity.
    + rewrite IH.
      * rewrite orb_false_r, startsSlash_app by discriminate.
        cbn [doubleSlash] in Ha. apply orb_false_iff in Ha. tauto.
      * exact (doubleSlash_tail _ _ Ha).
      * exact Hea.
Qed.

(** X3 (joinPatterns): joining a prefix and a pattern that have no two
    slashes in a row gives a pattern that has none either, however many
    slashes meet where the two are joined. *)
Theorem joinPatterns_no_double_slash (prefix pattern : string) :
  doubleSlash prefix = false -> doubleSlash pattern = false ->
  doubleSlash (Router.joinPatterns prefix pattern) = false.
Proof.
  intros Hp Hq. unfold Router.joinPatterns.
  destruct (String.eqb prefix ""); [exact Hq|].
  destruct (String.eqb pattern "/"); [exact (doubleSlash_TrimRight _ Hp)|].
  destruct (String.eqb (Strings.TrimLeft pattern "/") "");
    [exact (doubleSlash_TrimRight _ Hp)|].
  apply doubleSlash_join.
  - exact (doubleSlash_TrimRight _ Hp).
  - apply endsSlash_TrimRight.
  - exact (doubleSlash_TrimLeft _ Hq).
  - apply startsSlash_TrimLeft.
Qed.

Lemma joinPatterns_no_double_slash_witness :
  doubleSlash (Router.joinPatterns "/api/" "/users/") = false.
Proof. apply (joinPatterns_no_double_slash "/api/" "/users/"); reflexivity. Defined.

(** ** Middleware and the list of routes *)

Lemma applyMiddleware_fold_right {Handler : Type} (h : Handler)
    (mw : list (Router.Middleware Handler)) :
  Router.applyMiddleware Handler h mw = fold_right (fun m h => m h) h mw.
Proof.
  unfold Router.applyMiddleware.
  rewrite <- (rev_involutive mw) at 2.
  symmetry. apply (fold_left_rev_right (fun (m : Router.Middleware Handler) h => m h)).
Qed.

(** On applyMiddleware, Router.Handle: the handler registered with the
    mux is the route's handler wrapped by the route middleware and then by
    the global middleware, the first of each list outermost. *)
Theorem Handle_wrap_order {Handler : Type} (global route : list (Router.Middleware Handler))
    (handler : Handler) :
  Router.Handle_wrap Handler global route handler
  = fold_right (fun m h => m h) handler (global ++ route).
Proof.
  unfold Router.Handle_wrap.
  rewrite !applyMiddleware_fold_right. symmetry. apply fold_right_app.
Qed.

Lemma getOrAddRouteInfo_Last (sb : Router.sharedRoutes) (i : Router.Info) :
  exists l, Router.Last (Router.getOrAddRouteInfo sb i) = Some l
            /\ Router.Method l = Router.Method i
            /\ Router.FullPattern l = Router.FullPattern i.
Proof.
  unfold Router.getOrAddRouteInfo, Router.Last, Router.Append.
  destruct (last sb) as [l|] eqn:E.
  - destruct (String.eqb (Router.Method l) (Router.Method i)) eqn:E1;
      destruct (String.eqb (Router.FullPattern l) (Router.FullPattern i)) eqn:E2;
      cbn [negb orb]; try (exists i; rewrite last_snoc; auto).
    exists l. apply String.eqb_eq in E1, E2. auto.
  - exists i. rewrite last_snoc. auto.
Qed.

(** X4 (getOrAddRouteInfo): after a route has been recorded, asking again
    for a route of the same method and full pattern records nothing and
    returns the route that is there, whatever else the two differ in. *)
Theorem getOrAddRouteInfo_reuse (sb : Router.sharedRoutes) (i j : Router.Info) :
  Router.Method j = Router.Method i ->
  Router.FullPattern j = Router.FullPattern i ->
  Router.getOrAddRouteInfo (Router.getOrAddRouteInfo sb i) j = Router.getOrAddRouteInfo sb i.
Proof.
  intros Hm Hp.
  destruct (getOrAddRouteInfo_Last sb i) as (l & Hl & H1 & H2).
  unfold Router.getOrAddRouteInfo at 1. rewrite Hl, Hm, Hp, H1, H2, !String.eqb_refl.
  reflexivity.
Qed.

Lemma getOrAddRouteInfo_reuse_witness :
  Router.getOrAddRouteInfo
    (Router.getOrAddRouteInfo [] (Router.mkInfo "GET" "/a" "/a" []))
    (Router.mkInfo "GET" "/a" "a" [])
  = Router.getOrAddRouteInfo [] (Router.mkInfo "GET" "/a" "/a" []).
Proof.
  apply (getOrAddRouteInfo_reuse [] (Router.mkInfo "GET" "/a" "/a" [])
           (Router.mkInfo "GET" "/a" "a" [])); reflexivity.
Defined.

Lemma Pop_snoc (sb : Router.sharedRoutes) (i : Router.Info) :
  Router.Pop (sb ++ [i]) = (sb, Some i).
Proof.
  unfold Router.Pop. rewrite last_snoc, length_app. cbn [length].
  replace (length sb + 1 - 1)%nat with (length sb) by lia.
  now rewrite take_app_length.
Qed.

(** X5 (Pop after getOrAddRouteInfo, as Mount does): the pop takes away
    the route that was just recorded when one was recorded; when the last
    route had the same method and full pattern none was recorded, and the
    pop takes away that older route. *)
Theorem Pop_getOrAddRouteInfo (sb : Router.sharedRoutes) (i l : Router.Info) :
  ((forall l', Router.Last sb = Some l' ->
      Router.Method l' <> Router.Method i \/ Router.FullPattern l' <> Router.FullPattern i) ->
   Router.Pop (Router.getOrAddRouteInfo sb i) = (sb, Some i))
  /\ (Router.Method l = Router.Method i -> Router.FullPattern l = Router.FullPattern i ->
      Router.Pop (Router.getOrAddRouteInfo (sb ++ [l]) i) = (sb, Some l)).
Proof.
  split.
  - intros H. unfold Router.getOrAddRouteInfo, Router.Append.
    destruct (Router.Last sb) as [l'|] eqn:E; [|apply Pop_snoc].
    destruct (H l' eq_refl) as [Hn | Hn]; apply String.eqb_neq in Hn; rewrite Hn.
    + apply Pop_snoc.
    + rewrite orb_true_r. apply Pop_snoc.
  - intros Hm Hp. unfold Router.getOrAddRouteInfo, Router.Last.
    rewrite last_snoc, Hm, Hp, !String.eqb_refl. apply Pop_snoc.
Qed.

Lemma Pop_getOrAddRouteInfo_witness :
  Router.Pop (Router.getOrAddRouteInfo [] (Router.mkInfo "" "/api/" "/api/" []))
  = ([], Some (Router.mkInfo "" "/api/" "/api/" []))
  /\ Router.Pop (Router.getOrAddRouteInfo
                   ([] ++ [Router.mkInfo "" "/api/" "/api/" []])
                   (Router.mkInfo "" "/api/" "/api/" []))
     = ([], Some (Router.mkInfo "" "/api/" "/api/" [])).
Proof.
  pose proof (Pop_getOrAddRouteInfo [] (Router.mkInfo "" "/api/" "/api/" [])
                (Router.mkInfo "" "/api/" "/api/" [])) as [H1 H2].
  split.
  - apply H1. intros l' Hl. discriminate Hl.
  - apply H2; reflexivity.
Defined.

(** ** Text tables *)

Lemma maxWidth_fold (items : list string) : forall a : Z,
  let w := fold_left (fun maxWidth item =>
                        if Z.of_nat (String.length item) >? maxWidth
                        then Z.of_nat (String.length item) else maxWidth) items a in
  a <= w
  /\ (forall item, item ∈ items -> Z.of_nat (String.length item) <= w)
  /\ (w = a \/ exists item, item ∈ items /\ w = Z.of_nat (String.length item)).
Proof.
  induction items as [|x items IH]; intros a; cbn [fold_left].
  - split; [lia|]. split; [|now left]. intros item H. inversion H.
  - cbv zeta in IH.
    destruct (IH (if Z.of_nat (String.length x) >? a
                  then Z.of_nat (String.length x) else a)) as (H1 & H2 & H3).
    cbv zeta.
    destruct (Z.gtb_spec (Z.of_nat (String.length x)) a) as [Hgt | Hle].
    + split; [lia|]. split.
      * intros item Hin. apply elem_of_cons in Hin as [-> | Hin]; [lia | auto].
      * right. destruct H3 as [-> | (item & Hin & ->)].
        -- exists x. split; [left | reflexivity].
        -- exists item. split; [now right | reflexivity].
    + split; [lia|]. split.
      * intros item Hin. apply elem_of_cons in Hin as [-> | Hin]; [lia | auto].
      * destruct H3 as [-> | (item & Hin & ->)]; [now left|].
        right. exists item. split; [now right | reflexivity].
Qed.

(** On calculateMaxWidth: the width is at least the minimum, the length
    of the column's name and the length of every item, and it is one of
    these. *)
Theorem calculateMaxWidth_bounds (columnName : string) (stringData : list string)
    (minWidth : Z) :
  let w := Stringz.calculateMaxWidth columnName stringData minWidth in
  minWidth <= w
  /\ Z.of_nat (String.length columnName) <= w
  /\ (forall item, item ∈ stringData -> Z.of_nat (String.length item) <= w)
  /\ (w = minWidth \/ w = Z.of_nat (String.length columnName)
      \/ exists item, item ∈ stringData /\ w = Z.of_nat (String.length item)).
Proof.
  unfold Stringz.calculateMaxWidth.
  pose proof (maxWidth_fold stringData (Z.of_nat (String.length columnName))) as H.
  cbv zeta in H |- *. destruct H as (H1 & H2 & H3).
  destruct (Z.ltb_spec
    (fold_left (fun maxWidth item =>
                  if Z.of_nat (String.length item) >? maxWidth
                  then Z.of_nat (String.length item) else maxWidth)
       stringData (Z.of_nat (String.length columnName))) minWidth) as [Hlt | Hge].
  - split; [lia|]. split; [lia|]. split; [|now left].
    intros item Hin. specialize (H2 item Hin). lia.
  - split; [lia|]. split; [lia|]. split; [exact H2|]. right. exact H3.
Qed.

Lemma Split_not_nil (s : string) (sep : ascii) : Strings.Split s sep <> [].
Proof.
  destruct s as [|c s]; cbn [Strings.Split]; [discriminate|].
  destruct (Ascii.eqb c sep); [discriminate|].
  destruct (Strings.Split s sep); discriminate.
Qed.

Lemma Split_no_sep (s : string) (sep : ascii) :
  Forall (fun line => contains sep line = false) (Strings.Split s sep).
Proof.
  induction s as [|c s IH]; cbn [Strings.Split].
  - repeat constructor.
  - destruct (Ascii.eqb c sep) eqn:E; [constructor; [reflexivity | exact IH]|].
    destruct (Strings.Split s sep) as [|head tail]; [repeat constructor; simpl; now rewrite E|].
    inversion IH as [|? ? Hh Ht]; subst.
    constructor; [simpl; now rewrite E, Hh | exact Ht].
Qed.

Lemma Split_line (a b : string) (sep : ascii) :
  contains sep a = false ->
  Strings.Split (a +:+ String.String sep b) sep = a :: Strings.Split b sep.
Proof.
  induction a as [|c a IH]; intros H.
  - rewrite str_app_nil_l. cbn [Strings.Split]. now rewrite Ascii.eqb_refl.
  - rewrite str_app_cons. cbn [Strings.Split contains] in H |- *.
    apply orb_false_iff in H as [Hc Ha].
    now rewrite Hc, (IH Ha).
Qed.

Lemma Split_last (a : string) (sep : ascii) :
  contains sep a = false -> Strings.Split a sep = [a].
Proof.
  induction a as [|c a IH]; intros H; [reflexivity|].
  cbn [Strings.Split contains] in H |- *.
  apply orb_false_iff in H as [Hc Ha].
  now rewrite Hc, (IH Ha).
Qed.

Lemma Split_Join (lines : list string) (sep : ascii) :
  lines <> [] ->
  Forall (fun line => contains sep line = false) lines ->
  Strings.Split (Strings.Join lines (String.String sep "")) sep = lines.
Proof.
  induction lines as [|a lines IH]; intros Hne H; [congruence|].
  inversion H as [|? ? Ha Hl]; subst.
  destruct lines as [|b lines].
  - cbn [Strings.Join]. now apply Split_last.
  - change (Strings.Join (a :: b :: lines) (String.String sep ""))
      with (a +:+ String.String sep "" +:+ Strings.Join (b :: lines) (String.String sep "")).
    change (String.String sep "" +:+ Strings.Join (b :: lines) (String.String sep ""))
      with (String.String sep (Strings.Join (b :: lines) (String.String sep ""))).
    rewrite (Split_line _ _ _ Ha), IH; [reflexivity | discriminate | exact Hl].
Qed.

Lemma contains_app (c : ascii) (a b : string) :
  contains c (a +:+ b) = contains c a || contains c b.
Proof.
  induction a as [|x a IH]; [reflexivity|].
  rewrite str_app_cons. cbn [contains]. now rewrite IH, orb_assoc.
Qed.

(** X6 (PrefixBorder): for a prefix without a line feed, the lines of the
    result are the lines of the text, in order and as many, each with the
    prefix put before it. *)
Theorem PrefixBorder_lines (prefix s : string) :
  contains "010" prefix = false ->
  Strings.Split (Stringz.PrefixBorder prefix s) "010"
  = map (fun line => prefix +:+ line) (Strings.Split s "010").
Proof.
  intros Hp. unfold Stringz.PrefixBorder. apply Split_Join.
  - pose proof (Split_not_nil s "010") as Hne.
    destruct (Strings.Split s "010"); [congruence | discriminate].
  - apply Forall_fmap. eapply Forall_impl; [apply Split_no_sep|].
    intros line Hl. cbn. now rewrite contains_app, Hp, Hl.
Qed.

Lemma PrefixBorder_lines_witness :
  Strings.Split (Stringz.PrefixBorder "| " "ab") "010"
  = map (fun line => "| " +:+ line) (Strings.Split "ab" "010").
Proof. apply (PrefixBorder_lines "| " "ab"). reflexivity. Defined.

(** ** The integer parsers *)

Lemma uintLoop_range (s0 : string) (maxVal : Z) (s : string) : forall n r e,
  0 <= n <= maxVal ->
  Strconv.uintLoop s0 maxVal n s = (r, e) ->
  0 <= r <= maxVal /\ (errors_Is e strconv_ErrSyntax = true -> r = 0).
Proof.
  induction s as [|c s IH]; intros n r e Hn; cbn [Strconv.uintLoop].
  - intros [= <- <-]. split; [exact Hn | discriminate].
  - cbv zeta.
    destruct ((48 <=? Z.of_nat (nat_of_ascii c)) && (Z.of_nat (nat_of_ascii c) <=? 57)).
    + destruct (n >=? Strconv.maxUint64 / 10 + 1).
      * intros [= <- <-]. split; [lia | discriminate].
      * destruct (((((n * 10) mod 2 ^ 64 + (Z.of_nat (nat_of_ascii c) - 48)) mod 2 ^ 64
                    <? (n * 10) mod 2 ^ 64))
                  || ((((n * 10) mod 2 ^ 64 + (Z.of_nat (nat_of_ascii c) - 48)) mod 2 ^ 64
                       >? maxVal))) eqn:E.
        -- intros [= <- <-]. split; [lia | discriminate].
        -- apply IH. apply orb_false_iff in E as [_ E].
           rewrite Z.gtb_ltb in E. apply Z.ltb_ge in E.
           split; [|exact E]. apply Z.mod_pos_bound. lia.
    + intros [= <- <-]. split; [lia | reflexivity].
Qed.

Lemma ParseUint_range (s : string) (k : intkind) (r : Z) (e : error) :
  Strconv.ParseUint s (bitSize k) = (r, e) ->
  0 <= r <= 2 ^ Strconv.bits (bitSize k) - 1
  /\ (errors_Is e strconv_ErrSyntax = true -> r = 0).
Proof.
  assert (Hmax : 0 <= 2 ^ Strconv.bits (bitSize k) - 1) by (destruct k; vm_compute; discriminate).
  unfold Strconv.ParseUint. destruct s as [|c s].
  - intros [= <- <-]. split; [lia | reflexivity].
  - apply uintLoop_range. lia.
Qed.

Lemma ParseInt_range (s : string) (k : intkind) (i : Z) (e : error) :
  Strconv.ParseInt s (bitSize k) = (i, e) ->
  - 2 ^ (Strconv.bits (bitSize k) - 1) <= i < 2 ^ (Strconv.bits (bitSize k) - 1)
  /\ (errors_Is e strconv_ErrSyntax = true -> i = 0).
Proof.
  assert (Hpow : 2 ^ Strconv.bits (bitSize k) = 2 * 2 ^ (Strconv.bits (bitSize k) - 1)
                 /\ 0 < 2 ^ (Strconv.bits (bitSize k) - 1))
    by (destruct k; vm_compute; split; reflexivity).
  destruct Hpow as [Hpow Hpos].
  unfold Strconv.ParseInt. destruct s as [|c s].
  - intros [= <- <-]. split; [lia | reflexivity].
  - cbv zeta.
    destruct (Strconv.ParseUint
                (if Ascii.eqb c "+" || Ascii.eqb c "-" then s else String.String c s)
                (bitSize k)) as [un e'] eqn:EU.
    apply ParseUint_range in EU as [Hun _].
    assert (Hrest : forall e0,
      (if negb (Ascii.eqb c "-") && (un >=? 2 ^ (Strconv.bits (bitSize k) - 1))
       then (2 ^ (Strconv.bits (bitSize k) - 1) - 1,
             Some (Strconv.rangeError "ParseInt" (String.String c s)))
       else if Ascii.eqb c "-" && (un >? 2 ^ (Strconv.bits (bitSize k) - 1))
            then (- 2 ^ (Strconv.bits (bitSize k) - 1),
                  Some (Strconv.rangeError "ParseInt" (String.String c s)))
            else (if Ascii.eqb c "-" then - un else un, None)) = (i, e0) ->
      - 2 ^ (Strconv.bits (bitSize k) - 1) <= i < 2 ^ (Strconv.bits (bitSize k) - 1)
      /\ (errors_Is e0 strconv_ErrSyntax = true -> i = 0)).
    { intros e0. destruct (Ascii.eqb c "-"); cbn [negb andb].
      - destruct (Z.gtb_spec un (2 ^ (Strconv.bits (bitSize k) - 1))).
        + intros [= <- <-]. split; [lia | discriminate].
        + intros [= <- <-]. split; [lia | discriminate].
      - destruct (Z.geb_spec un (2 ^ (Strconv.bits (bitSize k) - 1))).
        + intros [= <- <-]. split; [lia | discriminate].
        + intros [= <- <-]. split; [lia | discriminate]. }
    destruct e' as [[| ? ? [] | | | | | | | | | ]|]; try apply Hrest.
    intros [= <- <-]. split; [lia | reflexivity].
Qed.

Lemma to_int_small (k : intkind) (i : Z) :
  - 2 ^ (Strconv.bits (bitSize k) - 1) <= i < 2 ^ (Strconv.bits (bitSize k) - 1) ->
  to_int k i = i.
Proof.
  unfold to_int. intros H.
  assert (Hpow : 2 ^ Strconv.bits (bitSize k) = 2 * 2 ^ (Strconv.bits (bitSize k) - 1))
    by (destruct k; vm_compute; reflexivity).
  rewrite Z.mod_small by lia. lia.
Qed.

Lemma to_uint_small (k : intkind) (i : Z) :
  0 <= i <= 2 ^ Strconv.bits (bitSize k) - 1 -> to_uint k i = i.
Proof. unfold to_uint. intros H. apply Z.mod_small. lia. Qed.

(** X7 (ParseInt, ParseUint): on an integer target of any size the parser
    stores the very number strconv returns, which always fits the target,
    so the conversion never wraps; the target is overwritten also when an
    error comes back, with 0 when the text is not a number. *)
Theorem integer_parsers_store (k : intkind) (z : Z) (p : string) (rest : list string) :
  (exists v e,
      Param.ParseInt (VInt k z) (p :: rest) = Ret (VInt k v, e)
      /\ Strconv.ParseInt p (bitSize k) = (v, e)
      /\ - 2 ^ (Strconv.bits (bitSize k) - 1) <= v < 2 ^ (Strconv.bits (bitSize k) - 1)
      /\ (errors_Is e strconv_ErrSyntax = true -> v = 0))
  /\ (exists v e,
      Param.ParseUint (VUint k z) (p :: rest) = Ret (VUint k v, e)
      /\ Strconv.ParseUint p (bitSize k) = (v, e)
      /\ 0 <= v < 2 ^ Strconv.bits (bitSize k)
      /\ (errors_Is e strconv_ErrSyntax = true -> v = 0)).
Proof.
  split.
  - destruct (Strconv.ParseInt p (bitSize k)) as [v e] eqn:E.
    destruct (ParseInt_range _ _ _ _ E) as [Hr Hs].
    exists v, e. cbn [Param.ParseInt]. rewrite E, (to_int_small k v Hr). auto.
  - destruct (Strconv.ParseUint p (bitSize k)) as [v e] eqn:E.
    destruct (ParseUint_range _ _ _ _ E) as [Hr Hs].
    exists v, e. cbn [Param.ParseUint]. rewrite E, (to_uint_small k v Hr).
    repeat split; auto; lia.
Qed.

(** ** Extraction: defaults, errors and the fields written *)

(** X8 (Opts.Parse under Path.Extract and Query.Extract): a path parameter
    never takes the default, as the router's value for it is always handed
    over, be it empty; a query parameter takes none when the query has a
    value for its name. *)
Theorem Extract_default_unused (T : rtype) (r : Extractor.Request) (name d1 d2 : string)
    (parser : option Param.Parser) (pv : string -> Extractor.Request -> string)
    (x : gvalue) :
  Extractor.Path_Extract T r (Param.Opts.mk name d1 parser pv) x
  = Extractor.Path_Extract T r (Param.Opts.mk name d2 parser pv) x
  /\ (forall v vs, Extractor.URL_Query r !! name = Some (v :: vs) ->
      Extractor.Query_Extract T r (Param.Opts.mk name d1 parser pv) x
      = Extractor.Query_Extract T r (Param.Opts.mk name d2 parser pv) x).
Proof.
  split; [reflexivity|].
  intros v vs H. unfold Extractor.Query_Extract, Extractor.GetAndSetQueryValues.
  cbn [Param.Opts.Name]. rewrite H. reflexivity.
Qed.

Lemma Extract_default_unused_witness :
  Extractor.Query_Extract (TInt K0)
    (Extractor.mkRequest {[ "n" := ["7"] ]} None 0)
    (Param.Opts.mk "n" "1" (Some Param.ParseInt) (fun _ _ => "")) (VObj "Q" [])
  = Extractor.Query_Extract (TInt K0)
      (Extractor.mkRequest {[ "n" := ["7"] ]} None 0)
      (Param.Opts.mk "n" "2" (Some Param.ParseInt) (fun _ _ => "")) (VObj "Q" []).
Proof.
  apply (proj2 (Extract_default_unused (TInt K0)
                  (Extractor.mkRequest {[ "n" := ["7"] ]} None 0) "n" "1" "2"
                  (Some Param.ParseInt) (fun _ _ => "") (VObj "Q" [])) "7" []).
  reflexivity.
Defined.

Lemma runAll_app_ok (collect : bool) (fns1 : list Extractor.extractorFn) : forall fns2 acc r args a1,
  Extractor.runAll collect fns1 [] r args = Ret (a1, None) ->
  Extractor.runAll collect (fns1 ++ fns2) acc r args = Extractor.runAll collect fns2 acc r a1.
Proof.
  induction fns1 as [|fn fns1 IH]; intros fns2 acc r args a1; cbn [Extractor.runAll app].
  - intros [= <-]. reflexivity.
  - destruct (fn r args) as [[a [e|]]|m]; [| apply IH | discriminate].
    destruct collect; cbn [negb]; [|discriminate].
    intros H. exfalso. revert H. clear.
    assert (G : forall fns acc a, acc <> [] ->
              Extractor.runAll true fns acc r a <> Ret (a1, None)).
    { induction fns as [|f fns IHf]; intros acc a0 Hacc; cbn [Extractor.runAll].
      - destruct acc; [congruence | discriminate].
      - destruct (f r a0) as [[a' [e'|]]|m]; [| apply IHf, Hacc | discriminate].
        apply IHf. destruct acc; discriminate. }
    apply G. discriminate.
Qed.

(** X9 (the function extractorFor returns, errors not collected): when a
    field's extractor fails after those before it have succeeded, its error
    is returned as it is and the extractors after it are not run. *)
Theorem runAll_fail_fast (fns1 fns2 : list Extractor.extractorFn) (fn : Extractor.extractorFn)
    (r : Extractor.Request) (args a1 a2 : gvalue) (e : err) :
  Extractor.runAll false fns1 [] r args = Ret (a1, None) ->
  fn r a1 = Ret (a2, Some e) ->
  Extractor.runAll false (fns1 ++ fn :: fns2) [] r args = Ret (a2, Some e).
Proof.
  intros H1 H2. rewrite (runAll_app_ok false fns1 (fn :: fns2) [] r args a1 H1).
  cbn [Extractor.runAll]. rewrite H2. reflexivity.
Qed.

Lemma runAll_fail_fast_witness :
  Extractor.runAll false
    ([(fun _ a => Ret (a, None))]
     ++ (fun _ a => Ret (a, Some (Sentinel ErrParamFailedToExtract)))
        :: [(fun _ _ => Panic "not run")])
    [] (Extractor.mkRequest ∅ None 0) (VObj "In" [])
  = Ret (VObj "In" [], Some (Sentinel ErrParamFailedToExtract)).
Proof.
  apply (runAll_fail_fast [(fun _ a => Ret (a, None))] [(fun _ _ => Panic "not run")]
           (fun _ a => Ret (a, Some (Sentinel ErrParamFailedToExtract)))
           (Extractor.mkRequest ∅ None 0) (VObj "In" []) (VObj "In" []) (VObj "In" []));
    reflexivity.
Defined.

Lemma runAll_acc (fns : list Extractor.extractorFn) : forall acc r args,
  Extractor.runAll true fns acc r args
  = obind (Extractor.runAll true fns [] r args) (fun '(a, e) =>
      Ret (a, joinAll (acc ++ errsOf e))).
Proof.
  induction fns as [|fn fns IH]; intros acc r args; cbn [Extractor.runAll].
  - cbn [obind errsOf]. rewrite app_nil_r. reflexivity.
  - destruct (fn r args) as [[a [e|]]|m]; cbn [negb]; [| apply IH | reflexivity].
    rewrite (IH (acc ++ [e])), (IH ([] ++ [e])).
    destruct (Extractor.runAll true fns [] r a) as [[a' e']|m]; [|reflexivity].
    cbn [obind app]. rewrite <- app_assoc. reflexivity.
Qed.

Lemma errsOf_Is (es : list err) (s : sentinel) :
  errors_Is (joinAll es) s = existsb (fun e => err_Is e s) es.
Proof. destruct es; reflexivity. Qed.

Lemma runAll_joined (fns : list Extractor.extractorFn) : forall r args a e,
  Extractor.runAll true fns [] r args = Ret (a, e) ->
  e = joinAll (errsOf e).
Proof.
  induction fns as [|fn fns IH]; intros r args a e; cbn [Extractor.runAll].
  - intros [= <- <-]. reflexivity.
  - destruct (fn r args) as [[a0 [e0|]]|m]; cbn [negb]; [| apply IH | discriminate].
    rewrite runAll_acc.
    destruct (Extractor.runAll true fns [] r a0) as [[a' e']|m]; [|discriminate].
    cbn [obind app]. intros [= <- <-]. reflexivity.
Qed.

(** X10 (the function extractorFor returns, errors collected): running the
    extractors of two lists of fields one after the other gives an error
    that [errors.Is] matches against a target exactly when the error of the
    one list or of the other does. *)
Theorem runAll_collect_app (fns1 fns2 : list Extractor.extractorFn)
    (r : Extractor.Request) (args a1 a2 : gvalue) (e1 e2 : error) :
  Extractor.runAll true fns1 [] r args = Ret (a1, e1) ->
  Extractor.runAll true fns2 [] r a1 = Ret (a2, e2) ->
  exists e, Extractor.runAll true (fns1 ++ fns2) [] r args = Ret (a2, e)
            /\ forall s, errors_Is e s = errors_Is e1 s || errors_Is e2 s.
Proof.
  intros H1 H2.
  assert (G : forall fns acc args0 a0 e0,
    Extractor.runAll true fns acc r args0 = Ret (a0, e0) ->
    Extractor.runAll true (fns ++ fns2) acc r args0
    = Extractor.runAll true fns2 (errsOf e0) r a0).
  { induction fns as [|fn fns IH]; intros acc args0 a0 e0; cbn [Extractor.runAll app].
    - intros [= <- <-]. destruct acc; reflexivity.
    - destruct (fn r args0) as [[a [e|]]|m]; cbn [negb]; [apply IH | apply IH | discriminate]. }
  rewrite (G fns1 [] args a1 e1 H1), runAll_acc, H2. cbn [obind].
  eexists. split; [reflexivity|].
  intros s. rewrite errsOf_Is, existsb_app.
  rewrite (runAll_joined _ _ _ _ _ H1) at 2. rewrite (runAll_joined _ _ _ _ _ H2) at 2.
  now rewrite !errsOf_Is.
Qed.

Lemma runAll_collect_app_witness :
  exists e,
    Extractor.runAll true
      ([(fun _ a => Ret (a, Some (Sentinel ErrJSONDecode)))]
       ++ [(fun _ a => Ret (a, Some (Sentinel ErrParamFailedToExtract)))])
      [] (Extractor.mkRequest ∅ None 0) (VObj "In" [])
    = Ret (VObj "In" [], e)
    /\ forall s, errors_Is e s
                 = errors_Is (Some (Join [Sentinel ErrJSONDecode])) s
                   || errors_Is (Some (Join [Sentinel ErrParamFailedToExtract])) s.
Proof.
  apply (runAll_collect_app [(fun _ a => Ret (a, Some (Sentinel ErrJSONDecode)))]
           [(fun _ a => Ret (a, Some (Sentinel ErrParamFailedToExtract)))]
           (Extractor.mkRequest ∅ None 0) (VObj "In" []) (VObj "In" []) (VObj "In" []));
    reflexivity.
Defined.

Lemma assoc_get_set_ne {A} (k k' : string) (a : A) (l : list (string * A)) :
  k <> k' -> assoc_get k (assoc_set k' a l) = assoc_get k l.
Proof.
  intros Hne. induction l as [|[k0 a0] l IH]; cbn [assoc_set assoc_get].
  - destruct (String.eqb_spec k' k); [congruence | reflexivity].
  - destruct (String.eqb_spec k0 k') as [->|Hk]; cbn [assoc_get].
    + destruct (String.eqb_spec k' k); [congruence | reflexivity].
    + destruct (String.eqb_spec k0 k); [reflexivity | exact IH].
Qed.

Lemma getField_setField_ne (v : gvalue) (f g : StructField) (x : gvalue) :
  Reflect.Name g <> Reflect.Name f -> getField (setField v f x) g = getField v g.
Proof.
  intros Hne. destruct v; cbn [setField getField]; try reflexivity.
  now rewrite assoc_get_set_ne.
Qed.

Section Frame.
Variable ds : decls.
Variable Extractor_of :
  rtype -> option (Extractor.Request -> gvalue -> outcome (gvalue * error)).
Variable ParamExtractor_of :
  rtype -> option (string * (Extractor.Request -> Extractor.Opts -> gvalue
                             -> outcome (gvalue * error))).
Variable extractors : rtype -> option (Extractor.Request -> outcome (gvalue * error)).
Variable rec : rtype -> Extractor.extractorForOpts -> option (Extractor.extractorFn + err).

Local Abbreviation extractorFromField :=
  (Extractor.extractorFromField ds Extractor_of ParamExtractor_of extractors rec).
Local Abbreviation extractorFromFieldWithRelated :=
  (Extractor.extractorFromFieldWithRelated ds Extractor_of ParamExtractor_of extractors rec).

Lemma obind_set_frame (c : outcome (gvalue * error)) (args args' : gvalue)
    (field g : StructField) (e : error) :
  obind c (fun '(v, e) => Ret (setField args field v, e)) = Ret (args', e) ->
  Reflect.Name g <> Reflect.Name field -> getField args' g = getField args g.
Proof.
  destruct c as [[v e0]|m]; cbn [obind]; [|discriminate].
  intros [= <- <-] Hne. now apply getField_setField_ne.
Qed.

Lemma extractorFromField_frame field opts fn r args args' e g :
  extractorFromField field opts = Some (inl fn) ->
  fn r args = Ret (args', e) ->
  Reflect.Name g <> Reflect.Name field ->
  getField args' g = getField args g.
Proof.
  unfold Extractor.extractorFromField. cbn [Extractor.firstOf].
  unfold Extractor.extractHTTPRequest, Extractor.extractHTTPResponse,
    Extractor.extractExtractor, Extractor.extractParamExtractor,
    Extractor.extractFromExtractors, Extractor.extractFromStructOfExtractors.
  destruct (negb (bool_decide (Typ field = Extractor.httpReqType)));
    [|intros [= <-] [= <- <-] Hne; now apply getField_setField_ne].
  destruct (negb (bool_decide (Typ field = Extractor.httpRespType)));
    [|intros [= <-] [= <- <-] Hne; now apply getField_setField_ne].
  destruct (method Extractor_of (TPtr (Typ field))) as [Extract|];
    [intros [= <-]; apply obind_set_frame|].
  destruct (method ParamExtractor_of (TPtr (Typ field))) as [[source Extract]|];
    [intros [= <-]; apply obind_set_frame|].
  destruct (extractors (Typ field)) as [ExtractType|].
  { intros [= <-]. destruct (ExtractType r) as [[t [e'|]]|m]; cbn [obind];
      [intros [= <- <-]; reflexivity
      |intros [= <- <-] Hne; now apply getField_setField_ne
      |discriminate]. }
  destruct (negb (bool_decide (Kind_of ds (Typ field) = kStruct))); [discriminate|].
  destruct (rec (Typ field) opts) as [[f|e0]|]; [|discriminate|discriminate].
  intros [= <-]. apply obind_set_frame.
Qed.

(** X11 (extractorFromField and its strategies): the extractor compiled for
    a field leaves every field of another name as it was, whichever of the
    strategies produced it and whether or not it fails. *)
Theorem extractor_writes_own_field field opts fn r args args' e g :
  extractorFromFieldWithRelated field opts = Some (inl fn) ->
  fn r args = Ret (args', e) ->
  Reflect.Name g <> Reflect.Name field ->
  getField args' g = getField args g.
Proof.
  unfold Extractor.extractorFromFieldWithRelated.
  destruct (extractorFromField field opts) as [[f|e0]|] eqn:E; [|destruct e0|]; try discriminate.
  - intros [= <-]. now apply (extractorFromField_frame field opts f).
  - destruct (Extractor.findRelatedExtractors _ _ _ _ _ _ _); discriminate.
Qed.
End Frame.

Lemma extractor_writes_own_field_witness :
  getField
    (setField (VObj "In" [("A", VInt K0 1)]) (mkField "R" Extractor.httpReqType [] false)
       (VHandle Extractor.httpReqType "r"))
    (mkField "A" (TInt K0) [] false)
  = getField (VObj "In" [("A", VInt K0 1)]) (mkField "A" (TInt K0) [] false).
Proof.
  apply (extractor_writes_own_field ∅ (fun _ => None) (fun _ => None) (fun _ => None)
           (fun _ _ => None) (mkField "R" Extractor.httpReqType [] false)
           (Extractor.mkOpts (fun n _ => n) None (fun _ _ => "") false)
           (fun r argBase =>
              Ret (setField argBase (mkField "R" Extractor.httpReqType [] false)
                     (VHandle Extractor.httpReqType "r"), None))
           (Extractor.mkRequest ∅ None 0) (VObj "In" [("A", VInt K0 1)]) _ None).
  - reflexivity.
  - reflexivity.
  - discriminate.
Defined.

Section CompileErrors.
Variable ds : decls.
Variable Extractor_of :
  rtype -> option (Extractor.Request -> gvalue -> outcome (gvalue * error)).
Variable ParamExtractor_of :
  rtype -> option (string * (Extractor.Request -> Extractor.Opts -> gvalue
                             -> outcome (gvalue * error))).
Variable extractors : rtype -> option (Extractor.Request -> outcome (gvalue * error)).

Local Abbreviation compileFields :=
  (Extractor.compileFields ds Extractor_of ParamExtractor_of extractors).
Local Abbreviation extractorFor :=
  (Extractor.extractorFor ds Extractor_of ParamExtractor_of extractors).

Lemma compileFields_app rec argType opts pre : forall rest fns0 fns,
  compileFields rec argType opts pre fns0 = Some (inl fns) ->
  compileFields rec argType opts (pre ++ rest) fns0 = compileFields rec argType opts rest fns.
Proof.
  induction pre as [|f pre IH]; intros rest fns0 fns; cbn [Extractor.compileFields app].
  - intros [= <-]. reflexivity.
  - destruct (Extractor.extractorFromFieldWithRelated _ _ _ _ _ f opts) as [[fn|e]|];
      [apply IH | destruct e; discriminate | discriminate].
Qed.

(** X12 (extractorFor, extractorFromField, findRelatedExtractors): a field
    that is no request, response writer, extractor or registered type, and
    whose kind is neither struct nor pointer, makes the compilation fail
    with an UnknownFieldTypeError that names the field, its type and the
    struct it is in; the pointer to the type is listed as related exactly
    when that pointer type could have been extracted. *)
Theorem unknown_field_type fuel argType opts pre f post fns :
  Kind_of ds argType = kStruct ->
  Fields ds argType = pre ++ f :: post ->
  compileFields (extractorFor fuel) argType opts pre [] = Some (inl fns) ->
  Typ f <> Extractor.httpReqType ->
  Typ f <> Extractor.httpRespType ->
  method Extractor_of (TPtr (Typ f)) = None ->
  method ParamExtractor_of (TPtr (Typ f)) = None ->
  extractors (Typ f) = None ->
  Kind_of ds (Typ f) <> kStruct ->
  Kind_of ds (Typ f) <> kPointer ->
  extractorFor (S fuel) argType opts
  = Some (inr (UnknownFieldType
      (mkUnknownFieldTypeError (Reflect.Name f) (Typ f) (Some argType)
         (if bool_decide (TPtr (Typ f) = Extractor.httpReqType)
             || bool_decide (is_Some (extractors (TPtr (Typ f))))
          then [TPtr (Typ f)] else [])))).
Proof.
  intros Hk Hfields Hpre Hreq Hresp HE HP Hx Hns Hnp.
  cbn [Extractor.extractorFor]. unfold Extractor.extractorFor_body.
  rewrite (bool_decide_eq_true_2 _ Hk). cbn [negb].
  rewrite Hfields, (compileFields_app _ _ _ _ _ _ _ Hpre).
  cbn [Extractor.compileFields].
  assert (Hown : Extractor.extractorFromField ds Extractor_of ParamExtractor_of extractors
                   (extractorFor fuel) f opts
                 = Some (inr (UnknownFieldType
                     (mkUnknownFieldTypeError (Reflect.Name f) (Typ f) None [])))).
  { unfold Extractor.extractorFromField. cbn [Extractor.firstOf].
    unfold Extractor.extractHTTPRequest, Extractor.extractHTTPResponse,
      Extractor.extractExtractor, Extractor.extractParamExtractor,
      Extractor.extractFromExtractors, Extractor.extractFromStructOfExtractors.
    rewrite (bool_decide_eq_false_2 _ Hreq), (bool_decide_eq_false_2 _ Hresp), HE, HP, Hx,
      (bool_decide_eq_false_2 _ Hns).
    reflexivity. }
  unfold Extractor.extractorFromFieldWithRelated. rewrite Hown.
  unfold Extractor.findRelatedExtractors.
  rewrite (bool_decide_eq_false_2 _ Hnp).
  unfold Extractor.extractorFromField. cbn [Extractor.firstOf].
  unfold Extractor.extractHTTPRequest, Extractor.extractHTTPResponse,
    Extractor.extractExtractor, Extractor.extractParamExtractor,
    Extractor.extractFromExtractors, Extractor.extractFromStructOfExtractors.
  cbn [Typ Reflect.Name method Kind_of literal_Kind].
  destruct (bool_decide (TPtr (Typ f) = Extractor.httpReqType)); [reflexivity|].
  cbn [negb orb].
  rewrite (bool_decide_eq_false_2 (TPtr (Typ f) = Extractor.httpRespType)) by discriminate.
  cbn [negb].
  destruct (extractors (TPtr (Typ f))) as [x|].
  - rewrite (bool_decide_eq_true_2 (is_Some (Some x))) by eauto. reflexivity.
  - rewrite (bool_decide_eq_false_2 (is_Some None)) by (intros [? ?]; discriminate).
    rewrite (bool_decide_eq_false_2 (kPointer = kStruct)) by discriminate.
    reflexivity.
Qed.
End CompileErrors.

Lemma unknown_field_type_witness :
  Extractor.extractorFor {[ "In" := mkDecl "In" (UStruct [mkField "ID" (TInt K0) [] false]) ]}
    (fun _ => None) (fun _ => None) (fun _ => None) 1 (TDefined "In")
    (Extractor.mkOpts (fun n _ => n) None (fun _ _ => "") false)
  = Some (inr (UnknownFieldType
      (mkUnknownFieldTypeError "ID" (TInt K0) (Some (TDefined "In")) []))).
Proof.
  apply (unknown_field_type
           {[ "In" := mkDecl "In" (UStruct [mkField "ID" (TInt K0) [] false]) ]}
           (fun _ => None) (fun _ => None) (fun _ => None) 0 (TDefined "In")
           (Extractor.mkOpts (fun n _ => n) None (fun _ _ => "") false)
           [] (mkField "ID" (TInt K0) [] false) [] []);
    try reflexivity; discriminate.
Defined.

(** ** The type walker: a missing parser, and what every Info holds *)

(** X13 (InfoFromStruct with a nil parser): a struct whose first field is
    not a parameter is refused with ErrNoParser; when the first field is a
    parameter the nil parser is called, which panics. *)
Theorem InfoFromStruct_nil_parser ds sourcer inner CustomParser Error fuel T f rest namer :
  Kind_of ds T = kStruct ->
  Fields ds T = f :: rest ->
  Param.InfoFromStruct ds sourcer inner CustomParser Error (S fuel) T namer None
  = Some (match method sourcer (TPtr (Typ f)) with
          | Some _ => Panic "invalid memory address or nil pointer dereference"
          | None => Ret (inr (Sentinel ErrNoParser))
          end).
Proof.
  intros Hk Hf. unfold Param.InfoFromStruct. cbn [Param.infoFromValue].
  unfold Param.infoFromValue_body.
  rewrite (bool_decide_eq_true_2 _ Hk), Hf. cbn [negb Param.fieldLoop].
  unfold Param.infoFromField, Param.GetSourceAndType.
  destruct (method sourcer (TPtr (Typ f))); reflexivity.
Qed.

Lemma InfoFromStruct_nil_parser_witness :
  Param.InfoFromStruct Examples.withDefault (Extractor.sourcer_of Examples.insts)
    (Extractor.inner_of Examples.withDefault Examples.insts)
    (Extractor.CustomParser_of Examples.insts) (fun _ => "") 1
    (TDefined "input") Examples.namer None
  = Some (Panic "invalid memory address or nil pointer dereference").
Proof.
  apply (InfoFromStruct_nil_parser Examples.withDefault
           (Extractor.sourcer_of Examples.insts)
           (Extractor.inner_of Examples.withDefault Examples.insts)
           (Extractor.CustomParser_of Examples.insts) (fun _ => "") 0
           (TDefined "input") Examples.Field1 [] Examples.namer); reflexivity.
Defined.

Section WalkerInfos.
Variable ds : decls.
Variable sourcer : rtype -> option string.
Variable inner : rtype -> option (option rtype).
Variable CustomParser :
  rtype -> option (option Param.Parser -> StructField -> gvalue -> outcome (gvalue * error)).
Variable Error : err -> string.
Variable namer : Param.Namer.
Variable parser : option Param.Parser.

Local Abbreviation infoFromField := (Param.infoFromField ds sourcer inner CustomParser Error).
Local Abbreviation fieldLoop := (Param.fieldLoop ds sourcer inner CustomParser Error).
Local Abbreviation infoFromValue := (Param.infoFromValue ds sourcer inner CustomParser Error).

Lemma infoFromField_infoOK rec T field infos :
  (forall T' infos', rec T' = Some (Ret (inl infos')) -> Forall (infoOK sourcer namer) infos') ->
  infoFromField rec T field namer parser = Some (Ret (inl infos)) ->
  Forall (infoOK sourcer namer) infos.
Proof.
  intros Hrec. unfold Param.infoFromField, Param.GetSourceAndType.
  destruct (method sourcer (TPtr (Typ field))) as [source|] eqn:Hs.
  - destruct (Param.canParseType CustomParser parser _ field) as [[v [e|]]|m];
      [destruct (err_As_InvalidParam e); discriminate | | discriminate].
    assert (Hok : Forall (infoOK sourcer namer)
              [Param.Info.mk (Param.NameFromField field namer source) source
                 (Tag_Get (Tag field) "default")
                 match method inner (TPtr (Typ field)) with
                 | Some (Some t) => t
                 | _ => Typ field
                 end field T []]).
    { constructor; [|constructor]. split; [exact Hs | split; reflexivity]. }
    destruct (negb (String.eqb (Tag_Get (Tag field) "default") "")).
    + destruct (Param.call parser v [Tag_Get (Tag field) "default"]) as [[v' [e|]]|m];
        try discriminate.
      intros [= <-]. exact Hok.
    + intros [= <-]. exact Hok.
  - unfold Param.getParamsFromStruct.
    destruct parser; [|discriminate].
    destruct (negb (bool_decide (Kind_of ds (Typ field) = kStruct)));
      [intros [= <-]; constructor|].
    destruct (rec (Typ field)) as [[[infos'|e]|m]|] eqn:Hr; try discriminate.
    intros [= <-]. apply Forall_map.
    eapply Forall_impl; [exact (Hrec _ _ Hr)|].
    intros info H. exact H.
Qed.

Lemma fieldLoop_infoOK rec T fields : forall params infos,
  (forall T' infos', rec T' = Some (Ret (inl infos')) -> Forall (infoOK sourcer namer) infos') ->
  Forall (infoOK sourcer namer) params ->
  fieldLoop rec T namer parser fields params = Some (Ret (inl infos)) ->
  Forall (infoOK sourcer namer) infos.
Proof.
  induction fields as [|f fields IH]; intros params infos Hrec Hparams; cbn [Param.fieldLoop].
  - intros [= <-]. exact Hparams.
  - destruct (infoFromField rec T f namer parser) as [[[info|e]|m]|] eqn:Hf; try discriminate.
    apply IH; [exact Hrec|].
    apply Forall_app. split; [exact Hparams|].
    exact (infoFromField_infoOK _ _ _ _ Hrec Hf).
Qed.

(** X14 (InfoFromStruct, infoFromField, getParamsFromStruct): every Info
    the walker returns, at any depth of nesting, has the source of its
    field's type, the field's default tag as its default, and the name
    NameFromField gives for the field. *)
Theorem InfoFromStruct_infos_consistent fuel T infos :
  Param.InfoFromStruct ds sourcer inner CustomParser Error fuel T namer parser
  = Some (Ret (inl infos)) ->
  Forall (infoOK sourcer namer) infos.
Proof.
  unfold Param.InfoFromStruct. revert T infos.
  induction fuel as [|fuel IH]; intros T infos; [discriminate|].
  cbn [Param.infoFromValue]. unfold Param.infoFromValue_body.
  destruct (negb (bool_decide (Kind_of ds T = kStruct))); [discriminate|].
  apply fieldLoop_infoOK; [exact IH | constructor].
Qed.

Lemma fieldLoop_concat rec T fields : forall params infos,
  fieldLoop rec T namer parser fields params = Some (Ret (inl infos)) ->
  exists per,
    Forall2 (fun f l => infoFromField rec T f namer parser = Some (Ret (inl l))) fields per
    /\ infos = params ++ concat per.
Proof.
  induction fields as [|f fields IH]; intros params infos; cbn [Param.fieldLoop].
  - intros [= <-]. exists []. split; [constructor | now rewrite app_nil_r].
  - destruct (infoFromField rec T f namer parser) as [[[info|e]|m]|] eqn:Hf; try discriminate.
    intros H. destruct (IH _ _ H) as (per & Hper & ->).
    exists (info :: per). split; [constructor; assumption|].
    cbn [concat]. now rewrite app_assoc.
Qed.

(** X15 (infoFromValue): the parameters of a struct are those of its
    fields, one field after the other in the order of declaration, with
    nothing left out and nothing moved. *)
Theorem InfoFromStruct_in_field_order fuel T infos :
  Param.InfoFromStruct ds sourcer inner CustomParser Error (S fuel) T namer parser
  = Some (Ret (inl infos)) ->
  exists per,
    Forall2 (fun f l => infoFromField (fun t => infoFromValue fuel t namer parser) T f
                          namer parser = Some (Ret (inl l)))
      (Fields ds T) per
    /\ infos = concat per.
Proof.
  unfold Param.InfoFromStruct. cbn [Param.infoFromValue]. unfold Param.infoFromValue_body.
  destruct (negb (bool_decide (Kind_of ds T = kStruct))); [discriminate|].
  intros H. destruct (fieldLoop_concat _ _ _ _ _ H) as (per & Hper & ->).
  exists per. split; [exact Hper | reflexivity].
Qed.
End WalkerInfos.

Lemma InfoFromStruct_infos_consistent_witness :
  Forall (infoOK (Extractor.sourcer_of Examples.insts) Examples.namer)
    [Param.Info.mk "Value" "query" "" (TInt K0) Examples.fValue (TDefined "Inner")
       [Examples.fIn; Examples.fMid]].
Proof.
  apply (InfoFromStruct_infos_consistent Examples.nested
           (Extractor.sourcer_of Examples.insts)
           (Extractor.inner_of Examples.nested Examples.insts)
           (Extractor.CustomParser_of Examples.insts) (fun _ => "")
           Examples.namer (Some Param.ParseInt) 3 (TDefined "Outer")).
  vm_compute. reflexivity.
Defined.

Lemma InfoFromStruct_in_field_order_witness :
  exists per,
    Forall2 (fun f l =>
               Param.infoFromField Examples.nested (Extractor.sourcer_of Examples.insts)
                 (Extractor.inner_of Examples.nested Examples.insts)
                 (Extractor.CustomParser_of Examples.insts) (fun _ => "")
                 (fun t => Param.infoFromValue Examples.nested
                             (Extractor.sourcer_of Examples.insts)
                             (Extractor.inner_of Examples.nested Examples.insts)
                             (Extractor.CustomParser_of Examples.insts) (fun _ => "")
                             2 t Examples.namer (Some Param.ParseInt))
                 (TDefined "Outer") f Examples.namer (Some Param.ParseInt)
               = Some (Ret (inl l)))
      (Fields Examples.nested (TDefined "Outer")) per
    /\ [Param.Info.mk "Value" "query" "" (TInt K0) Examples.fValue (TDefined "Inner")
          [Examples.fIn; Examples.fMid]] = concat per.
Proof.
  apply (InfoFromStruct_in_field_order Examples.nested
           (Extractor.sourcer_of Examples.insts)
           (Extractor.inner_of Examples.nested Examples.insts)
           (Extractor.CustomParser_of Examples.insts) (fun _ => "")
           Examples.namer (Some Param.ParseInt) 2 (TDefined "Outer")).
  vm_compute. reflexivity.
Defined.

(** ** Schemas registered by hand, and the cache of the synthesizer *)

Lemma types_get_set_eq typ (x : Jsonschema.Schema) m :
  types_get typ (types_set typ x m) = Some x.
Proof.
  induction m as [|[t y] m IH]; cbn [types_set types_get].
  - now rewrite bool_decide_eq_true_2.
  - destruct (bool_decide (t = typ)) eqn:E; cbn [types_get].
    + now rewrite bool_decide_eq_true_2.
    + now rewrite E.
Qed.

Lemma types_get_set_ne t typ (x : Jsonschema.Schema) m :
  t <> typ -> types_get t (types_set typ x m) = types_get t m.
Proof.
  intros Hne. induction m as [|[t0 y] m IH]; cbn [types_set types_get].
  - rewrite bool_decide_eq_false_2; [reflexivity | congruence].
  - destruct (bool_decide (t0 = typ)) eqn:E; cbn [types_get].
    + apply bool_decide_eq_true in E. subst t0.
      rewrite !bool_decide_eq_false_2 by congruence. reflexivity.
    + destruct (bool_decide (t0 = t)); [reflexivity | exact IH].
Qed.

Lemma Get_cached ds schemer_of schemerExtended_of noRefer (s : Schemer) fuel typ st schema :
  types_get typ (Jsonschema.types st) = Some schema ->
  Get ds schemer_of schemerExtended_of noRefer s (S fuel) (Some typ) st
  = Some (Ret ((schema, None), st)).
Proof.
  intros H. unfold Get. cbn [schemaFromType]. unfold schemaFromType_body, bind, get_types.
  rewrite H. reflexivity.
Qed.

(** X17 (Set, Has, Get): a schema registered by hand for a type is there
    afterwards, and Get returns it as it was registered and leaves the
    store alone, also for a type that has a JSONSchema method or that Get
    could derive a schema for; it has a name whenever the type has one;
    the entries of other types are untouched. *)
Theorem Set_then_Get ds schemer_of schemerExtended_of noRefer (s : Schemer)
    (typ : rtype) (schema : Jsonschema.Schema) (options : list SchemerOps.Option)
    (st : store) :
  exists schema',
    SchemerOps.Set_ s typ schema options st
    = Some (Ret (schema', mkStore (types_set typ schema' (Jsonschema.types st)) (heap st)))
    /\ (GetTypeName s typ <> "" -> name schema' <> "")
    /\ SchemerOps.Has typ (mkStore (types_set typ schema' (Jsonschema.types st)) (heap st))
       = Some (Ret (true, mkStore (types_set typ schema' (Jsonschema.types st)) (heap st)))
    /\ (forall fuel,
          Get ds schemer_of schemerExtended_of noRefer s (S fuel) (Some typ)
            (mkStore (types_set typ schema' (Jsonschema.types st)) (heap st))
          = Some (Ret ((schema', None),
                       mkStore (types_set typ schema' (Jsonschema.types st)) (heap st))))
    /\ (forall t, t <> typ ->
          types_get t (types_set typ schema' (Jsonschema.types st))
          = types_get t (Jsonschema.types st)).
Proof.
  unfold SchemerOps.Set_, bind, get_types, put_types, ret.
  eexists. split; [reflexivity|].
  split; [|split; [|split]].
  - intros Hn.
    destruct (String.eqb_spec
                (name (fold_left (fun schema0 option => option schema0) options schema)) "")
      as [E|E]; [exact Hn | exact E].
  - unfold SchemerOps.Has, bind, get_types, ret. cbn [Jsonschema.types].
    rewrite types_get_set_eq. rewrite bool_decide_eq_true_2 by eauto. reflexivity.
  - intros fuel. apply Get_cached. cbn [Jsonschema.types]. apply types_get_set_eq.
  - intros t Hne. now apply types_get_set_ne.
Qed.

Lemma findRef_found (s : Schemer) want m sc :
  SchemerOps.findRef s want m = Some sc ->
  NewRef s (name sc) = want /\ exists t, (t, sc) ∈ m.
Proof.
  induction m as [|[t x] m IH]; cbn [SchemerOps.findRef]; [discriminate|].
  destruct (String.eqb_spec (NewRef s (name x)) want) as [E|E].
  - intros [= <-]. split; [exact E|]. exists t. left.
  - intros H. destruct (IH H) as [H1 [t' H2]]. split; [exact H1|]. exists t'. now right.
Qed.

Lemma findRef_none (s : Schemer) want m :
  SchemerOps.findRef s want m = None ->
  forall t sc, (t, sc) ∈ m -> NewRef s (name sc) <> want.
Proof.
  induction m as [|[t x] m IH]; cbn [SchemerOps.findRef]; intros H t' sc Hin.
  - inversion Hin.
  - destruct (String.eqb_spec (NewRef s (name x)) want) as [E|E]; [discriminate|].
    apply elem_of_cons in Hin as [[= -> ->] | Hin]; [exact E | exact (IH H _ _ Hin)].
Qed.

Lemma types_get_elem typ m (sc : Jsonschema.Schema) :
  types_get typ m = Some sc -> (typ, sc) ∈ m.
Proof.
  induction m as [|[t x] m IH]; cbn [types_get]; [discriminate|].
  destruct (bool_decide (t = typ)) eqn:E.
  - apply bool_decide_eq_true in E. subst t. intros [= ->]. left.
  - intros H. right. exact (IH H).
Qed.

(** X18 (GetSchemaByRef): the search leaves the store as it is; a schema it
    finds is a registered one whose reference is the wanted one; it finds
    none only if no registered schema has that reference; and every
    registered schema is found by its own reference, up to schemas of the
    same name. *)
Theorem GetSchemaByRef_spec (s : Schemer) (wantRef : string) (st : store) :
  exists sc found,
    SchemerOps.GetSchemaByRef s wantRef st = Some (Ret ((sc, found), st))
    /\ (found = true ->
        NewRef s (name sc) = wantRef /\ exists t, (t, sc) ∈ Jsonschema.types st)
    /\ (found = false ->
        sc = Jsonschema.New
        /\ forall t sc', (t, sc') ∈ Jsonschema.types st -> NewRef s (name sc') <> wantRef)
    /\ (forall typ sc', types_get typ (Jsonschema.types st) = Some sc' ->
        NewRef s (name sc') = wantRef -> found = true).
Proof.
  unfold SchemerOps.GetSchemaByRef, bind, get_types, ret.
  destruct (SchemerOps.findRef s wantRef (Jsonschema.types st)) as [sc|] eqn:E.
  - exists sc, true. split; [reflexivity|]. split; [|split].
    + intros _. exact (findRef_found _ _ _ _ E).
    + discriminate.
    + reflexivity.
  - exists Jsonschema.New, false. split; [reflexivity|]. split; [|split].
    + discriminate.
    + intros _. split; [reflexivity | exact (findRef_none _ _ _ E)].
    + intros typ sc' Hget Href. exfalso.
      exact (findRef_none _ _ _ E _ _ (types_get_elem _ _ _ Hget) Href).
Qed.

Lemma GetSchemaByRef_spec_witness :
  exists sc found,
    SchemerOps.GetSchemaByRef (NewSchemer ∅) "/schemas/A"
      (mkStore [(TDefined "A", set_name "A" Jsonschema.New)] [])
    = Some (Ret ((sc, found), mkStore [(TDefined "A", set_name "A" Jsonschema.New)] []))
    /\ found = true.
Proof.
  destruct (GetSchemaByRef_spec (NewSchemer ∅) "/schemas/A"
              (mkStore [(TDefined "A", set_name "A" Jsonschema.New)] []))
    as (sc & found & H1 & _ & _ & H4).
  exists sc, found. split; [exact H1|].
  apply (H4 (TDefined "A") (set_name "A" Jsonschema.New)); reflexivity.
Defined.

(** X19 (schemaFromType, createStructSchema, handleCustomSchemer,
    applyExtensions): once Get has returned the schema of a struct type,
    or of a type with a JSONSchema method, the type is in the cache with
    that very schema, and every later Get returns it without deriving
    anything or touching the store. *)
Theorem Get_memoizes ds schemer_of schemerExtended_of noRefer (s : Schemer)
    (fuel : nat) (typ : rtype) (st st' : store) (schema : Jsonschema.Schema) :
  Kind_of ds typ = kStruct \/ is_Some (method schemer_of (TPtr typ)) ->
  Get ds schemer_of schemerExtended_of noRefer s (S fuel) (Some typ) st
  = Some (Ret ((schema, None), st')) ->
  types_get typ (Jsonschema.types st') = Some schema
  /\ forall fuel',
       Get ds schemer_of schemerExtended_of noRefer s (S fuel') (Some typ) st'
       = Some (Ret ((schema, None), st')).
Proof.
  intros Hk H.
  assert (Hc : types_get typ (Jsonschema.types st') = Some schema);
    [|split; [exact Hc | intros fuel'; now apply Get_cached]].
  unfold Get in H. cbn [schemaFromType] in H.
  unfold schemaFromType_body, bind, get_types in H.
  destruct (types_get typ (Jsonschema.types st)) as [cached|] eqn:Hcached.
  { unfold ret in H. injection H as <- <-. exact Hcached. }
  destruct (method schemer_of (TPtr typ)) as [v|] eqn:Hm.
  { unfold handleCustomSchemer, ret in H. destruct (v (heap st)) as [sch h].
    injection H as <- <-. cbn [Jsonschema.types]. apply types_get_set_eq. }
  destruct Hk as [Hk | [x Hx]]; [|discriminate].
  unfold createSchemaByKind in H. rewrite Hk in H.
  unfold createStructSchema, bind in H.
  destruct (schemaFromStruct _ _ _ typ st) as [[[[ss e] st1]|m]|];
    [|discriminate|discriminate].
  destruct e as [e|]; [unfold ret in H; discriminate|].
  unfold get_types, put_types, ret, applyExtensions in H.
  destruct (method schemerExtended_of (TPtr typ)) as [ext|].
  - cbn [heap Jsonschema.types] in H.
    destruct (ext _ (heap st1)) as [sch h].
    rewrite (bool_decide_eq_true_2 _ Hk) in H.
    injection H as <- <-. cbn [Jsonschema.types]. apply types_get_set_eq.
  - unfold ret in H. injection H as <- <-. cbn [Jsonschema.types]. apply types_get_set_eq.
Qed.

Lemma Get_memoizes_witness :
  types_get (TDefined "Leaf")
    (Jsonschema.types
       (mkStore
          [(TDefined "Leaf",
            mkSchema
              (mkOSchema (Some 0%nat) "" None None ""
                 (Some [("X", Spec (mkOSchema (Some 1%nat) "" None None "" None [] None None []))])
                 [] None None [])
              "" false "Leaf")]
          [["object"]; ["string"]]))
  = Some (mkSchema
            (mkOSchema (Some 0%nat) "" None None ""
               (Some [("X", Spec (mkOSchema (Some 1%nat) "" None None "" None [] None None []))])
               [] None None [])
            "" false "Leaf").
Proof.
  apply (proj1 (Get_memoizes Examples.leaf Examples.noSchemer Examples.noExtend
                  (fun _ => false) (NewSchemer Examples.leaf) 1 (TDefined "Leaf")
                  empty_store _ _ (or_introl eq_refl) eq_refl)).
Defined.

(** X20 (schemaFromType, handleCustomSchemer): for a type with a JSONSchema
    method Get never fails and never looks at the type itself: whatever the
    declarations say of its kind and fields, and whether or not it also has
    a JSONSchemaExtend or NoRef method, the result is the same, so the
    schema such a type supplies is never extended. *)
Theorem custom_schema_not_extended ds1 ds2 schemer_of ext1 ext2 noRefer1 noRefer2
    (s : Schemer) (fuel1 fuel2 : nat) (typ : rtype) (st : store) :
  is_Some (method schemer_of (TPtr typ)) ->
  Get ds1 schemer_of ext1 noRefer1 s (S fuel1) (Some typ) st
  = Get ds2 schemer_of ext2 noRefer2 s (S fuel2) (Some typ) st
  /\ exists schema st',
       Get ds1 schemer_of ext1 noRefer1 s (S fuel1) (Some typ) st
       = Some (Ret ((schema, None), st')).
Proof.
  intros [v Hv]. unfold Get. cbn [schemaFromType].
  unfold schemaFromType_body, bind, get_types. rewrite Hv.
  split; [reflexivity|].
  destruct (types_get typ (Jsonschema.types st)) as [cached|]; [unfold ret; eauto|].
  unfold handleCustomSchemer, ret. destruct (v (heap st)) as [sch h]. eauto.
Qed.

Lemma custom_schema_not_extended_witness :
  Get Examples.leaf (fun _ => Some (fun h => (Jsonschema.New, h))) Examples.noExtend
    (fun _ => false) (NewSchemer Examples.leaf) 1 (Some (TDefined "Leaf")) empty_store
  = Get ∅ (fun _ => Some (fun h => (Jsonschema.New, h)))
      (fun _ => Some (fun x h => (set_name "extended" x, h)))
      (fun _ => true) (NewSchemer Examples.leaf) 5 (Some (TDefined "Leaf")) empty_store.
Proof.
  apply (custom_schema_not_extended Examples.leaf ∅
           (fun _ => Some (fun h => (Jsonschema.New, h))) Examples.noExtend
           (fun _ => Some (fun x h => (set_name "extended" x, h)))
           (fun _ => false) (fun _ => true) (NewSchemer Examples.leaf) 0 4
           (TDefined "Leaf") empty_store).
  eexists. reflexivity.
Defined.

Lemma pointer_error ds schemer_of schemerExtended_of noRefer (s : Schemer)
    fuel t st x e st' :
  types_get (TPtr t) (Jsonschema.types st) = None ->
  schemaFromType ds schemer_of schemerExtended_of noRefer s fuel (Some t) st
  = Some (Ret ((x, Some e), st')) ->
  schemaFromType ds schemer_of schemerExtended_of noRefer s (S fuel) (Some (TPtr t)) st
  = Some (Ret ((x, Some e), st')).
Proof.
  intros Hc H. cbn [schemaFromType].
  unfold schemaFromType_body at 1. unfold bind at 1. unfold get_types at 1.
  rewrite Hc. cbn [method].
  unfold createSchemaByKind. cbn [Kind_of literal_Kind].
  unfold createPointerSchema, bind. cbn [Elem literal_Elem]. rewrite H. reflexivity.
Qed.

(** On createPointerSchema under schemaFromType: when the schema of a
    type cannot be derived, that of a pointer to it, at any number of
    pointers that are not in the cache, fails with the very same error and
    leaves the same store behind. *)
Theorem pointer_chain_error ds schemer_of schemerExtended_of noRefer (s : Schemer)
    (n fuel : nat) (t : rtype) (st st' : store) (x : Jsonschema.Schema) (e : err) :
  (forall k, (1 <= k <= n)%nat -> types_get (pointers k t) (Jsonschema.types st) = None) ->
  Get ds schemer_of schemerExtended_of noRefer s fuel (Some t) st
  = Some (Ret ((x, Some e), st')) ->
  Get ds schemer_of schemerExtended_of noRefer s (n + fuel) (Some (pointers n t)) st
  = Some (Ret ((x, Some e), st')).
Proof.
  unfold Get. intros Hc H. induction n as [|n IH]; [exact H|].
  change (S n + fuel)%nat with (S (n + fuel)).
  change (pointers (S n) t) with (TPtr (pointers n t)).
  apply pointer_error.
  - apply (Hc (S n)). lia.
  - apply IH. intros k Hk. apply Hc. lia.
Qed.

Lemma pointer_chain_error_witness :
  Get ∅ Examples.noSchemer Examples.noExtend (fun _ => false) (NewSchemer ∅)
    (2 + 1) (Some (pointers 2 (TMap (TInt K0) TString))) empty_store
  = Some (Ret ((Jsonschema.New, Some (Sentinel errInvalidMapKey)), empty_store)).
Proof.
  apply (pointer_chain_error ∅ Examples.noSchemer Examples.noExtend (fun _ => false)
           (NewSchemer ∅) 2 1 (TMap (TInt K0) TString) empty_store empty_store).
  - intros k Hk. reflexivity.
  - reflexivity.
Defined.

(** ** The schema of a struct *)

Lemma assoc_set_names {A} (k : string) (v : A) (l : list (string * A)) (x : string) :
  x ∈ map fst (assoc_set k v l) <-> x = k \/ x ∈ map fst l.
Proof.
  induction l as [|[k0 v0] l IH]; cbn [assoc_set map fst].
  - rewrite elem_of_cons. split; intros [H|H]; auto.
  - destruct (String.eqb_spec k0 k) as [->|Hne]; cbn [map fst].
    + rewrite !elem_of_cons. tauto.
    + rewrite !elem_of_cons, IH. tauto.
Qed.

Section StructProperties.
Variable ds : decls.
Variable s : Schemer.
Variable rec : option rtype -> M (Jsonschema.Schema * error).

Lemma updateSchema_propertiesOK fieldCount schema field st schema' st' done :
  Anonymous field = false ->
  propertiesOK ds s done schema ->
  updateSchema ds s rec fieldCount schema field st = Some (Ret ((schema', None), st')) ->
  propertiesOK ds s (done ++ [field]) schema'.
Proof.
  intros Hanon (Hp & Hall & Hkeys & Hreq & Hoff & Hon).
  unfold updateSchema, bind, get_types.
  destruct (rec (Some (Typ field)) st) as [[[[fs e] st1]|m]|]; [|discriminate|discriminate].
  destruct e as [e|]; [unfold ret; discriminate|].
  rewrite Hanon. unfold addObjectRequired.
  destruct Hp as [props Hprops].
  destruct (String.eqb_spec (JSONFieldName field) "") as [Hname|Hname]; cbn [negb].
  - (* the field has no JSON name: the schema stays as it is *)
    unfold bind, ret. intros [= <- <-].
    split; [eauto|]. split; [|split; [|split; [|split]]].
    + intros f Hf Hn. apply elem_of_app in Hf as [Hf|Hf]; [now apply Hall|].
      apply list_elem_of_singleton in Hf. subst f. congruence.
    + intros k Hk. destruct (Hkeys k Hk) as [H1 (f & Hf & H2)].
      split; [exact H1|]. exists f. split; [apply elem_of_app; now left | exact H2].
    + exact Hreq.
    + exact Hoff.
    + intros Hs f Hf Hn Hk. apply elem_of_app in Hf as [Hf|Hf]; [now apply Hon|].
      apply list_elem_of_singleton in Hf. subst f. congruence.
  - unfold refOrSpec, bind, get_types, ret. rewrite Hprops.
    set (specOrRef := match types_get (Typ field) (Jsonschema.types st1) with
                      | Some fieldSchema => _
                      | None => _
                      end).
    assert (Hnames : forall x,
      x ∈ map fst (assoc_set (JSONFieldName field) specOrRef props)
      <-> x = JSONFieldName field \/ x ∈ propertyNames schema).
    { intros x. unfold propertyNames. rewrite Hprops. apply assoc_set_names. }
    destruct (DefaultStructRequire s) eqn:Hs; cbn [andb].
    + destruct (bool_decide (Kind_of ds (Typ field) = kPointer)) eqn:Hptr; cbn [negb].
      * apply bool_decide_eq_true in Hptr.
        intros Heq. injection Heq as Heq1 Heq2. subst schema' st'.
        unfold propertiesOK, propertyNames. cbn.
        split; [eauto|]. split; [|split; [|split; [|split]]].
        -- intros f Hf Hn. apply Hnames. apply elem_of_app in Hf as [Hf|Hf].
           ++ right. now apply Hall.
           ++ apply list_elem_of_singleton in Hf. subst f. now left.
        -- intros k Hk. apply Hnames in Hk as [->|Hk].
           ++ split; [exact Hname|]. exists field. split; [|reflexivity].
              apply elem_of_app. right. now apply list_elem_of_singleton.
           ++ destruct (Hkeys k Hk) as [H1 (f & Hf & H2)].
              split; [exact H1|]. exists f. split; [apply elem_of_app; now left | exact H2].
        -- intros n Hn. apply Hnames. right. now apply Hreq.
        -- rewrite Hs; discriminate.
        -- intros _ f Hf Hn Hk. apply elem_of_app in Hf as [Hf|Hf]; [now apply Hon|].
           apply list_elem_of_singleton in Hf. subst f. congruence.
      * apply bool_decide_eq_false in Hptr.
        intros Heq. injection Heq as Heq1 Heq2. subst schema' st'.
        unfold propertiesOK, propertyNames. cbn.
        split; [eauto|]. split; [|split; [|split; [|split]]].
        -- intros f Hf Hn. apply Hnames. apply elem_of_app in Hf as [Hf|Hf].
           ++ right. now apply Hall.
           ++ apply list_elem_of_singleton in Hf. subst f. now left.
        -- intros k Hk. apply Hnames in Hk as [->|Hk].
           ++ split; [exact Hname|]. exists field. split; [|reflexivity].
              apply elem_of_app. right. now apply list_elem_of_singleton.
           ++ destruct (Hkeys k Hk) as [H1 (f & Hf & H2)].
              split; [exact H1|]. exists f. split; [apply elem_of_app; now left | exact H2].
        -- intros n Hn. apply Hnames. apply elem_of_app in Hn as [Hn|Hn].
           ++ right. now apply Hreq.
           ++ apply list_elem_of_singleton in Hn. now left.
        -- rewrite Hs; discriminate.
        -- intros _ f Hf Hn Hk. apply elem_of_app. apply elem_of_app in Hf as [Hf|Hf].
           ++ left. now apply Hon.
           ++ apply list_elem_of_singleton in Hf. subst f. right.
              now apply list_elem_of_singleton.
    + intros Heq. injection Heq as Heq1 Heq2. subst schema' st'.
        unfold propertiesOK, propertyNames. cbn.
      split; [eauto|]. split; [|split; [|split; [|split]]].
      * intros f Hf Hn. apply Hnames. apply elem_of_app in Hf as [Hf|Hf].
        -- right. now apply Hall.
        -- apply list_elem_of_singleton in Hf. subst f. now left.
      * intros k Hk. apply Hnames in Hk as [->|Hk].
        -- split; [exact Hname|]. exists field. split; [|reflexivity].
           apply elem_of_app. right. now apply list_elem_of_singleton.
        -- destruct (Hkeys k Hk) as [H1 (f & Hf & H2)].
           split; [exact H1|]. exists f. split; [apply elem_of_app; now left | exact H2].
      * intros n Hn. apply Hnames. right. now apply Hreq.
      * intros _. now apply Hoff.
      * rewrite Hs; discriminate.
Qed.

Lemma structLoop_propertiesOK fieldCount fields : forall schema st schema' st' done,
  Forall (fun f => Anonymous f = false) fields ->
  propertiesOK ds s done schema ->
  structLoop ds s rec fieldCount schema fields st = Some (Ret ((schema', None), st')) ->
  propertiesOK ds s (done ++ fields) schema'.
Proof.
  induction fields as [|f fields IH]; intros schema st schema' st' done Hanon Hok;
    cbn [structLoop].
  - unfold ret. intros [= <- <-]. now rewrite app_nil_r.
  - inversion Hanon as [|? ? Hf Hrest]; subst.
    unfold bind.
    destruct (updateSchema ds s rec fieldCount schema f st) as [[[[sch e] st1]|m]|] eqn:Hu;
      [|discriminate|discriminate].
    destruct e as [e|]; [unfold ret; discriminate|].
    intros H. replace (done ++ f :: fields) with ((done ++ [f]) ++ fields)
      by (now rewrite <- app_assoc).
    apply (IH sch st1 schema' st' (done ++ [f]) Hrest); [|exact H].
    exact (updateSchema_propertiesOK _ _ _ _ _ _ _ Hf Hok Hu).
Qed.
End StructProperties.

(** X21 (createStructSchema, schemaFromStruct, addObjectRequired): in the
    schema derived for a struct without embedded fields, the properties
    are exactly the JSON names of the fields, a field tagged json "-"
    having none; every required name is a property; and the required names
    are none when DefaultStructRequire is off, and include every named
    field that is not a pointer when it is on. *)
Theorem struct_schema_properties ds schemer_of schemerExtended_of noRefer (s : Schemer)
    (fuel : nat) (typ : rtype) (st st' : store) (schema : Jsonschema.Schema) :
  Kind_of ds typ = kStruct ->
  types_get typ (Jsonschema.types st) = None ->
  method schemer_of (TPtr typ) = None ->
  method schemerExtended_of (TPtr typ) = None ->
  Forall (fun f => Anonymous f = false) (Fields ds typ) ->
  Get ds schemer_of schemerExtended_of noRefer s (S fuel) (Some typ) st
  = Some (Ret ((schema, None), st')) ->
  propertiesOK ds s (Fields ds typ) schema.
Proof.
  intros Hk Hc Hm Hx Hanon. unfold Get. cbn [schemaFromType].
  unfold schemaFromType_body, bind, get_types. rewrite Hc, Hm.
  unfold createSchemaByKind. rewrite Hk.
  unfold createStructSchema, bind.
  destruct (schemaFromStruct _ _ _ typ st) as [[[[ss e] st1]|m]|] eqn:Hs;
    [|discriminate|discriminate].
  destruct e as [e|]; [unfold ret; discriminate|].
  unfold get_types, put_types, ret, applyExtensions. rewrite Hx. unfold ret.
  intros [= <- <-].
  unfold schemaFromStruct, bind, with_Type, NewSingleOrArray, bind, ret in Hs.
  apply (structLoop_propertiesOK ds s _ _ _ _ _ _ _ [] Hanon) in Hs.
  - destruct (noRefer typ); exact Hs.
  - unfold propertiesOK, propertyNames. cbn.
    split; [eauto|]. split; [|split; [|split; [|split]]].
    + intros f Hf. inversion Hf.
    + intros k Hk'. inversion Hk'.
    + intros n Hn. inversion Hn.
    + reflexivity.
    + intros _ f Hf. inversion Hf.
Qed.

Lemma struct_schema_properties_witness :
  propertiesOK Examples.leaf (NewSchemer Examples.leaf)
    (Fields Examples.leaf (TDefined "Leaf"))
    (mkSchema
       (mkOSchema (Some 0%nat) "" None None ""
          (Some [("X", Spec (mkOSchema (Some 1%nat) "" None None "" None [] None None []))])
          [] None None [])
       "" false "Leaf").
Proof.
  apply (struct_schema_properties Examples.leaf Examples.noSchemer Examples.noExtend
           (fun _ => false) (NewSchemer Examples.leaf) 1 (TDefined "Leaf") empty_store
           (mkStore
              [(TDefined "Leaf",
                mkSchema
                  (mkOSchema (Some 0%nat) "" None None ""
                     (Some [("X", Spec (mkOSchema (Some 1%nat) "" None None "" None []
                                          None None []))])
                     [] None None [])
                  "" false "Leaf")]
              [["object"]; ["string"]])).
  - reflexivity.
  - reflexivity.
  - reflexivity.
  - reflexivity.
  - repeat constructor.
  - reflexivity.
Defined.

(** ** OpenAPI parameters: styles, locations and flags *)

Lemma styleValidation_styles (str : string) :
  str ∈ styles <-> is_Some (styleValidation str).
Proof.
  split.
  - intros H. unfold styles in H.
    repeat (apply elem_of_cons in H as [->|H]; [vm_compute; eauto|]).
    inversion H.
  - unfold styleValidation, styles. intros H.
    repeat match type of H with
           | context [String.eqb str ?x] =>
               destruct (String.eqb_spec str x) as [E|?];
               [rewrite E; solve [repeat first [apply list_elem_of_here | apply list_elem_of_further]]
               |cbv iota in H]
           end.
    destruct H as [? H]. discriminate H.
Qed.

(** X22 (StyleFromString, styleValidation, defaultStyle, Validate): the
    styles StyleFromString accepts are exactly those with a validation
    rule; the default style of each of the four locations is valid in that
    location for a primitive, an array and an object alike; and no style
    accepts a schema without a type. *)
Theorem style_tables_agree :
  (forall str, snd (StyleFromString str) = None <-> is_Some (styleValidation str))
  /\ (forall loc st d, defaultStyle loc = (st, None) ->
      exists rule, styleValidation st = Some rule /\ Validate rule loc (Some d) = None)
  /\ (forall st rule loc, styleValidation st = Some rule ->
      Validate rule loc None <> None).
Proof.
  split; [|split].
  - intros str. rewrite <- styleValidation_styles. unfold StyleFromString.
    destruct (bool_decide (str ∈ styles)) eqn:E.
    + apply bool_decide_eq_true in E. split; [intros _; exact E | reflexivity].
    + apply bool_decide_eq_false in E. split; [discriminate | contradiction].
  - intros loc st d. unfold defaultStyle.
    destruct (String.eqb_spec loc LocationHeader) as [->|?];
      [intros [= <-]; destruct d; vm_compute; eauto|].
    destruct (String.eqb_spec loc LocationPath) as [->|?];
      [intros [= <-]; destruct d; vm_compute; eauto|].
    destruct (String.eqb_spec loc LocationQuery) as [->|?];
      [intros [= <-]; destruct d; vm_compute; eauto|].
    destruct (String.eqb_spec loc LocationCookie) as [->|?];
      [intros [= <-]; destruct d; vm_compute; eauto|].
    discriminate.
  - intros st rule loc H. unfold styleValidation in H.
    repeat match type of H with
           | (if ?c then _ else _) = _ => destruct c
           end; try discriminate;
      injection H as <-; unfold Validate; cbn [in_ Openapi3Param.types];
      destruct (negb (bool_decide (loc ∈ _))); try discriminate;
      vm_compute; discriminate.
Qed.

Lemma style_tables_agree_witness :
  exists rule, styleValidation StyleForm = Some rule
               /\ Validate rule LocationQuery (Some DataTypeArray) = None.
Proof.
  apply (proj1 (proj2 style_tables_agree) LocationQuery StyleForm DataTypeArray).
  reflexivity.
Defined.

Lemma parse_ok {T} (input : string) (value : T) (fn : string -> T * error) (v : T) :
  parse input value fn = (v, None) ->
  v = (if String.eqb input "" then value else fst (fn input))
  /\ (input <> "" -> snd (fn input) = None).
Proof.
  unfold parse. destruct (String.eqb_spec input "") as [->|Hne].
  - intros [= <-]. split; [reflexivity | congruence].
  - destruct (fn input) as [r [e|]]; [discriminate|].
    intros [= <-]. split; reflexivity.
Qed.

Lemma parseBool_ok (input : string) (value v : bool) :
  parseBool input value = (v, None) ->
  v = (if String.eqb input "" then value else fst (Strconv.ParseBool input)).
Proof. intros H. exact (proj1 (parse_ok _ _ _ _ H)). Qed.

Lemma parseStyle_ok (input value v : string) :
  parseStyle input value = (v, None) ->
  v = input /\ (input = "" \/ input ∈ styles).
Proof.
  unfold parseStyle.
  destruct (parse input "" StyleFromString) as [st [e|]] eqn:E; [discriminate|].
  intros [= <-]. destruct (parse_ok _ _ _ _ E) as [Hv Herr].
  destruct (String.eqb_spec input "") as [->|Hne]; [split; [exact Hv | now left]|].
  specialize (Herr Hne). unfold StyleFromString in Hv, Herr.
  destruct (bool_decide (input ∈ styles)) eqn:Hin; [|discriminate].
  apply bool_decide_eq_true in Hin. split; [exact Hv | now right].
Qed.

Lemma cmp_Or_wrap_None (l : list (string * error)) :
  cmp_Or (map (fun '(tag, e) => wrap tag e) l) = None -> Forall (fun x => snd x = None) l.
Proof.
  induction l as [|[tag [e|]] l IH]; cbn [map cmp_Or wrap]; intros H.
  - constructor.
  - discriminate.
  - constructor; [reflexivity | exact (IH H)].
Qed.

Lemma updateFromTags_ok parseInt0 tags p p' :
  updateFromTags parseInt0 tags p = (p', None) ->
  Openapi3Param.Name p' = Openapi3Param.Name p
  /\ In p' = In p
  /\ Explode p' = (if String.eqb (explode tags) "" then Explode p
                   else fst (Strconv.ParseBool (explode tags)))
  /\ Deprecated p' = (if String.eqb (deprecated tags) "" then Deprecated p
                      else fst (Strconv.ParseBool (deprecated tags)))
  /\ Required p' = (if String.eqb (required tags) "" then Required p
                    else fst (Strconv.ParseBool (required tags)))
  /\ AllowReserved p' = (if String.eqb (reserved tags) "" then AllowReserved p
                         else fst (Strconv.ParseBool (reserved tags)))
  /\ Style p' = style tags
  /\ (style tags = "" \/ style tags ∈ styles).
Proof.
  unfold updateFromTags.
  set (p0 := if negb (String.eqb (minimum tags) "") then set_Schema_Minimum (Some 0) p else p).
  assert (H0 : Openapi3Param.Name p0 = Openapi3Param.Name p /\ In p0 = In p
               /\ Explode p0 = Explode p /\ Deprecated p0 = Deprecated p
               /\ Required p0 = Required p /\ AllowReserved p0 = AllowReserved p)
    by (unfold p0; destruct (negb (String.eqb (minimum tags) "")); repeat split).
  destruct H0 as (N0 & I0 & E0 & D0 & R0 & A0).
  clearbody p0.
  repeat match goal with
         | |- context [let '(_, _) := ?x in _] =>
             let E := fresh "E" in destruct x as [? ?] eqn:E
         end.
  intros [= <- Hor].
  repeat match type of Hor with
         | context [wrap _ ?x] => destruct x; cbn [wrap] in Hor; [discriminate Hor|]
         end.
  cbn [Openapi3Param.Name In Explode Deprecated Required AllowReserved Style
         set_Explode set_Deprecated set_Required set_AllowReserved set_Style
         set_Schema_Minimum] in *.
  repeat match goal with
         | H : parseBool _ _ = (_, None) |- _ => apply parseBool_ok in H
         | H : parseStyle _ _ = (_, None) |- _ => apply parseStyle_ok in H as [? ?]
         end.
  subst. rewrite E0, D0, R0, A0. repeat split; auto.
Qed.

Lemma setDefaults_ok p tags p' :
  setDefaults p tags = (p', None) ->
  Openapi3Param.Name p' = Openapi3Param.Name p
  /\ In p' = In p
  /\ Deprecated p' = Deprecated p
  /\ AllowReserved p' = AllowReserved p
  /\ Openapi3Param.Schema p' = Openapi3Param.Schema p
  /\ (Style p <> "" -> Style p' = Style p)
  /\ (Style p = "" -> defaultStyle (In p) = (Style p', None))
  /\ Explode p' = (if String.eqb (Style p') StyleForm && String.eqb (explode tags) ""
                   then true else Explode p)
  /\ Required p' = (if String.eqb (In p) LocationPath then true else Required p).
Proof.
  unfold setDefaults.
  assert (Hstep : forall q,
    let q1 := if String.eqb (Style q) StyleForm && String.eqb (explode tags) ""
              then set_Explode true q else q in
    let q2 := if String.eqb (In q1) LocationPath then set_Required true q1 else q1 in
    Openapi3Param.Name q2 = Openapi3Param.Name q /\ In q2 = In q
    /\ Deprecated q2 = Deprecated q /\ AllowReserved q2 = AllowReserved q
    /\ Openapi3Param.Schema q2 = Openapi3Param.Schema q /\ Style q2 = Style q
    /\ Explode q2 = (if String.eqb (Style q) StyleForm && String.eqb (explode tags) ""
                     then true else Explode q)
    /\ Required q2 = (if String.eqb (In q) LocationPath then true else Required q)).
  { intros q. cbv zeta.
    destruct (String.eqb (Style q) StyleForm && String.eqb (explode tags) "");
      cbn [In set_Explode]; destruct (String.eqb (In q) LocationPath); repeat split. }
  destruct (String.eqb_spec (Style p) "") as [Hs|Hs].
  - destruct (defaultStyle (In p)) as [st [e|]] eqn:Hd; [discriminate|].
    intros [= <-].
    destruct (Hstep (set_Style st p)) as (H1 & H2 & H3 & H4 & H5 & H6 & H7 & H8).
    cbv zeta in *. cbn [set_Style Openapi3Param.Name In Deprecated AllowReserved
                          Openapi3Param.Schema Style Explode Required] in *.
    rewrite H6. repeat split; auto; congruence.
  - intros [= <-].
    destruct (Hstep p) as (H1 & H2 & H3 & H4 & H5 & H6 & H7 & H8).
    cbv zeta in *. rewrite H6. repeat split; auto; congruence.
Qed.

Section FromInfoProperties.
Variable parseInt0 : string -> Z * error.
Variable ds : decls.
Variable schemer_of :
  rtype -> option (list (list string) -> Jsonschema.Schema * list (list string)).
Variable schemerExtended_of :
  rtype -> option (Jsonschema.Schema -> list (list string)
                   -> Jsonschema.Schema * list (list string)).
Variable noRefer : rtype -> bool.

Local Abbreviation FromInfo' :=
  (FromInfo parseInt0 ds schemer_of schemerExtended_of noRefer).
Local Abbreviation Get' := (Get ds schemer_of schemerExtended_of noRefer).

(** The schema [FromInfo] puts into the parameter: that of the type, with
    the default of the [Info] when it has none of its own. *)
Local Abbreviation withInfoDefault info schema :=
  (if negb (String.eqb (Param.Info.Default info) "")
      && negb (bool_decide (is_Some (Default (Schema_ schema))))
   then on_Schema (set_Default (Some (Param.Info.Default info))) schema
   else schema).

Lemma FromInfo_ok fuel info schemer st p st' :
  FromInfo' fuel info schemer st = Some (Ret ((p, None), st')) ->
  exists schema p2 rule,
    Get' schemer fuel (Some (Param.Info.Typ info)) st = Some (Ret ((schema, None), st'))
    /\ updateFromTags parseInt0 (getTags (Tag (Param.Info.Field info)))
         (SetSchema
            (mkParameter (Param.Info.Name info) (Param.Info.Source info)
               false false false false "" None)
            (withInfoDefault info schema))
       = (p2, None)
    /\ setDefaults p2 (getTags (Tag (Param.Info.Field info))) = (p, None)
    /\ styleValidation (Style p) = Some rule
    /\ Validate rule (In p) (getSchemasDataType (heap st') (withInfoDefault info schema))
       = None.
Proof.
  unfold FromInfo, bind.
  destruct (Get ds schemer_of schemerExtended_of noRefer schemer fuel
              (Some (Param.Info.Typ info)) st) as [[[[schema e] st1]|m]|];
    [|discriminate|discriminate].
  destruct e as [e|]; [unfold ret; discriminate|].
  unfold get_heap.
  destruct (updateFromTags _ _ _) as [p2 [e|]] eqn:Hu; [unfold ret; discriminate|].
  destruct (setDefaults p2 _) as [p3 [e|]] eqn:Hd; [unfold ret; discriminate|].
  destruct (styleValidation (Style p3)) as [rule|] eqn:Hr; [|unfold ret; discriminate].
  destruct (Validate rule (In p3) _) as [e|] eqn:Hv; [unfold ret; discriminate|].
  unfold ret. intros [= <- <-].
  exists schema, p2, rule. repeat split; assumption.
Qed.

(** X23 (FromInfo, updateFromTags, setDefaults, Validate): a parameter that
    FromInfo returns without an error has the name and the location of the
    Info; its style is the style tag when there is one and the default
    style of the location otherwise; and that style is one of the seven
    and is allowed in the location. *)
Theorem FromInfo_style_fits_location fuel info schemer st p st' :
  FromInfo' fuel info schemer st = Some (Ret ((p, None), st')) ->
  Openapi3Param.Name p = Param.Info.Name info
  /\ In p = Param.Info.Source info
  /\ (Tag_Get (Tag (Param.Info.Field info)) "style" <> "" ->
      Style p = Tag_Get (Tag (Param.Info.Field info)) "style")
  /\ (Tag_Get (Tag (Param.Info.Field info)) "style" = "" ->
      defaultStyle (Param.Info.Source info) = (Style p, None))
  /\ Style p ∈ styles
  /\ exists rule, styleValidation (Style p) = Some rule /\ In p ∈ in_ rule.
Proof.
  intros H. destruct (FromInfo_ok _ _ _ _ _ _ H) as (schema & p2 & rule & _ & Hu & Hd & Hr & Hv).
  apply updateFromTags_ok in Hu as (U1 & U2 & _ & _ & _ & _ & U7 & U8).
  apply setDefaults_ok in Hd as (D1 & D2 & _ & _ & _ & D6 & D7 & _ & _).
  cbn [Openapi3Param.Name In SetSchema getTags style] in *.
  split; [congruence|]. split; [congruence|].
  split; [intros Hs; rewrite D6; congruence|].
  split; [intros Hs; rewrite <- U2, <- D7 by congruence; reflexivity|].
  split; [apply styleValidation_styles; eauto|].
  exists rule. split; [exact Hr|].
  unfold Validate in Hv.
  destruct (bool_decide (In p ∈ in_ rule)) eqn:E; [|discriminate].
  now apply bool_decide_eq_true in E.
Qed.

(** X24 (FromInfo, updateFromTags, setDefaults): in a parameter that
    FromInfo returns without an error, explode is what the explode tag
    says, and without that tag it is set exactly for the style form;
    deprecated and allowReserved are what their tags say, and are not set
    without them. *)
Theorem FromInfo_flags fuel info schemer st p st' :
  FromInfo' fuel info schemer st = Some (Ret ((p, None), st')) ->
  Explode p
  = (if String.eqb (Tag_Get (Tag (Param.Info.Field info)) "explode") ""
     then String.eqb (Style p) StyleForm
     else fst (Strconv.ParseBool (Tag_Get (Tag (Param.Info.Field info)) "explode")))
  /\ Deprecated p = tagBool (Tag_Get (Tag (Param.Info.Field info)) "deprecated")
  /\ AllowReserved p = tagBool (Tag_Get (Tag (Param.Info.Field info)) "reserved").
Proof.
  intros H. destruct (FromInfo_ok _ _ _ _ _ _ H) as (schema & p2 & rule & _ & Hu & Hd & _ & _).
  apply updateFromTags_ok in Hu as (_ & _ & U3 & U4 & _ & U6 & _ & _).
  apply setDefaults_ok in Hd as (_ & _ & D3 & D4 & _ & _ & _ & D8 & _).
  cbn [Explode Deprecated AllowReserved SetSchema getTags explode deprecated reserved] in *.
  unfold tagBool. rewrite D3, D4, D8, U3, U4, U6.
  split; [|split; reflexivity].
  destruct (String.eqb (Tag_Get (Tag (Param.Info.Field info)) "explode") "");
    [|now rewrite andb_false_r].
  rewrite andb_true_r. now destruct (String.eqb (Style p) StyleForm).
Qed.

End FromInfoProperties.

Lemma FromInfo_style_fits_location_witness :
  Style ParamExamples.limitParam ∈ styles
  /\ defaultStyle "query" = (Style ParamExamples.limitParam, None).
Proof.
  destruct (FromInfo_style_fits_location ParamExamples.noParseInt0 ∅ Examples.noSchemer
              Examples.noExtend (fun _ => false) 1 ParamExamples.limitInfo (NewSchemer ∅)
              empty_store ParamExamples.limitParam ParamExamples.limitStore eq_refl)
    as (_ & _ & _ & H4 & H5 & _).
  split; [exact H5 | exact (H4 eq_refl)].
Defined.

Lemma FromInfo_flags_witness :
  Explode ParamExamples.limitParam = true
  /\ Deprecated ParamExamples.limitParam = tagBool "true"
  /\ AllowReserved ParamExamples.limitParam = tagBool "".
Proof.
  exact (FromInfo_flags ParamExamples.noParseInt0 ∅ Examples.noSchemer
           Examples.noExtend (fun _ => false) 1 ParamExamples.limitInfo (NewSchemer ∅)
           empty_store ParamExamples.limitParam ParamExamples.limitStore eq_refl).
Defined.


(** X26 (FromInfo, setDefaults, defaultStyle): for a field without tags
    whose source is none of path, query, header and cookie, as the source
    "body" of a JSON body, FromInfo fails with ErrInvalidLocation as it
    is, not wrapped like its other errors, whenever the schema of the type
    can be derived. *)
Theorem FromInfo_unknown_location parseInt0 ds schemer_of schemerExtended_of noRefer
    (fuel : nat) (info : Param.Info.t) (schemer : Schemer) (st st' : store)
    (schema : Jsonschema.Schema) :
  Tag (Param.Info.Field info) = [] ->
  Param.Info.Source info ∉ [LocationPath; LocationQuery; LocationHeader; LocationCookie] ->
  Get ds schemer_of schemerExtended_of noRefer schemer fuel (Some (Param.Info.Typ info)) st
  = Some (Ret ((schema, None), st')) ->
  exists p,
    FromInfo parseInt0 ds schemer_of schemerExtended_of noRefer fuel info schemer st
    = Some (Ret ((p, Some (Sentinel ErrInvalidLocation)), st'))
    /\ Openapi3Param.Name p = Param.Info.Name info
    /\ In p = Param.Info.Source info.
Proof.
  intros Htag Hloc HG. unfold FromInfo, bind. rewrite HG. unfold get_heap.
  rewrite Htag. cbn [getTags Tag_Get].
  assert (Hd : defaultStyle (Param.Info.Source info)
               = ("", Some (Sentinel ErrInvalidLocation))).
  { unfold defaultStyle.
    repeat match goal with
           | |- context [String.eqb (Param.Info.Source info) ?x] =>
               destruct (String.eqb_spec (Param.Info.Source info) x) as [E|?];
               [exfalso; apply Hloc; rewrite E;
                solve [repeat first [apply list_elem_of_here | apply list_elem_of_further]]|]
           end.
    reflexivity. }
  unfold updateFromTags, parseBool, parseStyle, parseInt, parse, setDefaults.
  cbn. rewrite Hd. unfold ret. eexists. split; [reflexivity|]. split; reflexivity.
Qed.

Lemma FromInfo_unknown_location_witness :
  exists p,
    FromInfo ParamExamples.noParseInt0 ∅ Examples.noSchemer Examples.noExtend
      (fun _ => false) 1 ParamExamples.bodyInfo (NewSchemer ∅) empty_store
    = Some (Ret ((p, Some (Sentinel ErrInvalidLocation)), mkStore [] [["string"]]))
    /\ Openapi3Param.Name p = "body"
    /\ In p = "body".
Proof.
  apply (FromInfo_unknown_location ParamExamples.noParseInt0 ∅ Examples.noSchemer
           Examples.noExtend (fun _ => false) 1 ParamExamples.bodyInfo (NewSchemer ∅)
           empty_store (mkStore [] [["string"]])
           (mkSchema (mkOSchema (Some 0%nat) "" None None "" None [] None None [])
              "" false "")).
  - reflexivity.
  - vm_compute. intros H. repeat (apply elem_of_cons in H as [H|H]; [discriminate H|]).
    inversion H.
  - reflexivity.
Defined.

(** ** Validation errors *)

Lemma EngineError_induction (P : ValidationErrors.EngineError -> Prop) :
  (forall loc text causes, Forall P causes ->
     P (ValidationErrors.mkEngineError loc text causes)) ->
  forall e, P e.
Proof.
  intros H. fix IH 1. intros [loc text causes]. apply H.
  induction causes as [|c causes IHc]; constructor; [apply IH | exact IHc].
Qed.

Lemma validationErrToErrorDetail_leaves (e : ValidationErrors.EngineError) :
  ValidationErrors.validationErrToErrorDetail e = map leafDetail (leaves e).
Proof.
  induction e as [loc text causes IH] using EngineError_induction.
  assert (G : forall cs,
    Forall (fun e => ValidationErrors.validationErrToErrorDetail e
                     = map leafDetail (leaves e)) cs ->
    (fix each (cs : list ValidationErrors.EngineError) : list ValidationError :=
       match cs with
       | [] => []
       | c :: cs' => ValidationErrors.validationErrToErrorDetail c ++ each cs'
       end) cs
    = map leafDetail
        ((fix each (cs : list ValidationErrors.EngineError) :=
            match cs with
            | [] => []
            | c :: cs' => leaves c ++ each cs'
            end) cs)).
  { intros cs Hcs. induction Hcs as [|c cs Hc Hrest IHrest]; [reflexivity|].
    rewrite map_app, <- Hc, <- IHrest. reflexivity. }
  destruct causes as [|c causes]; [reflexivity|].
  exact (G (c :: causes) IH).
Qed.

Lemma leaves_not_nil (e : ValidationErrors.EngineError) : leaves e <> [].
Proof.
  induction e as [loc text causes IH] using EngineError_induction.
  cbn [leaves]. destruct causes as [|c causes]; [discriminate|].
  inversion IH as [|? ? Hc Hrest]; subst.
  destruct (leaves c) eqn:E; [contradiction | discriminate].
Qed.

(** X27 (convertError, validationErrToErrorDetail): the causes of a
    converted error are the details of the errors without causes in the
    engine's tree, in order; there is always at least one, so the message
    and the location of the converted error itself are always empty; and
    each cause has no causes of its own and a location that starts with a
    slash. *)
Theorem convertError_causes (e : ValidationErrors.EngineError) :
  ve_Causes (ValidationErrors.convertError e) = map leafDetail (leaves e)
  /\ ve_Causes (ValidationErrors.convertError e) <> []
  /\ ve_Message (ValidationErrors.convertError e) = ""
  /\ ve_Location (ValidationErrors.convertError e) = ""
  /\ Forall (fun c => ve_Causes c = [] /\ startsSlash (ve_Location c) = true)
       (ve_Causes (ValidationErrors.convertError e)).
Proof.
  assert (Hne : ValidationErrors.validationErrToErrorDetail e <> []).
  { rewrite validationErrToErrorDetail_leaves. pose proof (leaves_not_nil e) as H.
    destruct (leaves e); [contradiction | discriminate]. }
  unfold ValidationErrors.convertError. destruct e as [loc text causes].
  destruct (bool_decide
              (length (ValidationErrors.validationErrToErrorDetail
                         (ValidationErrors.mkEngineError loc text causes)) = 0%nat)) eqn:E.
  { apply bool_decide_eq_true in E. apply length_zero_iff_nil in E. contradiction. }
  cbn [ve_Causes ve_Message ve_Location].
  split; [apply validationErrToErrorDetail_leaves|].
  split; [exact Hne|]. split; [reflexivity|]. split; [reflexivity|].
  rewrite validationErrToErrorDetail_leaves. apply Forall_map.
  apply Forall_forall. intros [l t cs] _. split; reflexivity.
Qed.

(** ** The validator: what has been added stays *)

Section ValidatorKeeps.
Context {doc compiled engineError : Type}.
Variable UnmarshalJSON : string -> doc + err.
Variable AddResource : string -> doc -> list (string * doc) -> list (string * doc) + err.
Variable Compile : Validator.Loader doc -> list (string * doc) -> string -> compiled + err.

Local Abbreviation Add := (Validator.Add doc compiled UnmarshalJSON AddResource Compile).
Local Abbreviation addAll := (Validator.addAll doc compiled UnmarshalJSON AddResource Compile).
Local Abbreviation succeeded :=
  (Validator.succeeded doc compiled UnmarshalJSON AddResource Compile).

Lemma addAll_keeps (calls : list (string * string)) :
  forall (c : Validator.Validator doc compiled) name,
    is_Some (Validator.schemas c !! name) ->
    is_Some (Validator.schemas (addAll c calls) !! name).
Proof.
  induction calls as [|[n schema] calls IH]; intros c name Hc; [exact Hc|].
  cbn [Validator.addAll]. apply IH.
  destruct (Add_cases UnmarshalJSON AddResource Compile c n schema)
    as [[e H]|[(c' & e & H & Hs & _)|(c' & s & H & Hs & _)]]; rewrite H; cbn [fst].
  - exact Hc.
  - rewrite Hs. exact Hc.
  - rewrite Hs. destruct (decide (n = name)) as [->|Hne].
    + rewrite lookup_insert_eq. eauto.
    + rewrite lookup_insert_ne by exact Hne. exact Hc.
Qed.

(** X28 (Add, compile, Validate): a name that some call of Add has
    returned without an error for has a compiled schema ever after,
    whatever calls of Add follow, failing ones for the same name included;
    so Validate does not answer ErrSchemaNotFound for it. *)
Theorem added_schema_stays (c : Validator.Validator doc compiled)
    (calls : list (string * string)) (name : string) :
  name ∈ succeeded c calls ->
  is_Some (Validator.schemas (addAll c calls) !! name)
  /\ forall (json_Unmarshal : string -> doc + err)
            (Schema_Validate : compiled -> doc -> option (engineError + err))
            (convertError : engineError -> ValidationError) input d,
       json_Unmarshal input = inl d ->
       Validator.Validate doc compiled engineError json_Unmarshal Schema_Validate
         convertError (addAll c calls) name input
       <> Some (Sentinel ErrSchemaNotFound).
Proof.
  intros Hin.
  assert (Hs : is_Some (Validator.schemas (addAll c calls) !! name)).
  { revert c Hin. induction calls as [|[n schema] calls IH]; intros c Hin.
    - inversion Hin.
    - cbn [Validator.succeeded Validator.addAll] in *.
      destruct (Add_cases UnmarshalJSON AddResource Compile c n schema)
        as [[e H]|[(c' & e & H & Hs & _)|(c' & s & H & Hs & _)]];
        rewrite H in *; cbn [fst] in *.
      + now apply IH.
      + now apply IH.
      + apply elem_of_cons in Hin as [->|Hin]; [|now apply IH].
        apply addAll_keeps. rewrite Hs, lookup_insert_eq. eauto. }
  split; [exact Hs|].
  intros json_Unmarshal Schema_Validate convertError input d Hd.
  unfold Validator.Validate. destruct Hs as [s ->]. rewrite Hd.
  destruct (Schema_Validate s d) as [[verr|e]|]; discriminate.
Qed.
End ValidatorKeeps.

Lemma added_schema_stays_witness :
  is_Some (Validator.schemas
             (Validator.addAll Validator.Toy.doc Validator.Toy.doc
                Validator.Toy.UnmarshalJSON Validator.Toy.AddResource Validator.Toy.Compile
                Validator.NewValidator [("a", ""); ("a", "{"); ("b", "https://example.com/s")])
           !! "a").
Proof.
  apply (added_schema_stays (engineError := Empty_set) Validator.Toy.UnmarshalJSON
           Validator.Toy.AddResource Validator.Toy.Compile Validator.NewValidator
           [("a", ""); ("a", "{"); ("b", "https://example.com/s")] "a").
  vm_compute. apply list_elem_of_here.
Defined.

(** ** Deep objects and form parameters of the OpenAPI query *)

Section DeepObjectProperties.
Variable ds : decls.
Variable schemer_of :
  rtype -> option (list (list string) -> Jsonschema.Schema * list (list string)).
Variable schemerExtended_of :
  rtype -> option (Jsonschema.Schema -> list (list string)
                   -> Jsonschema.Schema * list (list string)).
Variable noRefer : rtype -> bool.
Variable IsExported : StructField -> bool.
Variable Error : err -> string.

Local Abbreviation deepFields := (Openapi3Query.deepFields IsExported Error).
Local Abbreviation validDeepObjectType :=
  (Openapi3Query.validDeepObjectType ds schemer_of schemerExtended_of noRefer IsExported Error).

Lemma deepFields_app parser typ schema pre : forall rest,
  deepFields parser typ schema pre = Ret None ->
  deepFields parser typ schema (pre ++ rest) = deepFields parser typ schema rest.
Proof.
  induction pre as [|f pre IH]; intros rest; cbn [Openapi3Query.deepFields app];
    [reflexivity|].
  destruct (negb (IsExported f)); [discriminate|].
  destruct (Openapi3Query.parseable parser (zero (Typ f))) as [[v [|]]|m]; try discriminate.
  destruct (Openapi3Query.getDefaultValue f schema) as [d|m]; [|discriminate].
  destruct (negb (String.eqb d "")); [|apply IH].
  destruct (Param.call parser v [d]) as [[v' [e|]]|m]; try discriminate.
  apply IH.
Qed.

(** X29 (validDeepObjectType, getDefaultValue): for an exported, parseable
    field without a default tag, the default that is checked is read from
    the field's property in the schema of the struct: when the property
    has no default the text <nil> is parsed in its place, and the struct
    is refused if the parser does not take it; when the property is a
    reference, reading its default panics. *)
Theorem deepObject_default_of_property fuel parser typ schema st' pre f post v0 e0 :
  Kind_of ds typ = kStruct ->
  Get ds schemer_of schemerExtended_of noRefer (NewSchemer ds) fuel (Some typ) empty_store
  = Some (Ret ((schema, None), st')) ->
  Fields ds typ = pre ++ f :: post ->
  deepFields parser typ schema pre = Ret None ->
  IsExported f = true ->
  Param.call parser (zero (Typ f)) [""] = Ret (v0, e0) ->
  errors_Is e0 ErrInvalidParamType = false ->
  Tag_Get (Tag f) "default" = "" ->
  (forall o v1 e,
      assoc_get (JSONFieldName f) (default [] (Properties (Schema_ schema))) = Some (Spec o) ->
      Default o = None ->
      Param.call parser v0 ["<nil>"] = Ret (v1, Some e) ->
      validDeepObjectType fuel parser typ
      = Some (Ret (Some (InvalidParam
          (mkInvalidParamError typ f None
             (Param.ErrUnparsableDefault +:+ ": " +:+ "<nil>") (Error e) false)))))
  /\ (forall r,
      assoc_get (JSONFieldName f) (default [] (Properties (Schema_ schema))) = Some (Ref r) ->
      validDeepObjectType fuel parser typ
      = Some (Panic "invalid memory address or nil pointer dereference")).
Proof.
  intros Hk HG Hf Hpre Hexp Hp He0 Htag.
  assert (Hstart : validDeepObjectType fuel parser typ
                   = Some (deepFields parser typ schema (f :: post))).
  { unfold Openapi3Query.validDeepObjectType.
    rewrite (bool_decide_eq_false_2 (Kind_of ds typ = kPointer)) by (rewrite Hk; discriminate).
    rewrite (bool_decide_eq_true_2 _ Hk). cbn [negb]. rewrite HG, Hf.
    now rewrite (deepFields_app _ _ _ _ _ Hpre). }
  rewrite Hstart. cbn [Openapi3Query.deepFields]. rewrite Hexp. cbn [negb].
  unfold Openapi3Query.parseable. rewrite Hp. cbn [obind]. rewrite He0. cbn [negb].
  unfold Openapi3Query.getDefaultValue. rewrite Htag. cbn [String.eqb negb].
  split.
  - intros o v1 e Hprop Hdef Hnil. rewrite Hprop, Hdef. cbn [String.eqb negb].
    change (negb (String.eqb "<nil>" "")) with true. cbv iota. rewrite Hnil. reflexivity.
  - intros r Hprop. rewrite Hprop. reflexivity.
Qed.
End DeepObjectProperties.

Lemma deepObject_default_of_property_witness :
  Openapi3Query.validDeepObjectType DeepExamples.page Examples.noSchemer Examples.noExtend
    (fun _ => false) DeepExamples.exported (fun _ => "") 2 (Some Param.ParseInt)
    (TDefined "Page")
  = Some (Ret (Some (InvalidParam
      (mkInvalidParamError (TDefined "Page") DeepExamples.fN None
         (Param.ErrUnparsableDefault +:+ ": " +:+ "<nil>") "" false))))
  /\ Openapi3Query.validDeepObjectType DeepExamples.span Examples.noSchemer Examples.noExtend
       (fun _ => false) DeepExamples.exported (fun _ => "") 3
       (Some (Param.ParseTextUnmarshaller DeepExamples.stampUnmarshalText))
       (TDefined "Span")
     = Some (Panic "invalid memory address or nil pointer dereference").
Proof.
  split.
  - eapply (proj1 (deepObject_default_of_property DeepExamples.page Examples.noSchemer
                     Examples.noExtend (fun _ => false) DeepExamples.exported (fun _ => "")
                     2 (Some Param.ParseInt) (TDefined "Page") _ _ [] DeepExamples.fN []
                     _ _ eq_refl eq_refl eq_refl eq_refl eq_refl eq_refl eq_refl eq_refl)).
    + reflexivity.
    + reflexivity.
    + reflexivity.
  - eapply (proj2 (deepObject_default_of_property DeepExamples.span Examples.noSchemer
                     Examples.noExtend (fun _ => false) DeepExamples.exported (fun _ => "")
                     3 (Some (Param.ParseTextUnmarshaller DeepExamples.stampUnmarshalText))
                     (TDefined "Span") _ _ [] DeepExamples.fFrom []
                     _ _ eq_refl eq_refl eq_refl eq_refl eq_refl eq_refl eq_refl eq_refl)).
    reflexivity.
Defined.

(** X30 (parseForm): with explode set, the form style parses a query
    parameter just as the plain Query extractor does; without it, only the
    first value of the parameter counts, cut at its commas. *)
Theorem parseForm_explode (T : rtype) (r : Extractor.Request) (opts : Extractor.Opts)
    (p : ParameterT) (q : gvalue) :
  (Explode p = true ->
   Openapi3Query.parseForm T (Extractor.URL_Query r) opts p q
   = Extractor.Query_Extract T r opts q)
  /\ (Explode p = false ->
      forall v vs,
        Extractor.URL_Query r !! Param.Opts.Name opts = Some (v :: vs) ->
        Openapi3Query.parseForm T (Extractor.URL_Query r) opts p q
        = Extractor.Query_Extract T
            (Extractor.mkRequest {[ Param.Opts.Name opts := Strings.Split v "," ]}
               (Extractor.Body r) (Extractor.ContentLength r))
            opts q).
Proof.
  unfold Openapi3Query.parseForm, Extractor.Query_Extract, Extractor.GetAndSetQueryValues.
  split.
  - intros ->. reflexivity.
  - intros -> v vs H. rewrite H. cbn [Extractor.URL_Query negb andb].
    change (default [] (Some (v :: vs))) with (v :: vs). cbn [length hd].
    rewrite bool_decide_eq_true_2 by lia. rewrite lookup_singleton_eq. reflexivity.
Qed.

Lemma parseForm_explode_witness :
  Openapi3Query.parseForm (TInt K0)
    (Extractor.URL_Query (Extractor.mkRequest {[ "n" := ["7,8"; "9"] ]} None 0))
    (Param.Opts.mk "n" "" (Some Param.ParseInt) (fun _ _ => ""))
    (set_Explode false Openapi3Param.New) (VObj "Q" [])
  = Extractor.Query_Extract (TInt K0)
      (Extractor.mkRequest {[ "n" := Strings.Split "7,8" "," ]} None 0)
      (Param.Opts.mk "n" "" (Some Param.ParseInt) (fun _ _ => "")) (VObj "Q" []).
Proof.
  apply (proj2 (parseForm_explode (TInt K0)
                  (Extractor.mkRequest {[ "n" := ["7,8"; "9"] ]} None 0)
                  (Param.Opts.mk "n" "" (Some Param.ParseInt) (fun _ _ => ""))
                  (set_Explode false Openapi3Param.New) (VObj "Q" [])) eq_refl "7,8" ["9"]).
  reflexivity.
Defined.
